(** * The tunnel manager of reqrypt (src/tunnel.c), embedded in Rocq

    The C module keeps two sets of tunnels (the cache and the active set)
    behind one global mutex, a selector with a flow-history table, the
    cache file, and the threads that open tunnels.  The embedding follows
    the C text function by function:

    - a [tunnel_t] is an address in [heap]; both sets hold addresses, so a
      record that is in the cache and in the active set is one object;
    - every C function is a program of the monad [prog]: it threads
      [tunnels_state] and stops with a [fault] where the C program leaves
      defined behaviour (an array read past [length], a dangling pointer),
      aborts ([panic], [error]) or blocks for ever on the mutex;
    - what the module does to the outside (log lines, sleeps, driver calls,
      thread creation) is appended to [trace], in order;
    - a [double] is a type with the operations of class [Double]; its
      instances are the binary64 floats of the kernel, the arithmetic of
      the program, and the rationals (exact arithmetic, the real-number
      reading of the C expressions);
    - what is declared outside tunnel.c (the CKTP driver, the random
      generator, constants of other headers) is a field of class [Extern]. *)

From Stdlib Require Import ZArith QArith Qminmax Lia List Ascii String.
From Stdlib Require Import Floats.Floats Numbers.Cyclic.Int63.Uint63.
From stdpp Require Import gmap strings list.

Local Open Scope Z_scope.

(** ** Arithmetic of [double] *)

Class Double (D : Type) := {
  d_of_uint32 : Z -> D;          (* (double)x, x a uint32_t *)
  d_0 : D;                       (* 0.0 *)
  d_1 : D;                       (* 1.0 *)
  d_0_75 : D;                    (* 0.75 *)
  d_0_005 : D;                   (* 0.005 *)
  d_0_15 : D;                    (* 0.15 *)
  d_add : D -> D -> D;
  d_sub : D -> D -> D;
  d_mul : D -> D -> D;
  d_div : D -> D -> D;
  d_ltb : D -> D -> bool;        (* x < y *)
  d_leb : D -> D -> bool         (* x <= y *)
}.

Definition Qltb (x y : Q) : bool := negb (Qle_bool y x).

(** Exact arithmetic: the real-number reading of the C expressions. *)
#[global] Instance Q_Double : Double Q := {
  d_of_uint32 z := inject_Z z;
  d_0 := 0%Q;
  d_1 := 1%Q;
  d_0_75 := (3 # 4)%Q;
  d_0_005 := (1 # 200)%Q;
  d_0_15 := (3 # 20)%Q;
  d_add := Qplus;
  d_sub := Qminus;
  d_mul := Qmult;
  d_div := Qdiv;
  d_ltb := Qltb;
  d_leb := Qle_bool
}.

(** IEEE 754 binary64, the [double] of the platforms the program runs on.
    The decimal literals are rounded to the nearest float, as a C compiler
    rounds them. *)
#[global, warnings="-inexact-float"]
Instance binary64_Double : Double float := {
  d_of_uint32 z := PrimFloat.of_uint63 (Uint63.of_Z z);
  d_0 := 0%float;
  d_1 := 1%float;
  d_0_75 := 0.75%float;
  d_0_005 := 0.005%float;
  d_0_15 := 0.15%float;
  d_add := PrimFloat.add;
  d_sub := PrimFloat.sub;
  d_mul := PrimFloat.mul;
  d_div := PrimFloat.div;
  d_ltb := PrimFloat.ltb;
  d_leb := PrimFloat.leb
}.

(** ** C strings and numbers *)

(** A C string is the list of its characters before the terminating NUL. *)
Abbreviation cstring := (list ascii).

Definition cstr (s : string) : cstring := list_ascii_of_string s.

(** [strcmp a b == 0] *)
Definition streq (a b : cstring) : bool := bool_decide (a = b).

(** [strncpy (dst, src, n); dst[n] = '\0'] as [tunnel_create] uses it: the
    first [n] characters of [src]. *)
Definition strncpy (n : nat) (src : cstring) : cstring := take n src.

Definition UINT8_MAX : Z := 255.
Definition UINT32_MAX : Z := 4294967295.

Definition uint8 (z : Z) : Z := z mod 2^8.
Definition uint16 (z : Z) : Z := z mod 2^16.
Definition uint32 (z : Z) : Z := z mod 2^32.
Definition uint64 (z : Z) : Z := z mod 2^64.

(** The digits of [printf ("%u")]: [fuel] bounds the number of digits. *)
Definition digit_char (d : Z) : ascii := ascii_of_N (Z.to_N (48 + d)).

Fixpoint utoa_rev (fuel : nat) (n : Z) : cstring :=
  match fuel with
  | O => []
  | S fuel' =>
      if n <? 10 then [digit_char n]
      else digit_char (n mod 10) :: utoa_rev fuel' (n / 10)
  end.

Definition utoa (n : Z) : cstring := rev (utoa_rev 20 n).

(** ** What tunnel.c takes from other files *)

(** A CKTP tunnel handle ([cktp_tunnel_t]); [None] is the NULL handle. *)
Abbreviation cktp_tunnel_t := (option nat).

Class Extern := {
  CKTP_MAX_URL_LENGTH : nat;                        (* cktp.h *)
  PROGRAM_NAME_LONG : cstring;                      (* misc.h *)
  TUNNELS_FILENAME : cstring;                       (* tunnel.h *)
  WINDOWS : bool;                                   (* #ifdef WINDOWS *)
  cktp_parse_url : cstring -> bool;                 (* URL syntax check *)
  cktp_tunnel_get_mtu : cktp_tunnel_t -> Z -> Z;    (* 0: cannot send *)
  cktp_tunnel_timeout : cktp_tunnel_t -> Z -> bool; (* wants a reconnect *)
  random_draw : nat -> Z;                           (* n-th output of rng *)
  gettime_at : nat -> Z                             (* n-th reading of the clock *)
}.

(** Modelled from the spec: the time units of misc.h, which is not among the
    sources.  [sleeptime] takes microseconds (the variable it is given is
    [retry_time_us]); the spec gives the delays in seconds. *)
Definition SECONDS : Z := 1000000.
Definition MILLISECONDS : Z := 1000.

(** ** The data of tunnel.c *)

Definition MAX_ACTIVE_TUNNELS : Z := 8.

Inductive state_t :=
  | TUNNEL_STATE_CLOSED       (* 0: tunnel is closed *)
  | TUNNEL_STATE_OPENING      (* 1: tunnel is being opened *)
  | TUNNEL_STATE_OPEN         (* 2: tunnel is open and ready for use *)
  | TUNNEL_STATE_DEAD         (* 3: tunnel is closed and not for use *)
  | TUNNEL_STATE_CLOSING      (* 4: tunnel is scheduled to be closed *)
  | TUNNEL_STATE_DELETING.    (* 5: tunnel is scheduled to be deleted *)

#[global] Instance state_t_eq_dec : EqDecision state_t.
Proof. solve_decision. Defined.

Definition state_code (s : state_t) : Z :=
  match s with
  | TUNNEL_STATE_CLOSED => 0
  | TUNNEL_STATE_OPENING => 1
  | TUNNEL_STATE_OPEN => 2
  | TUNNEL_STATE_DEAD => 3
  | TUNNEL_STATE_CLOSING => 4
  | TUNNEL_STATE_DELETING => 5
  end.

Definition TUNNEL_INIT_AGE : Z := 16.
Definition TUNNEL_SET_INIT_SIZE : nat := 16.
Definition TUNNEL_HISTORY_SIZE : Z := 1024.
Definition MAX_INIT_OPEN : Z := 8.
Definition MAX_RETRIES : Z := 3.

(** A [tunnel_t] is a pointer to a [struct tunnel_s]: an address of [heap]. *)
Abbreviation tunnel_t := nat.

(** [struct tunnel_history_s] *)
Record tunnel_history_s := { h_hash : Z; h_id : Z }.

(** [struct tunnel_set_s]: [tunnels] holds the [length] used slots of the
    array, [set_size] is the allocated size ([size] in C).  The slots from [length] on are
    not part of the set: a read there is a [fault]. *)
Record tunnel_set_s := { tunnels : list tunnel_t; set_size : nat }.

Definition TUNNEL_SET_INIT : tunnel_set_s := {| tunnels := []; set_size := 0 |}.

(** The threads the module starts. *)
Inductive thread_fn :=
  | tunnel_activate_manager_thread
  | tunnel_reconnect_manager_thread
  | tunnel_activate_thread (tunnel : tunnel_t)
  | tunnel_reconnect_thread (url : cstring).

(** What the module does to the outside, in order. *)
Inductive event :=
  | ev_log (msg : string) (arg : cstring)
  | ev_warning (msg : string) (arg : cstring)
  | ev_sleeptime (us : Z)
  | ev_thread_create (fn : thread_fn)
  | ev_cktp_open_tunnel (url : cstring)
  | ev_cktp_close_tunnel (h : cktp_tunnel_t)
  | ev_cktp_tunnel_packet (h : cktp_tunnel_t) (packet : list Z)
  | ev_cktp_fragmentation_required (h : cktp_tunnel_t) (mtu : Z)
      (packet : list Z)
  | ev_http_register_callback (name : string).

(** The three files of the cache: each is absent or has a content.
    [tmp_writable] tells whether [fopen (TUNNELS_TMP_FILENAME, "w")]
    succeeds. *)
Record files := {
  file_primary : option cstring;      (* TUNNELS_FILENAME *)
  file_bak : option cstring;          (* TUNNELS_BAK_FILENAME *)
  file_tmp : option cstring;          (* TUNNELS_TMP_FILENAME *)
  tmp_writable : bool
}.

Inductive fault :=
  | OutOfBounds          (* a read of [tunnels[i]] with [i >= length] *)
  | DanglingPointer      (* a [tunnel_t] that is not allocated *)
  | Deadlock             (* [thread_lock] on the mutex while it is held *)
  | Aborted (msg : string).  (* [panic] and [error] end the process *)

Inductive outcome (S A : Type) :=
  | Done (a : A) (s : S)
  | Crash (f : fault).
Arguments Done {S A} a s.
Arguments Crash {S A} f.

Section Model.
Context {D : Type} {dbl : Double D} {ext : Extern}.

(** [struct tunnel_s] *)
Record tunnel_s := {
  t_tunnel : cktp_tunnel_t;    (* underlying CKTP tunnel *)
  t_state : state_t;           (* tunnel's state *)
  t_reconnect : bool;          (* true if we are reconnecting *)
  t_id : Z;                    (* tunnel's ID, uint16_t *)
  t_age : Z;                   (* tunnel's age, uint8_t *)
  t_weight : D;                (* tunnel's weight *)
  t_url : cstring
}.

Definition set_t_tunnel (h : cktp_tunnel_t) (t : tunnel_s) : tunnel_s :=
  {| t_tunnel := h; t_state := t_state t; t_reconnect := t_reconnect t;
     t_id := t_id t; t_age := t_age t; t_weight := t_weight t;
     t_url := t_url t |}.
Definition set_t_state (s : state_t) (t : tunnel_s) : tunnel_s :=
  {| t_tunnel := t_tunnel t; t_state := s; t_reconnect := t_reconnect t;
     t_id := t_id t; t_age := t_age t; t_weight := t_weight t;
     t_url := t_url t |}.
Definition set_t_reconnect (b : bool) (t : tunnel_s) : tunnel_s :=
  {| t_tunnel := t_tunnel t; t_state := t_state t; t_reconnect := b;
     t_id := t_id t; t_age := t_age t; t_weight := t_weight t;
     t_url := t_url t |}.
Definition set_t_age (a : Z) (t : tunnel_s) : tunnel_s :=
  {| t_tunnel := t_tunnel t; t_state := t_state t;
     t_reconnect := t_reconnect t; t_id := t_id t; t_age := a;
     t_weight := t_weight t; t_url := t_url t |}.
Definition set_t_weight (w : D) (t : tunnel_s) : tunnel_s :=
  {| t_tunnel := t_tunnel t; t_state := t_state t;
     t_reconnect := t_reconnect t; t_id := t_id t; t_age := t_age t;
     t_weight := w; t_url := t_url t |}.

(** The static storage of tunnel.c, the heap and the files. *)
Record tunnels_state := {
  tunnels_lock : bool;                        (* the mutex is held *)
  tunnels_cache : tunnel_set_s;
  tunnels_active : tunnel_set_s;
  rng : nat;                                  (* draws made so far *)
  clock : nat;                                (* readings of the clock so far *)
  tunnel_create_id : Z;                       (* static id of tunnel_create *)
  tunnel_history : gmap Z tunnel_history_s;   (* static array of tunnel_get;
                                                 a slot not written is zero *)
  heap : gmap nat tunnel_s;                   (* the malloc'ed records *)
  brk : nat;                                  (* next address of malloc *)
  fs : files;
  trace : list event
}.

Definition with_lock (b : bool) (st : tunnels_state) : tunnels_state :=
  {| tunnels_lock := b; tunnels_cache := tunnels_cache st;
     tunnels_active := tunnels_active st; rng := rng st; clock := clock st;
     tunnel_create_id := tunnel_create_id st;
     tunnel_history := tunnel_history st; heap := heap st; brk := brk st;
     fs := fs st; trace := trace st |}.
Definition with_cache (c : tunnel_set_s) (st : tunnels_state) : tunnels_state :=
  {| tunnels_lock := tunnels_lock st; tunnels_cache := c;
     tunnels_active := tunnels_active st; rng := rng st; clock := clock st;
     tunnel_create_id := tunnel_create_id st;
     tunnel_history := tunnel_history st; heap := heap st; brk := brk st;
     fs := fs st; trace := trace st |}.
Definition with_active (a : tunnel_set_s) (st : tunnels_state) : tunnels_state :=
  {| tunnels_lock := tunnels_lock st; tunnels_cache := tunnels_cache st;
     tunnels_active := a; rng := rng st; clock := clock st;
     tunnel_create_id := tunnel_create_id st;
     tunnel_history := tunnel_history st; heap := heap st; brk := brk st;
     fs := fs st; trace := trace st |}.
Definition with_rng (n : nat) (st : tunnels_state) : tunnels_state :=
  {| tunnels_lock := tunnels_lock st; tunnels_cache := tunnels_cache st;
     tunnels_active := tunnels_active st; rng := n; clock := clock st;
     tunnel_create_id := tunnel_create_id st;
     tunnel_history := tunnel_history st; heap := heap st; brk := brk st;
     fs := fs st; trace := trace st |}.
Definition with_clock (n : nat) (st : tunnels_state) : tunnels_state :=
  {| tunnels_lock := tunnels_lock st; tunnels_cache := tunnels_cache st;
     tunnels_active := tunnels_active st; rng := rng st; clock := n;
     tunnel_create_id := tunnel_create_id st;
     tunnel_history := tunnel_history st; heap := heap st; brk := brk st;
     fs := fs st; trace := trace st |}.
Definition with_create_id (i : Z) (st : tunnels_state) : tunnels_state :=
  {| tunnels_lock := tunnels_lock st; tunnels_cache := tunnels_cache st;
     tunnels_active := tunnels_active st; rng := rng st; clock := clock st;
     tunnel_create_id := i;
     tunnel_history := tunnel_history st; heap := heap st; brk := brk st;
     fs := fs st; trace := trace st |}.
Definition with_history (h : gmap Z tunnel_history_s) (st : tunnels_state)
  : tunnels_state :=
  {| tunnels_lock := tunnels_lock st; tunnels_cache := tunnels_cache st;
     tunnels_active := tunnels_active st; rng := rng st; clock := clock st;
     tunnel_create_id := tunnel_create_id st;
     tunnel_history := h; heap := heap st; brk := brk st;
     fs := fs st; trace := trace st |}.
Definition with_heap (h : gmap nat tunnel_s) (st : tunnels_state)
  : tunnels_state :=
  {| tunnels_lock := tunnels_lock st; tunnels_cache := tunnels_cache st;
     tunnels_active := tunnels_active st; rng := rng st; clock := clock st;
     tunnel_create_id := tunnel_create_id st;
     tunnel_history := tunnel_history st; heap := h; brk := brk st;
     fs := fs st; trace := trace st |}.
Definition with_brk (n : nat) (st : tunnels_state) : tunnels_state :=
  {| tunnels_lock := tunnels_lock st; tunnels_cache := tunnels_cache st;
     tunnels_active := tunnels_active st; rng := rng st; clock := clock st;
     tunnel_create_id := tunnel_create_id st;
     tunnel_history := tunnel_history st; heap := heap st; brk := n;
     fs := fs st; trace := trace st |}.
Definition with_fs (f : files) (st : tunnels_state) : tunnels_state :=
  {| tunnels_lock := tunnels_lock st; tunnels_cache := tunnels_cache st;
     tunnels_active := tunnels_active st; rng := rng st; clock := clock st;
     tunnel_create_id := tunnel_create_id st;
     tunnel_history := tunnel_history st; heap := heap st; brk := brk st;
     fs := f; trace := trace st |}.
Definition with_trace (t : list event) (st : tunnels_state) : tunnels_state :=
  {| tunnels_lock := tunnels_lock st; tunnels_cache := tunnels_cache st;
     tunnels_active := tunnels_active st; rng := rng st; clock := clock st;
     tunnel_create_id := tunnel_create_id st;
     tunnel_history := tunnel_history st; heap := heap st; brk := brk st;
     fs := fs st; trace := t |}.

(** ** The monad of the C functions *)

Definition prog (A : Type) : Type := tunnels_state -> outcome tunnels_state A.

Definition ret {A} (a : A) : prog A := fun st => Done a st.

Definition bind {A B} (m : prog A) (k : A -> prog B) : prog B :=
  fun st => match m st with
            | Done a st' => k a st'
            | Crash f => Crash f
            end.

Definition crash {A} (f : fault) : prog A := fun _ => Crash f.

Definition get_state : prog tunnels_state := fun st => Done st st.

Definition modify (f : tunnels_state -> tunnels_state) : prog unit :=
  fun st => Done tt (f st).

End Model.

Arguments tunnel_s D : clear implicits.
Arguments tunnels_state D : clear implicits.
Arguments prog D A : clear implicits.

Declare Scope prog_scope.
Delimit Scope prog_scope with prog.
Notation "x <- m ;; k" := (bind m (fun x => k))
  (at level 100, m at next level, right associativity) : prog_scope.
Notation "m ;; k" := (bind m (fun _ => k))
  (at level 100, right associativity) : prog_scope.

Section Operations.
Context {D : Type} {dbl : Double D} {ext : Extern}.
Local Open Scope prog_scope.

Abbreviation prog' := (prog D).

(** *** The mutex, the heap and the trace *)

(** No other thread runs inside a program, so a held mutex stays held:
    taking it again blocks for ever. *)
Definition thread_lock : prog' unit :=
  fun st => if tunnels_lock st then Crash Deadlock
            else Done tt (with_lock true st).

Definition thread_unlock : prog' unit := modify (with_lock false).

Definition emit (e : event) : prog' unit :=
  modify (fun st => with_trace (trace st ++ [e]) st).

(** [*tunnel] *)
Definition deref (tunnel : tunnel_t) : prog' (tunnel_s D) :=
  fun st => match heap st !! tunnel with
            | Some t => Done t st
            | None => Crash DanglingPointer
            end.

(** [*tunnel = t] *)
Definition store (tunnel : tunnel_t) (t : tunnel_s D) : prog' unit :=
  modify (fun st => with_heap (<[tunnel := t]> (heap st)) st).

(** [tunnel->field = v] *)
Definition assign (tunnel : tunnel_t) (f : tunnel_s D -> tunnel_s D)
  : prog' unit :=
  t <- deref tunnel;; store tunnel (f t).

(** [free (tunnel)] *)
Definition free (tunnel : tunnel_t) : prog' unit :=
  modify (fun st => with_heap (delete tunnel (heap st)) st).

Definition cktp_close_tunnel (h : cktp_tunnel_t) : prog' unit :=
  emit (ev_cktp_close_tunnel h).

Definition thread_create (fn : thread_fn) : prog' unit :=
  emit (ev_thread_create fn).

Definition random_uint32 : prog' Z :=
  fun st => Done (uint32 (random_draw (rng st))) (with_rng (S (rng st)) st).

Definition random_uint64 : prog' Z :=
  fun st => Done (uint64 (random_draw (rng st))) (with_rng (S (rng st)) st).

Definition gettime : prog' Z :=
  fun st => Done (uint64 (gettime_at (clock st)))
                 (with_clock (S (clock st)) st).

(** *** Sets of tunnels *)

(** [&tunnels_cache] and [&tunnels_active] *)
Inductive tunnel_set_t := cache_set | active_set.

Definition get_set (s : tunnel_set_t) : prog' tunnel_set_s :=
  fun st => Done (match s with
                  | cache_set => tunnels_cache st
                  | active_set => tunnels_active st
                  end) st.

Definition put_set (s : tunnel_set_t) (v : tunnel_set_s) : prog' unit :=
  modify (match s with
          | cache_set => with_cache v
          | active_set => with_active v
          end).

(** [tunnel_set->tunnels[i]]: defined for [i < tunnel_set->length] only. *)
Definition tunnel_at (tunnel_set : tunnel_set_t) (i : nat) : prog' tunnel_t :=
  s <- get_set tunnel_set;;
  match tunnels s !! i with
  | Some tunnel => ret tunnel
  | None => crash OutOfBounds
  end.

(** Add a tunnel to a tunnel_set_s: the array is grown when it is full
    (a failed [realloc] ends the process and is not modelled), and the
    tunnel is stored at index [length]. *)
Definition set_append (s : tunnel_set_s) (tunnel : tunnel_t) : tunnel_set_s :=
  let size' :=
    if (set_size s <=? length (tunnels s))%nat
    then (if (set_size s =? 0)%nat then TUNNEL_SET_INIT_SIZE
          else set_size s * 2)%nat
    else set_size s in
  {| tunnels := tunnels s ++ [tunnel]; set_size := size' |}.

Definition tunnel_set_insert (tunnel_set : tunnel_set_t) (tunnel : tunnel_t)
  : prog' unit :=
  s <- get_set tunnel_set;;
  put_set tunnel_set (set_append s tunnel).

(** The loop shared by lookup, delete and replace: the first index [i],
    counted from [i0], whose tunnel has the URL [url]. *)
Fixpoint find_url (ts : list tunnel_t) (i0 : nat) (url : cstring)
  : prog' (option nat) :=
  match ts with
  | [] => ret None
  | tunnel :: rest =>
      t <- deref tunnel;;
      if streq (t_url t) url then ret (Some i0)
      else find_url rest (S i0) url
  end.

(** Replace a tunnel in a tunnel_set_s. *)
Definition tunnel_set_replace (tunnel_set : tunnel_set_t) (tunnel : tunnel_t)
  : prog' (option tunnel_t) :=
  s <- get_set tunnel_set;;
  match tunnels s with
  | [] => ret None
  | _ =>
      new <- deref tunnel;;
      found <- find_url (tunnels s) 0 (t_url new);;
      match found with
      | Some i =>
          tunnel_old <- tunnel_at tunnel_set i;;
          put_set tunnel_set
            {| tunnels := <[i := tunnel]> (tunnels s); set_size := set_size s |};;
          ret (Some tunnel_old)
      | None => ret None
      end
  end.

(** Remove a tunnel from a tunnel_set_s. *)
Definition tunnel_set_delete (tunnel_set : tunnel_set_t) (url : cstring)
  : prog' (option tunnel_t) :=
  s <- get_set tunnel_set;;
  found <- find_url (tunnels s) 0 url;;
  match found with
  | Some i =>
      tunnel <- tunnel_at tunnel_set i;;
      put_set tunnel_set
        {| tunnels := delete i (tunnels s); set_size := set_size s |};;
      ret (Some tunnel)
  | None => ret None
  end.

(** Find a tunnel in a tunnel_set_s: its index, or -1. *)
Definition tunnel_set_lookup (tunnel_set : tunnel_set_t) (url : cstring)
  : prog' Z :=
  s <- get_set tunnel_set;;
  found <- find_url (tunnels s) 0 url;;
  match found with
  | Some i => ret (Z.of_nat i)
  | None => ret (-1)
  end.

(** Initialise this module. *)
Definition tunnel_init : prog' unit :=
  modify (with_lock false);;
  modify (with_rng 0);;
  emit (ev_http_register_callback "tunnels-active.html");;
  emit (ev_http_register_callback "tunnels-all.html").

(** Initialise a tunnel.  [malloc] returns the next address; a failed
    allocation ends the process and is not modelled. *)
Definition tunnel_create (url : cstring) (age : Z) : prog' tunnel_t :=
  st <- get_state;;
  let tunnel := brk st in
  let id := tunnel_create_id st in
  modify (with_brk (S tunnel));;
  modify (with_create_id (uint16 (id + 1)));;
  store tunnel
    {| t_tunnel := None; t_age := age; t_state := TUNNEL_STATE_CLOSED;
       t_reconnect := false; t_id := id; t_weight := d_1;
       t_url := strncpy CKTP_MAX_URL_LENGTH url |};;
  ret tunnel.

(** Close a tunnel. *)
Definition tunnel_free (tunnel : option tunnel_t) : prog' unit :=
  match tunnel with
  | None => ret tt
  | Some tunnel =>
      t <- deref tunnel;;
      match t_state t with
      | TUNNEL_STATE_OPENING =>
          assign tunnel (set_t_state TUNNEL_STATE_DELETING)
      | TUNNEL_STATE_DELETING => ret tt
      | _ => cktp_close_tunnel (t_tunnel t);; free tunnel
      end
  end.

(** Open (activate) some tunnels for use. *)
Definition tunnel_open : prog' unit :=
  thread_create tunnel_activate_manager_thread;;
  thread_create tunnel_reconnect_manager_thread.

(** Check if there is currently an active tunnel available or not. *)
Definition tunnel_ready : prog' bool :=
  thread_lock;;
  s <- get_set active_set;;
  let result := negb (length (tunnels s) =? 0)%nat in
  thread_unlock;;
  ret result.

(** *** The selector *)

(** [tunnel_history[i]]; the array is static, so zero until written. *)
Definition history_at (h : gmap Z tunnel_history_s) (i : Z)
  : tunnel_history_s :=
  default {| h_hash := 0; h_id := 0 |} (h !! i).

(** [for (i = 0; i < length; i++) total_weight += tunnels[i]->weight] *)
Fixpoint total_weight_loop (ts : list tunnel_t) (total_weight : D)
  : prog' D :=
  match ts with
  | [] => ret total_weight
  | tunnel :: rest =>
      t <- deref tunnel;;
      total_weight_loop rest (d_add total_weight (t_weight t))
  end.

(** [for (idx = 0; idx < length && pick >= tunnels[idx]->weight; idx++)
      pick -= tunnels[idx]->weight]: [ts] are the slots from [idx] on. *)
Fixpoint pick_loop (ts : list tunnel_t) (idx : nat) (pick : D)
  : prog' (nat * D) :=
  match ts with
  | [] => ret (idx, pick)
  | tunnel :: rest =>
      t <- deref tunnel;;
      if d_leb (t_weight t) pick
      then pick_loop rest (S idx) (d_sub pick (t_weight t))
      else ret (idx, pick)
  end.

(** [bad_tunnel->weight = bad_tunnel->weight * 0.75], not below 0.005 *)
Definition punish (w : D) : D :=
  let w := d_mul w d_0_75 in
  if d_ltb w d_0_005 then d_0_005 else w.

(** [tunnel->weight = tunnel->weight + 0.15 * tunnel->weight], not above 1.0 *)
Definition reward (w : D) : D :=
  let w := d_add w (d_mul d_0_15 w) in
  if d_ltb d_1 w then d_1 else w.

(** Punish the tunnel that failed to send the packet: the first tunnel of
    the active set whose id is the one of the history slot. *)
Fixpoint punish_loop (ts : list tunnel_t) (id : Z) (pick : D)
  : prog' (option tunnel_t * D) :=
  match ts with
  | [] => ret (None, pick)
  | tunnel :: rest =>
      t <- deref tunnel;;
      if t_id t =? id then
        let pick := d_sub pick (t_weight t) in
        assign tunnel (set_t_weight (punish (t_weight t)));;
        ret (Some tunnel, pick)
      else punish_loop rest id pick
  end.

(** The three numbers [tunnel_get] derives from its arguments, a uint64_t
    [hash] and an unsigned [repeat]: the slot of the history, the 32-bit
    hash kept in it, and the hash that picks the tunnel. *)
Definition hist_idx (hash : Z) : Z := hash mod TUNNEL_HISTORY_SIZE.

Definition hist_hash (hash : Z) : Z :=
  uint32 (Z.lxor hash (Z.shiftr hash 32)).

Definition weight_hash (hash repeat : Z) : Z :=
  uint32 (hist_hash hash * uint32 (repeat + 1)).

(** Given a hash, return a tunnel to use.  Return NULL if none are
    available. *)
Definition tunnel_get (hash : Z) (repeat : Z) : prog' (option tunnel_t) :=
  active <- get_set active_set;;
  let length := length (tunnels active) in
  if (length =? 0)%nat then ret None
  else
    let hist_idx := hist_idx hash in
    let hist_hash := hist_hash hash in
    let weight_hash := weight_hash hash repeat in
    total_weight <- total_weight_loop (tunnels active) d_0;;
    let pick :=
      d_mul (d_div (d_of_uint32 weight_hash) (d_of_uint32 UINT32_MAX))
            total_weight in
    walk <- pick_loop (tunnels active) 0 pick;;
    let '(idx, pick) := walk in
    tunnel <- tunnel_at active_set idx;;
    tunnel <-
      (if negb (repeat =? 0) then
         st <- get_state;;
         let slot := history_at (tunnel_history st) hist_idx in
         bad <-
           (if h_hash slot =? hist_hash
            then punish_loop (tunnels active) (h_id slot) pick
            else ret (None, pick));;
         let '(bad_tunnel, pick) := bad in
         (* Pick a different tunnel (if possible) *)
         if bool_decide (Some tunnel = bad_tunnel) then
           let idx := ((idx + 1) mod length)%nat in
           tunnel_at active_set idx
         else ret tunnel
       else ret tunnel);;
    (* Assume success -- adjust weight accordingly *)
    assign tunnel (fun t => set_t_weight (reward (t_weight t)) t);;
    (* Record this packet into the tunnel history *)
    t <- deref tunnel;;
    modify (fun st =>
      with_history
        (<[hist_idx := {| h_hash := hist_hash; h_id := t_id t |}]>
           (tunnel_history st)) st);;
    ret (Some tunnel).

(** *** Tunnel a packet *)

(** [ntohs (((struct iphdr * ) p)->tot_len)]: bytes 2 and 3 of the header. *)
Definition ip_tot_len (p : list Z) : prog' Z :=
  match p !! 2%nat, p !! 3%nat with
  | Some hi, Some lo => ret (hi * 256 + lo)
  | _, _ => crash OutOfBounds
  end.

(** Check if any tunneled packet is too big. *)
Fixpoint fit_loop (packets : list (list Z)) (mtu : Z) (fit : bool)
  : prog' bool :=
  match packets with
  | [] => ret fit
  | p :: rest =>
      tot_len <- ip_tot_len p;;
      let fit := fit && (tot_len <=? mtu) in
      (if negb fit
       then emit (ev_log "unable tunnel packet; maximum allowed packet size"
                    (utoa tot_len ++ cstr " " ++ utoa mtu))
       else ret tt);;
      fit_loop rest mtu fit
  end.

Fixpoint send_loop (h : cktp_tunnel_t) (packets : list (list Z))
  : prog' unit :=
  match packets with
  | [] => ret tt
  | p :: rest => emit (ev_cktp_tunnel_packet h p);; send_loop h rest
  end.

Definition tunnel_packets (packet : list Z) (packets : list (list Z))
    (hash : Z) (repeat : Z) (config_mtu : Z) : prog' bool :=
  thread_lock;;
  (* Select a tunnel for this packet *)
  tunnel <- tunnel_get hash repeat;;
  match tunnel with
  | None =>
      thread_unlock;;
      emit (ev_warning "unable to tunnel packet (no suitable tunnel is open); the packet will be dropped" []);;
      ret false
  | Some tunnel =>
      t <- deref tunnel;;
      let mtu := uint16 (cktp_tunnel_get_mtu (t_tunnel t) config_mtu) in
      if mtu =? 0 then ret false
      else
        fit <- fit_loop packets mtu true;;
        if negb fit then
          emit (ev_cktp_fragmentation_required (t_tunnel t) mtu packet);;
          thread_unlock;;
          ret true
        else
          (* Tunnel the packets *)
          send_loop (t_tunnel t) packets;;
          thread_unlock;;
          ret true
  end.

(** *** The cache file *)

Inductive filename :=
  | TUNNELS_FILE            (* TUNNELS_FILENAME *)
  | TUNNELS_BAK_FILENAME    (* TUNNELS_FILENAME ".bak" *)
  | TUNNELS_TMP_FILENAME.   (* TUNNELS_FILENAME ".tmp" *)

Definition file_name (f : filename) : cstring :=
  match f with
  | TUNNELS_FILE => TUNNELS_FILENAME
  | TUNNELS_BAK_FILENAME => TUNNELS_FILENAME ++ cstr ".bak"
  | TUNNELS_TMP_FILENAME => TUNNELS_FILENAME ++ cstr ".tmp"
  end.

Definition file_content (f : filename) (fl : files) : option cstring :=
  match f with
  | TUNNELS_FILE => file_primary fl
  | TUNNELS_BAK_FILENAME => file_bak fl
  | TUNNELS_TMP_FILENAME => file_tmp fl
  end.

Definition set_file (f : filename) (c : option cstring) (fl : files) : files :=
  match f with
  | TUNNELS_FILE =>
      {| file_primary := c; file_bak := file_bak fl; file_tmp := file_tmp fl;
         tmp_writable := tmp_writable fl |}
  | TUNNELS_BAK_FILENAME =>
      {| file_primary := file_primary fl; file_bak := c;
         file_tmp := file_tmp fl; tmp_writable := tmp_writable fl |}
  | TUNNELS_TMP_FILENAME =>
      {| file_primary := file_primary fl; file_bak := file_bak fl;
         file_tmp := c; tmp_writable := tmp_writable fl |}
  end.

(** [remove (f)] *)
Definition remove_file (f : filename) : prog' unit :=
  modify (fun st => with_fs (set_file f None (fs st)) st).

(** [rename (old, new) == 0].  It fails when [old] does not exist and, on
    Windows, when [new] exists; elsewhere it replaces [new]. *)
Definition rename (old new : filename) : prog' bool :=
  st <- get_state;;
  match file_content old (fs st) with
  | None => ret false
  | Some c =>
      if WINDOWS && bool_decide (is_Some (file_content new (fs st)))
      then ret false
      else
        modify (fun st =>
          with_fs (set_file old None (set_file new (Some c) (fs st))) st);;
        ret true
  end.

Definition nl : cstring := ["010"%char].

(** The loop of [tunnel_file_write] over the cache, [out] being the text
    printed so far: for a tunnel of age other than 0 it prints
    ["# AGE = %u\n"] and ["%s %u\n\n"]. *)
Fixpoint file_write_loop (ts : list tunnel_t) (out : cstring)
  : prog' cstring :=
  match ts with
  | [] => ret out
  | tunnel :: rest =>
      t <- deref tunnel;;
      if negb (t_age t =? 0) then
        file_write_loop rest
          (out ++ (cstr "# AGE = " ++ utoa (t_age t) ++ nl)
               ++ (t_url t ++ cstr " " ++ utoa (t_age t) ++ nl ++ nl))
      else file_write_loop rest out
  end.

(** Tunnels file write. *)
Definition tunnel_file_write : prog' unit :=
  thread_lock;;
  (if WINDOWS then remove_file TUNNELS_BAK_FILENAME else ret tt);;
  ok <- rename TUNNELS_FILE TUNNELS_BAK_FILENAME;;
  (if negb ok
   then emit (ev_warning "unable to backup old tunnel cache file"
                (file_name TUNNELS_FILE))
   else ret tt);;
  st <- get_state;;
  if negb (tmp_writable (fs st)) then
    emit (ev_warning "unable to open tunnel cache file for writing"
            (file_name TUNNELS_FILE))
    (* return *)
  else
    let header :=
      (cstr "# " ++ PROGRAM_NAME_LONG ++ cstr " tunnel cache" ++ nl)
      ++ (cstr "# AUTOMATICALLY GENERATED, DO NOT EDIT" ++ nl ++ nl) in
    cache <- get_set cache_set;;
    text <- file_write_loop (tunnels cache) header;;
    (* fclose *)
    modify (fun st =>
      with_fs (set_file TUNNELS_TMP_FILENAME (Some text) (fs st)) st);;
    (if WINDOWS then remove_file TUNNELS_FILE else ret tt);;
    ok <- rename TUNNELS_TMP_FILENAME TUNNELS_FILE;;
    (if negb ok
     then emit (ev_warning "unable to move temporary tunnel cache file"
                  (file_name TUNNELS_TMP_FILENAME))
     else ret tt);;
    thread_unlock.

(** A [FILE *] opened for reading: the characters not read yet and the
    end-of-file indicator.  The error indicator is never set: reads do not
    fail in the model. *)
Record FILE := { f_buf : cstring; f_eof : bool }.

Definition EOF : Z := -1.

Definition char_code (c : ascii) : Z := Z.of_N (N_of_ascii c).

(** The conversion of an [int] to a [char], which is signed on the
    platforms the program is built for. *)
Definition to_char (c : Z) : Z := (c + 128) mod 256 - 128.

Definition ascii_of_char (c : Z) : ascii := ascii_of_N (Z.to_N (c mod 256)).

Definition getc (file : FILE) : Z * FILE :=
  match f_buf file with
  | [] => (EOF, {| f_buf := []; f_eof := true |})
  | c :: rest => (char_code c, {| f_buf := rest; f_eof := f_eof file |})
  end.

Definition feof (file : FILE) : bool := f_eof file.
Definition ferror (file : FILE) : bool := false.

(** [while ((c = getc (file)) != '\n' && c != EOF) ;] with [char c] *)
Fixpoint skip_comment (buf : cstring) (eof : bool) : FILE :=
  match buf with
  | [] => {| f_buf := []; f_eof := true |}
  | c :: rest =>
      let c := to_char (char_code c) in
      if negb (c =? 10) && negb (c =? EOF) then skip_comment rest eof
      else {| f_buf := rest; f_eof := eof |}
  end.

(** [while (url[i] != ' ' && i < CKTP_MAX_URL_LENGTH && !feof (file) &&
      !ferror (file)) { i++; url[i] = getc (file); }]: [url] holds
    [url[0..i-1]], [c] is [url[i]] and [n] is CKTP_MAX_URL_LENGTH - i. *)
Fixpoint url_loop (n : nat) (url : list Z) (c : Z) (file : FILE)
  : list Z * Z * FILE :=
  match n with
  | O => (url, c, file)
  | S n' =>
      if negb (c =? 32) && negb (feof file) && negb (ferror file) then
        let (c', file') := getc file in
        url_loop n' (url ++ [c]) (to_char c') file'
      else (url, c, file)
  end.

(** The C string in a [char] array: the characters before the first NUL. *)
Fixpoint string_of_chars (cs : list Z) : cstring :=
  match cs with
  | [] => []
  | c :: rest => if c =? 0 then [] else ascii_of_char c :: string_of_chars rest
  end.

Definition isspace (c : Z) : bool :=
  (c =? 32) || ((9 <=? c) && (c <=? 13)).

Definition isdigit (c : Z) : bool := (48 <=? c) && (c <=? 57).

Fixpoint skip_space (buf : cstring) : cstring :=
  match buf with
  | c :: rest => if isspace (char_code c) then skip_space rest else buf
  | [] => []
  end.

(** The digits at the head of [buf], their value [acc] so far and their
    number [n] so far: the value, the number of digits, the rest. *)
Fixpoint scan_digits (buf : cstring) (acc : Z) (n : nat) : Z * nat * cstring :=
  match buf with
  | c :: rest =>
      if isdigit (char_code c)
      then scan_digits rest (acc * 10 + (char_code c - 48)) (S n)
      else (acc, n, buf)
  | [] => (acc, n, [])
  end.

(** [fscanf (file, "%u", &age)]: white space, an optional sign, digits.
    [None] when no number is there (the call does not return 1).  The value
    of a number that does not fit is the one of the C library's [strtoul]
    on an LP64 platform: ULONG_MAX, negated modulo 2^64 after a minus sign,
    cut to the 32 bits of an [unsigned]; a number of at most 9 digits
    without a sign is read as it is written by every C library. *)
Definition fscanf_u (file : FILE) : option Z * FILE :=
  let buf := skip_space (f_buf file) in
  let '(neg, buf1) :=
    match buf with
    | c :: rest =>
        if char_code c =? 45 then (true, rest)
        else if char_code c =? 43 then (false, rest)
        else (false, buf)
    | [] => (false, [])
    end in
  let '(v, n, rest) := scan_digits buf1 0 0 in
  match n with
  | O => (None, {| f_buf := buf; f_eof := f_eof file
                                          || bool_decide (buf1 = []) |})
  | _ =>
      let v := if 2^64 - 1 <? v then 2^64 - 1 else v in
      let v := if neg then uint64 (- v) else v in
      (Some (uint32 v), {| f_buf := rest; f_eof := f_eof file
                                                   || bool_decide (rest = []) |})
  end.

(** The [while (true)] loop of [tunnel_file_read].  Every round reads a
    character or ends the loop, so [fuel] above the length of the file is
    never used up. *)
Fixpoint file_read_loop (fuel : nat) (filename : filename) (file : FILE)
  : prog' unit :=
  match fuel with
  | O => ret tt
  | S fuel' =>
      let (c, file) := getc file in
      let c := to_char c in
      if (c =? EOF) && (ferror file || feof file) then
        (if ferror file
         then emit (ev_warning "unable to read tunnel URL from file"
                      (file_name filename))
         else ret tt)
      else if c =? 10 then file_read_loop fuel' filename file
      else if c =? 35 then
        file_read_loop fuel' filename (skip_comment (f_buf file) (f_eof file))
      else
        let '(url, c, file) := url_loop CKTP_MAX_URL_LENGTH [] c file in
        if (length url =? 0)%nat || negb (c =? 32) then
          emit (ev_warning "unable to read tunnel URL from file; expected 1 or more URL characters followed by a space character"
                  (file_name filename))
        else
          let url := string_of_chars url in
          let (age, file) := fscanf_u file in
          match age with
          | Some age =>
              if UINT8_MAX <? age then
                emit (ev_warning "unable to read age for tunnel from file" url)
              else
                let (c, file) := getc file in
                if negb (c =? 10) then
                  emit (ev_warning "unable to read tunnel file from file; missing end-of-line character" url)
                else
                  tunnel <- tunnel_create url (uint8 age);;
                  thread_lock;;
                  tunnel_set_insert cache_set tunnel;;
                  thread_unlock;;
                  file_read_loop fuel' filename file
          | None =>
              emit (ev_warning "unable to read age for tunnel from file" url)
          end
  end.

(** Tunnel file load. *)
Definition tunnel_file_read : prog' unit :=
  st <- get_state;;
  match file_content TUNNELS_FILE (fs st) with
  | Some text =>
      file_read_loop (S (length text)) TUNNELS_FILE
        {| f_buf := text; f_eof := false |}
  | None =>
      emit (ev_warning "unable to open tunnel cache file for reading; will use backup tunnel cache file"
              (file_name TUNNELS_FILE));;
      match file_content TUNNELS_BAK_FILENAME (fs st) with
      | Some text =>
          file_read_loop (S (length text)) TUNNELS_BAK_FILENAME
            {| f_buf := text; f_eof := false |}
      | None =>
          emit (ev_warning "unable to open backup tunnel cache file for reading"
                  (file_name TUNNELS_BAK_FILENAME))
      end
  end.

(** *** Opening tunnels *)

(** The scan of the cache by the activator thread: [j] counts the tunnels
    set to OPENING, [ts] are the slots from [i] on. *)
Fixpoint activate_manager_scan (ts : list tunnel_t) (j max : Z) : prog' Z :=
  match ts with
  | [] => ret j
  | tunnel :: rest =>
      if j <? max then
        t <- deref tunnel;;
        if bool_decide (t_state t = TUNNEL_STATE_CLOSED) then
          assign tunnel (set_t_state TUNNEL_STATE_OPENING);;
          thread_create (tunnel_activate_thread tunnel);;
          activate_manager_scan rest (j + 1) max
        else activate_manager_scan rest j max
      else ret j
  end.

(** The part of a round of the activator thread that holds the mutex:
    it returns [j], [max] and the stagger.  [max] is a [size_t]. *)
Definition activate_manager_attempt : prog' (Z * Z * Z) :=
  thread_lock;;
  active <- get_set active_set;;
  cache <- get_set cache_set;;
  let max := uint64 (MAX_INIT_OPEN - Z.of_nat (length (tunnels active)) + 1) in
  j <- activate_manager_scan (tunnels cache) 0 max;;
  stagger <- random_uint64;;
  thread_unlock;;
  ret (j, max, stagger).

(** Tunnel activator thread.  The thread may loop for ever: [fuel] bounds
    the rounds, and the result tells whether the thread returned.  While
    the thread sleeps in round [k] the other threads turn the state into
    [others k] of it. *)
Fixpoint tunnel_activate_manager (fuel : nat)
    (others : nat -> tunnels_state D -> tunnels_state D) (k : nat)
  : prog' bool :=
  match fuel with
  | O => ret false
  | S fuel' =>
      r <- activate_manager_attempt;;
      let '(j, max, stagger) := r in
      if j =? max then ret true  (* break *)
      else
        (* Wait for some tunnels to open *)
        emit (ev_sleeptime (150 * SECONDS + (stagger mod 10000) * MILLISECONDS));;
        modify (others k);;
        active <- get_set active_set;;
        if Z.of_nat (length (tunnels active)) <? MAX_INIT_OPEN
        then tunnel_activate_manager fuel' others (S k)
        else ret true
  end.

(** What happens around one call of [cktp_open_tunnel]: the handle it
    returns, and what the other threads do to the state while the call and
    while the sleep after it last. *)
Record attempt := {
  att_open : cktp_tunnel_t;
  att_during_open : tunnels_state D -> tunnels_state D;
  att_during_sleep : tunnels_state D -> tunnels_state D
}.

(** The loop of [tunnel_try_activate]; [k] numbers the calls of
    [cktp_open_tunnel].  [retries] is not 0 on entry. *)
Fixpoint try_activate_loop (retries : nat) (sched : nat -> attempt) (k : nat)
    (tunnel : tunnel_t) (retry_time_us : Z) : prog' bool :=
  match retries with
  | O => ret false
  | S retries' =>
      t <- deref tunnel;;
      if bool_decide (t_state t = TUNNEL_STATE_OPENING) then
        emit (ev_log "attempting to open tunnel" (t_url t));;
        emit (ev_cktp_open_tunnel (t_url t));;
        modify (att_during_open (sched k));;
        assign tunnel (set_t_tunnel (att_open (sched k)));;
        if bool_decide (att_open (sched k) <> None) then ret true
        else
          t <- deref tunnel;;
          if bool_decide (t_state t <> TUNNEL_STATE_OPENING) then ret true
          else if (retries' =? 0)%nat then ret false
          else
            emit (ev_log "unable to open tunnel; retrying" (t_url t));;
            emit (ev_sleeptime retry_time_us);;
            modify (att_during_sleep (sched k));;
            try_activate_loop retries' sched (S k) tunnel
              (uint64 (retry_time_us * 6))
      else ret true
  end.

(** Attempt to activate the given tunnel. *)
Definition tunnel_try_activate (sched : nat -> attempt) (tunnel : tunnel_t)
  : prog' bool :=
  thread_lock;;
  r <- random_uint32;;
  let stagger := uint64 ((r mod 1000) * MILLISECONDS) in
  thread_unlock;;
  let retry_time_us := uint64 (10 * SECONDS + stagger) in
  try_activate_loop (Z.to_nat MAX_RETRIES) sched 0 tunnel retry_time_us.

(** The part of [tunnel_activate] that holds the mutex: the switch on the
    state the tunnel has after [tunnel_try_activate] returned [result]. *)
Definition tunnel_activate_switch (tunnel : tunnel_t) (result : bool)
  : prog' unit :=
  thread_lock;;
  t <- deref tunnel;;
  match t_state t with
  | TUNNEL_STATE_DELETING =>
      assign tunnel (set_t_state TUNNEL_STATE_OPEN);;
      tunnel_free (Some tunnel)
  | TUNNEL_STATE_CLOSING =>
      assign tunnel (set_t_state TUNNEL_STATE_CLOSED);;
      cktp_close_tunnel (t_tunnel t);;
      assign tunnel (set_t_tunnel None)
  | TUNNEL_STATE_OPENING =>
      if result then
        emit (ev_log "successfully opened tunnel" (t_url t));;
        assign tunnel (set_t_state TUNNEL_STATE_OPEN);;
        assign tunnel (set_t_age TUNNEL_INIT_AGE);;
        tunnel_set_insert active_set tunnel
      else
        emit (ev_log "unable to open tunnel; giving up" (t_url t));;
        assign tunnel (set_t_state TUNNEL_STATE_DEAD);;
        assign tunnel
          (fun t => set_t_age (if t_age t =? 0 then 0 else t_age t - 1) t)
  | _ =>
      crash (Aborted "unexpected tunnel state")
  end;;
  thread_unlock.

(** Queue a tunnel for use: the body of the activate thread.  [wait] is
    what the other threads do between the return of [tunnel_try_activate]
    and the moment the thread gets the mutex. *)
Definition tunnel_activate (sched : nat -> attempt)
    (wait : tunnels_state D -> tunnels_state D) (tunnel : tunnel_t)
  : prog' unit :=
  result <- tunnel_try_activate sched tunnel;;
  modify wait;;
  tunnel_activate_switch tunnel result;;
  tunnel_file_write.

(** *** Adding and deleting tunnels *)

(** Add a tunnel. *)
Definition tunnel_add (url : cstring) : prog' unit :=
  (* First check if the URL is syntactically valid *)
  if negb (cktp_parse_url url) then ret tt
  else
    thread_lock;;
    idx <- tunnel_set_lookup cache_set url;;
    found <-
      (if idx <? 0 then
         tunnel <- tunnel_create url TUNNEL_INIT_AGE;;
         tunnel_set_insert cache_set tunnel;;
         ret (Some tunnel)
       else
         tunnel <- tunnel_at cache_set (Z.to_nat idx);;
         t <- deref tunnel;;
         if bool_decide (t_state t = TUNNEL_STATE_OPEN)
            || bool_decide (t_state t = TUNNEL_STATE_OPENING)
         then
           thread_unlock;;
           emit (ev_warning "unable to add tunnel; tunnel is already open or opening" url);;
           ret None  (* return *)
         else ret (Some tunnel));;
    match found with
    | None => ret tt
    | Some tunnel =>
        assign tunnel (set_t_state TUNNEL_STATE_OPENING);;
        thread_unlock;;
        emit (ev_log "added tunnel" url);;
        thread_create (tunnel_activate_thread tunnel);;
        tunnel_file_write
    end.

(** Delete a tunnel. *)
Definition tunnel_delete (url : cstring) : prog' unit :=
  thread_lock;;
  tunnel <- tunnel_set_delete active_set url;;
  match tunnel with
  | None =>
      tunnel <- tunnel_set_delete cache_set url;;
      match tunnel with
      | Some tunnel =>
          tunnel_free (Some tunnel);;
          emit (ev_log "deleted tunnel" url)
      | None =>
          emit (ev_warning "unable to delete tunnel; tunnel does not exist" url)
      end
  | Some tunnel =>
      t <- deref tunnel;;
      match t_state t with
      | TUNNEL_STATE_OPENING =>
          assign tunnel (set_t_state TUNNEL_STATE_CLOSING)
      | TUNNEL_STATE_CLOSING => ret tt
      | TUNNEL_STATE_OPEN =>
          cktp_close_tunnel (t_tunnel t);;
          assign tunnel (set_t_tunnel None);;
          assign tunnel (set_t_state TUNNEL_STATE_CLOSED)
      | _ => crash (Aborted "unexpected tunnel state")
      end;;
      emit (ev_log "deactivated tunnel" url)
  end;;
  thread_unlock;;
  tunnel_file_write.

End Operations.

(** The state of the process before [tunnel_init]: static storage is zero,
    nothing is allocated.  [f] are the files found on the disk. *)
Definition initial_state {D : Type} (f : files) : tunnels_state D :=
  {| tunnels_lock := false; tunnels_cache := TUNNEL_SET_INIT;
     tunnels_active := TUNNEL_SET_INIT; rng := 0; clock := 0;
     tunnel_create_id := 0; tunnel_history := ∅; heap := ∅; brk := 0;
     fs := f; trace := [] |}.


(** ** A sample environment and sample runs

    The theorems below hold for every environment.  To run the programs on
    concrete inputs we fix one: URLs are valid when they are not empty and
    hold no space, the driver reports the configured MTU on every handle
    but the handle 0, whose link cannot send (MTU 0). *)

Definition sample_parse_url (url : cstring) : bool :=
  negb (bool_decide (url = []))
  && forallb (fun c => negb (Ascii.eqb c " "%char)) url.

Definition sample_get_mtu (h : cktp_tunnel_t) (config_mtu : Z) : Z :=
  match h with
  | Some (S _) => config_mtu
  | _ => 0
  end.

#[global] Instance sample_extern : Extern := {|
  CKTP_MAX_URL_LENGTH := 1024;
  PROGRAM_NAME_LONG := cstr "ReQrypt";
  TUNNELS_FILENAME := cstr "tunnels.cache";
  WINDOWS := false;
  cktp_parse_url := sample_parse_url;
  cktp_tunnel_get_mtu := sample_get_mtu;
  cktp_tunnel_timeout := fun _ _ => false;
  random_draw := fun n => Z.of_nat n * 2654435761 + 12345;
  gettime_at := fun n => Z.of_nat n * 1000000
|}.

(** A disk without cache files, writable or not. *)
Definition no_files (writable : bool) : files :=
  {| file_primary := None; file_bak := None; file_tmp := None;
     tmp_writable := writable |}.

Section Sample.
Context {D : Type} {dbl : Double D}.
Local Open Scope prog_scope.

(** No other thread interferes. *)
Definition alone : tunnels_state D -> tunnels_state D := fun st => st.

(** The driver opens the handle [h] at every call. *)
Definition opens (h : nat) : nat -> attempt :=
  fun _ => {| att_open := Some h; att_during_open := alone;
              att_during_sleep := alone |}.

(** The driver never opens a tunnel. *)
Definition never_opens : nat -> attempt :=
  fun _ => {| att_open := None; att_during_open := alone;
              att_during_sleep := alone |}.

(** The module is initialised, the tunnel [url] is added and its activate
    thread runs to its end, the driver giving it the handle [h].  The
    record of the tunnel is the first one allocated: address 0. *)
Definition open_one (url : cstring) (h : nat) : prog D unit :=
  tunnel_init;;
  tunnel_add url;;
  tunnel_activate (opens h) alone 0%nat.

(** Two tunnels, added and opened one after the other: addresses 0, 1. *)
Definition open_two (url1 url2 : cstring) (h1 h2 : nat) : prog D unit :=
  open_one url1 h1;;
  tunnel_add url2;;
  tunnel_activate (opens h2) alone 1%nat.

(** The state a program leaves ([st] itself when it stops with a fault). *)
Definition state_after {A} (m : prog D A) (st : tunnels_state D)
  : tunnels_state D :=
  match m st with
  | Done _ st' => st'
  | Crash _ => st
  end.

(** The tunnel [url] was added and its activate thread has not run yet:
    the record, at address 0, is OPENING. *)
Definition state_opening (url : cstring) : tunnels_state D :=
  state_after (tunnel_init;; tunnel_add url) (initial_state (no_files true)).

(** The weights of the active tunnels, in the order of the set. *)
Definition active_weights (st : tunnels_state D) : list (option D) :=
  map (fun tunnel => t_weight <$> heap st !! tunnel)
      (tunnels (tunnels_active st)).

End Sample.

(** A cache file written by hand: one line [<url> 16] for each of the
    first [n] of the URLs cktp://a, cktp://b, ... *)
Definition sample_urls (n : nat) : list cstring :=
  map (fun c => cstr "cktp://" ++ [c]) (take n (cstr "abcdefghijklmnop")).

Definition sample_cache_file (n : nat) : cstring :=
  concat (map (fun url => url ++ cstr " 16" ++ nl) (sample_urls n)).

(** A cold start: the module is initialised and reads a cache file of [n]
    tunnels; no tunnel is open yet. *)
Definition cold_start {D : Type} {dbl : Double D} (n : nat) : tunnels_state D :=
  state_after (bind tunnel_init (fun _ => tunnel_file_read))
    (initial_state
       {| file_primary := Some (sample_cache_file n); file_bak := None;
          file_tmp := None; tmp_writable := true |}).
(** * Properties *)

(** ** Running programs *)

Ltac unfold_prog :=
  unfold tunnel_at, tunnel_set_insert, assign, thread_create,
    cktp_close_tunnel, get_set, put_set, store, deref, free, emit,
    thread_lock, thread_unlock, random_uint32, random_uint64, get_state,
    modify, crash, bind, ret in *.

Section Forwarding.
Context {D : Type} {dbl : Double D} {ext : Extern}.

Lemma tunnel_get_no_active (st : tunnels_state D) hash repeat :
  tunnels (tunnels_active st) = [] ->
  tunnel_get hash repeat st = Done None st.
Proof.
  intros Hempty. unfold tunnel_get. unfold_prog. rewrite Hempty. reflexivity.
Qed.

(** C8.  With an empty active set the selector returns NULL for every hash
    and repeat, and [tunnel_packets] returns false with the mutex released:
    the state it leaves is the state it found but for the warning added to
    the trace, so no record, neither set and no history slot is changed. *)
Theorem tunnel_packets_no_active (st : tunnels_state D)
    packet packets hash repeat config_mtu :
  tunnels (tunnels_active st) = [] ->
  tunnels_lock st = false ->
  tunnel_get hash repeat st = Done None st /\
  tunnel_packets packet packets hash repeat config_mtu st =
    Done false
      (with_trace
         (trace st ++
          [ev_warning "unable to tunnel packet (no suitable tunnel is open); the packet will be dropped" []])
         st) /\
  tunnels_lock
    (with_trace
       (trace st ++
        [ev_warning "unable to tunnel packet (no suitable tunnel is open); the packet will be dropped" []])
       st) = false.
Proof.
  intros Hempty Hlock. split; [by apply tunnel_get_no_active|].
  split; [|exact Hlock].
  unfold tunnel_packets, bind at 1, thread_lock. rewrite Hlock.
  unfold bind at 1. rewrite tunnel_get_no_active by exact Hempty.
  destruct st; simpl in *; subst. reflexivity.
Qed.

End Forwarding.

(** An IPv4 header of 20 bytes whose total length is 20. *)
Definition sample_packet : list Z :=
  [69; 0; 0; 20; 0; 0; 0; 0; 64; 17; 0; 0; 10; 0; 0; 1; 10; 0; 0; 2].

Lemma tunnel_packets_no_active_witness :
  let st : tunnels_state float := initial_state (no_files true) in
  tunnels (tunnels_active st) = [] /\
  tunnels_lock st = false /\
  tunnel_get 7 1 st = Done None st /\
  tunnel_packets sample_packet [sample_packet] 7 1 1500 st =
    Done false
      (with_trace
         [ev_warning "unable to tunnel packet (no suitable tunnel is open); the packet will be dropped" []]
         st).
Proof.
  intros st. split; [reflexivity|]. split; [reflexivity|].
  destruct (tunnel_packets_no_active st sample_packet [sample_packet] 7 1 1500)
    as (Hget & Hpackets & _); [reflexivity | reflexivity |].
  split; [exact Hget | exact Hpackets].
Defined.


(** ** The selector *)

Section SelectorLoops.
Context {D : Type} {dbl : Double D} {ext : Extern}.

(** [rs] are the records the pointers [ts] point to. *)
Definition records (st : tunnels_state D) (ts : list tunnel_t)
    (rs : list (tunnel_s D)) : Prop :=
  Forall2 (fun tunnel t => heap st !! tunnel = Some t) ts rs.

(** Every pointer of both sets is allocated. *)
Definition sets_allocated (st : tunnels_state D) : Prop :=
  Forall (fun tunnel => is_Some (heap st !! tunnel))
    (tunnels (tunnels_cache st)) /\
  Forall (fun tunnel => is_Some (heap st !! tunnel))
    (tunnels (tunnels_active st)).

Lemma records_exist (st : tunnels_state D) ts :
  Forall (fun tunnel => is_Some (heap st !! tunnel)) ts ->
  exists rs, records st ts rs.
Proof.
  induction 1 as [|p ts [t Ht] _ [rs IH]].
  - exists []. constructor.
  - exists (t :: rs). by constructor.
Qed.

Lemma records_length (st : tunnels_state D) ts rs :
  records st ts rs -> length rs = length ts.
Proof. intros H. symmetry. exact (Forall2_length _ _ _ H). Qed.

(** The walk of [pick_loop] over the weights alone. *)
Fixpoint walk (ws : list D) (idx : nat) (pick : D) : nat * D :=
  match ws with
  | [] => (idx, pick)
  | w :: rest =>
      if d_leb w pick then walk rest (S idx) (d_sub pick w)
      else (idx, pick)
  end.

Lemma total_weight_loop_done (st : tunnels_state D) ts rs acc :
  records st ts rs ->
  total_weight_loop ts acc st =
    Done (fold_left d_add (map t_weight rs) acc) st.
Proof.
  intros H. revert acc.
  induction H as [|p t ts rs Hp _ IH]; intros acc; cbn; [reflexivity|].
  unfold bind, deref. rewrite Hp. apply IH.
Qed.

Lemma pick_loop_done (st : tunnels_state D) ts rs idx pick :
  records st ts rs ->
  pick_loop ts idx pick st = Done (walk (map t_weight rs) idx pick) st.
Proof.
  intros H. revert idx pick.
  induction H as [|p t ts rs Hp _ IH]; intros idx pick; cbn; [reflexivity|].
  unfold bind, deref. rewrite Hp.
  destruct (d_leb (t_weight t) pick); [apply IH | reflexivity].
Qed.

End SelectorLoops.

(** *** The walk in exact arithmetic *)

Definition Qsum (ws : list Q) : Q := fold_right Qplus 0%Q ws.

Lemma fold_left_Qplus (ws : list Q) (acc : Q) :
  (fold_left Qplus ws acc == acc + Qsum ws)%Q.
Proof.
  revert acc. unfold Qsum.
  induction ws as [|w ws IH]; intros acc; cbn [fold_left fold_right].
  - ring.
  - rewrite IH. ring.
Qed.

Lemma Qsum_nonneg (ws : list Q) :
  Forall (fun w => (0 <= w)%Q) ws -> (0 <= Qsum ws)%Q.
Proof.
  unfold Qsum.
  induction 1 as [|w ws Hw _ IH]; cbn [fold_right]; [apply Qle_refl|].
  replace 0%Q with (0 + 0)%Q by reflexivity. by apply Qplus_le_compat.
Qed.

(** When [pick] is the sum of the weights, the walk passes every tunnel. *)
Lemma walk_overrun (ws : list Q) (idx : nat) (pick : Q) :
  Forall (fun w => (0 <= w)%Q) ws ->
  (pick == Qsum ws)%Q ->
  fst (walk ws idx pick) = (idx + length ws)%nat.
Proof.
  intros Hws. revert idx pick.
  induction Hws as [|w ws Hw Hws IH]; intros idx pick Hpick;
    cbn [walk d_leb d_sub Q_Double length fst].
  - lia.
  - change (Qsum (w :: ws)) with (w + Qsum ws)%Q in Hpick.
    assert (Hle : Qle_bool w pick = true).
    { apply Qle_bool_iff. rewrite Hpick.
      rewrite <- (Qplus_0_r w) at 1. apply Qplus_le_r. by apply Qsum_nonneg. }
    rewrite Hle, IH; [lia|]. rewrite Hpick. ring.
Qed.

(** When [pick] is below the sum of the weights and not negative, the walk
    stops at a tunnel of the set. *)
Lemma walk_in_bounds (ws : list Q) (idx : nat) (pick : Q) :
  (0 <= pick)%Q ->
  (pick < Qsum ws)%Q ->
  (idx <= fst (walk ws idx pick) < idx + length ws)%nat.
Proof.
  revert idx pick.
  induction ws as [|w ws IH]; intros idx pick H0 Hlt;
    cbn [walk d_leb d_sub Q_Double length fst].
  - exfalso. apply (Qlt_irrefl 0). by eapply Qle_lt_trans.
  - change (Qsum (w :: ws)) with (w + Qsum ws)%Q in Hlt.
    destruct (Qle_bool w pick) eqn:Hle; cbn [fst]; [|lia].
    apply Qle_bool_iff in Hle.
    destruct (IH (S idx) (pick - w)%Q) as [? ?]; [| |lia].
    + unfold Qminus. by apply (proj1 (Qle_minus_iff w pick)).
    + apply Qplus_lt_l with (z := w). ring_simplify. exact Hlt.
Qed.

Section SelectorSteps.
Context {D : Type} {dbl : Double D} {ext : Extern}.

(** What [punish_loop] does: nothing when no active tunnel has the id, and
    else it punishes the first tunnel that has it. *)
Lemma punish_loop_done (st : tunnels_state D) ts rs id pick :
  records st ts rs ->
  (exists pick',
     punish_loop ts id pick st = Done (None, pick') st /\
     Forall (fun t => t_id t <> id) rs) \/
  (exists tunnel t pick',
     punish_loop ts id pick st =
       Done (Some tunnel, pick')
         (with_heap
            (<[tunnel := set_t_weight (punish (t_weight t)) t]> (heap st)) st)
     /\ tunnel ∈ ts /\ heap st !! tunnel = Some t /\ t_id t = id).
Proof.
  intros H. revert pick.
  induction H as [|p t ts rs Hp _ IH]; intros pick; cbn [punish_loop].
  - left. exists pick. by split.
  - unfold_prog. rewrite Hp.
    destruct (Z.eqb_spec (t_id t) id) as [Hid|Hid].
    + right. exists p, t, (d_sub pick (t_weight t)). rewrite Hp.
      repeat split; try done. apply list_elem_of_here.
    + destruct (IH pick)
        as [(pick' & Hrun & Hall)|(q & u & pick' & Hrun & Hq & Hu & Hi)].
      * left. exists pick'. split; [done|by constructor].
      * right. exists q, u, pick'. repeat split; try done.
        by apply list_elem_of_further.
Qed.

(** The end of [tunnel_get]: the reward of the chosen tunnel and the
    history slot. *)
Lemma tunnel_get_reward_done (st : tunnels_state D) (tunnel : tunnel_t)
    (t : tunnel_s D) (hash : Z) :
  heap st !! tunnel = Some t ->
  bind (assign tunnel (fun t => set_t_weight (reward (t_weight t)) t))
    (fun _ => bind (deref tunnel) (fun t =>
       bind (modify (fun st =>
               with_history
                 (<[hist_idx hash :=
                      {| h_hash := hist_hash hash; h_id := t_id t |}]>
                    (tunnel_history st)) st))
         (fun _ => ret (Some tunnel)))) st =
  Done (Some tunnel)
    (with_history
       (<[hist_idx hash := {| h_hash := hist_hash hash; h_id := t_id t |}]>
          (tunnel_history st))
       (with_heap
          (<[tunnel := set_t_weight (reward (t_weight t)) t]> (heap st)) st)).
Proof.
  intros Ht. unfold_prog. rewrite Ht. cbn. rewrite lookup_insert_eq.
  reflexivity.
Qed.

(** When the walk stops inside the active set, [tunnel_get] returns a
    tunnel of the set; it changes weights and one history slot only. *)
Lemma tunnel_get_done (st : tunnels_state D) (hash repeat : Z)
    (rs : list (tunnel_s D)) :
  records st (tunnels (tunnels_active st)) rs ->
  (fst (walk (map t_weight rs) 0
          (d_mul (d_div (d_of_uint32 (weight_hash hash repeat))
                        (d_of_uint32 UINT32_MAX))
                 (fold_left d_add (map t_weight rs) d_0)))
   < length rs)%nat ->
  exists tunnel st',
    tunnel_get hash repeat st = Done (Some tunnel) st' /\
    tunnel ∈ tunnels (tunnels_active st) /\
    tunnels_active st' = tunnels_active st /\
    tunnels_cache st' = tunnels_cache st /\
    tunnels_lock st' = tunnels_lock st /\
    trace st' = trace st /\
    fs st' = fs st /\
    (forall p, is_Some (heap st' !! p) <-> is_Some (heap st !! p)).
Proof.
  intros Hrs Hidx.
  pose proof (records_length _ _ _ Hrs) as Hlen.
  assert (Halloc : forall p, p ∈ tunnels (tunnels_active st) ->
                             is_Some (heap st !! p)).
  { intros p Hp. apply list_elem_of_lookup in Hp as [i Hi].
    destruct (Forall2_lookup_l _ _ _ _ _ Hrs Hi) as (t & _ & Ht). by exists t. }
  unfold tunnel_get. unfold bind at 1, get_set at 1.
  destruct (Nat.eqb_spec (length (tunnels (tunnels_active st))) 0) as [H0|_].
  { lia. }
  unfold bind at 1. rewrite (total_weight_loop_done _ _ rs) by exact Hrs.
  unfold bind at 1. rewrite (pick_loop_done _ _ rs) by exact Hrs.
  destruct (walk _ _ _) as [idx pick]. cbn [fst] in Hidx.
  destruct (lookup_lt_is_Some_2 (tunnels (tunnels_active st)) idx)
    as [tunnel Htunnel]; [lia|].
  unfold bind at 1, tunnel_at at 1, bind at 1, get_set at 1.
  rewrite Htunnel. unfold ret at 1.
  assert (Hin : tunnel ∈ tunnels (tunnels_active st))
    by (apply list_elem_of_lookup; eauto).
  unfold bind at 1.
  destruct (negb (repeat =? 0)).
  2:{ unfold ret at 1. destruct (Halloc _ Hin) as [t Ht].
      rewrite (tunnel_get_reward_done _ _ t) by exact Ht.
      do 2 eexists. split; [reflexivity|]. cbn.
      repeat split; try done.
      - intros [u Hu]. destruct (decide (tunnel = p)) as [<-|Hne]; [eauto|].
        rewrite lookup_insert_ne in Hu by done. eauto.
      - intros [u Hu]. destruct (decide (tunnel = p)) as [<-|Hne].
        + rewrite lookup_insert_eq. eauto.
        + rewrite lookup_insert_ne by done. eauto. }
  unfold bind at 1, get_state at 1. unfold bind at 1.
  assert (Hpunish : exists bad pick' st1,
    (if h_hash (history_at (tunnel_history st) (hist_idx hash))
        =? hist_hash hash
     then punish_loop (tunnels (tunnels_active st))
            (h_id (history_at (tunnel_history st) (hist_idx hash))) pick
     else ret (None, pick)) st = Done (bad, pick') st1 /\
    tunnels_active st1 = tunnels_active st /\
    tunnels_cache st1 = tunnels_cache st /\
    tunnels_lock st1 = tunnels_lock st /\
    trace st1 = trace st /\
    fs st1 = fs st /\
    tunnel_history st1 = tunnel_history st /\
    (forall p, is_Some (heap st1 !! p) <-> is_Some (heap st !! p))).
  { destruct (_ =? hist_hash hash).
    - destruct (punish_loop_done st _ rs
                  (h_id (history_at (tunnel_history st) (hist_idx hash)))
                  pick Hrs)
        as [(pick' & Hrun & _)|(q & u & pick' & Hrun & Hq & Hu & _)].
      + exists None, pick', st. by rewrite Hrun.
      + do 3 eexists. split; [exact Hrun|]. cbn. repeat split; try done.
        * intros [v Hv]. destruct (decide (q = p)) as [<-|Hne]; [eauto|].
          rewrite lookup_insert_ne in Hv by done. eauto.
        * intros [v Hv]. destruct (decide (q = p)) as [<-|Hne].
          -- rewrite lookup_insert_eq. eauto.
          -- rewrite lookup_insert_ne by done. eauto.
    - exists None, pick, st. by unfold ret. }
  destruct Hpunish as (bad & pick' & st1 & Hrun & Hact & Hcache & Hlock
                         & Htrace & Hfs & Hhist & Hdom).
  rewrite Hrun.
  assert (Hchoice : exists chosen,
    (if bool_decide (Some tunnel = bad)
     then tunnel_at active_set
            ((idx + 1) mod length (tunnels (tunnels_active st)))
     else ret tunnel) st1 = Done chosen st1 /\
    chosen ∈ tunnels (tunnels_active st)).
  { destruct (bool_decide _).
    - destruct (lookup_lt_is_Some_2 (tunnels (tunnels_active st))
                  ((idx + 1) mod length (tunnels (tunnels_active st))))
        as [chosen Hchosen].
      { apply Nat.mod_upper_bound. lia. }
      exists chosen. unfold tunnel_at, bind, get_set, ret.
      rewrite Hact, Hchosen. split; [done|].
      apply list_elem_of_lookup; eauto.
    - exists tunnel. by unfold ret. }
  destruct Hchoice as (chosen & Hchoose & Hchosen).
  rewrite Hchoose.
  destruct (proj2 (Hdom chosen) (Halloc _ Hchosen)) as [t Ht].
  rewrite (tunnel_get_reward_done _ _ t) by exact Ht.
  do 2 eexists. split; [reflexivity|]. cbn.
  repeat split; try done.
  - intros [u Hu]. apply Hdom.
    destruct (decide (chosen = p)) as [<-|Hne]; [eauto|].
    rewrite lookup_insert_ne in Hu by done. eauto.
  - intros Hp. apply Hdom in Hp as [u Hu].
    destruct (decide (chosen = p)) as [<-|Hne].
    + rewrite lookup_insert_eq. eauto.
    + rewrite lookup_insert_ne by done. eauto.
Qed.

End SelectorSteps.

(** *** The selector in exact arithmetic *)

Section SelectorExact.
Context {ext : Extern}.
Implicit Type st : tunnels_state Q.

Lemma weight_hash_range (hash repeat : Z) :
  0 <= weight_hash hash repeat <= UINT32_MAX.
Proof.
  unfold weight_hash, uint32, UINT32_MAX.
  pose proof (Z.mod_pos_bound (hist_hash hash * (repeat + 1) mod 2 ^ 32)
                (2 ^ 32) eq_refl).
  pose proof (Z.mod_pos_bound
                (hist_hash hash * ((repeat + 1) mod 2 ^ 32)) (2 ^ 32) eq_refl).
  lia.
Qed.

(** [pick] as [tunnel_get] computes it from the weight hash and the total
    weight. *)
Definition pick_of (wh : Z) (total_weight : Q) : Q :=
  d_mul (d_div (d_of_uint32 wh) (d_of_uint32 UINT32_MAX)) total_weight.

Lemma pick_of_max (total_weight : Q) :
  (pick_of UINT32_MAX total_weight == total_weight)%Q.
Proof.
  unfold pick_of; cbn [d_mul d_div d_of_uint32 Q_Double].
  assert (H1 : (inject_Z UINT32_MAX / inject_Z UINT32_MAX == 1)%Q)
    by reflexivity.
  rewrite H1. ring.
Qed.

Lemma pick_of_below (wh : Z) (total_weight : Q) :
  0 <= wh < UINT32_MAX ->
  (0 < total_weight)%Q ->
  (0 <= pick_of wh total_weight)%Q /\
  (pick_of wh total_weight < total_weight)%Q.
Proof.
  intros Hwh Htotal.
  unfold pick_of; cbn [d_mul d_div d_of_uint32 Q_Double].
  assert (HM : (0 < inject_Z UINT32_MAX)%Q) by reflexivity.
  assert (H0 : (0 <= inject_Z wh / inject_Z UINT32_MAX)%Q).
  { apply Qle_shift_div_l; [exact HM|]. rewrite Qmult_0_l.
    change (inject_Z 0 <= inject_Z wh)%Q. rewrite <- Zle_Qle. lia. }
  assert (H1 : (inject_Z wh / inject_Z UINT32_MAX < 1)%Q).
  { apply Qlt_shift_div_r; [exact HM|]. rewrite Qmult_1_l.
    rewrite <- Zlt_Qlt. lia. }
  split.
  - apply Qmult_le_0_compat; [exact H0 | by apply Qlt_le_weak].
  - rewrite <- (Qmult_1_l total_weight) at 2.
    by apply Qmult_lt_compat_r.
Qed.

Lemma total_weight_exact (rs : list (tunnel_s Q)) :
  (fold_left d_add (map t_weight rs) d_0 == Qsum (map t_weight rs))%Q.
Proof.
  cbn [d_add d_0 Q_Double]. rewrite fold_left_Qplus. ring.
Qed.

(** The defect behind C1 and C10 in exact arithmetic.  Whatever the
    tunnels of a non-empty active set and their weights (none negative), a
    packet whose weight hash is UINT32_MAX makes the walk pass every
    tunnel: [pick] is the total weight, since the hash is divided by
    UINT32_MAX and not by 2^32, and the read of [tunnels[idx]] is one past
    the end.  (In binary64 the sums and differences are rounded, and with
    several tunnels the walk may stop before the end.) *)
Lemma tunnel_get_past_the_end st (hash repeat : Z) (rs : list (tunnel_s Q)) :
  records st (tunnels (tunnels_active st)) rs ->
  rs <> [] ->
  Forall (fun t => (0 <= t_weight t)%Q) rs ->
  weight_hash hash repeat = UINT32_MAX ->
  tunnel_get hash repeat st = Crash OutOfBounds.
Proof.
  intros Hrs Hne Hpos Hwh.
  pose proof (records_length _ _ _ Hrs) as Hlen.
  unfold tunnel_get. unfold bind at 1, get_set at 1.
  destruct (Nat.eqb_spec (length (tunnels (tunnels_active st))) 0) as [H0|_].
  { destruct rs; [done | cbn in Hlen; lia]. }
  unfold bind at 1. rewrite (total_weight_loop_done _ _ rs) by exact Hrs.
  unfold bind at 1. rewrite (pick_loop_done _ _ rs) by exact Hrs.
  rewrite Hwh. fold (pick_of UINT32_MAX (fold_left d_add (map t_weight rs) d_0)).
  pose proof (walk_overrun (map t_weight rs) 0
                (pick_of UINT32_MAX (fold_left d_add (map t_weight rs) d_0)))
    as Hwalk.
  destruct (walk _ _ _) as [idx pick].
  cbn [fst] in Hwalk. rewrite Hwalk.
  - rewrite length_map, Hlen. cbn [Nat.add].
    unfold bind at 1, tunnel_at, bind at 1, get_set.
    rewrite lookup_ge_None_2 by lia. reflexivity.
  - apply Forall_map. exact Hpos.
  - rewrite pick_of_max. apply total_weight_exact.
Qed.

Lemma Qsum_pos (ws : list Q) :
  ws <> [] -> Forall (fun w => (0 < w)%Q) ws -> (0 < Qsum ws)%Q.
Proof.
  intros Hne Hws. destruct Hws as [|w ws Hw Hws]; [done|].
  change (Qsum (w :: ws)) with (w + Qsum ws)%Q.
  rewrite <- (Qplus_0_r 0). apply Qplus_lt_le_compat; [exact Hw|].
  apply Qsum_nonneg. eapply Forall_impl; [exact Hws|].
  intros x Hx. by apply Qlt_le_weak.
Qed.

(** The other side of the defect: with positive weights and any weight
    hash below UINT32_MAX the walk stops inside the active set, and
    [tunnel_get] returns one of its tunnels. *)
Lemma tunnel_get_in_bounds st (hash repeat : Z) (rs : list (tunnel_s Q)) :
  records st (tunnels (tunnels_active st)) rs ->
  rs <> [] ->
  Forall (fun t => (0 < t_weight t)%Q) rs ->
  weight_hash hash repeat <> UINT32_MAX ->
  exists tunnel st',
    tunnel_get hash repeat st = Done (Some tunnel) st' /\
    tunnel ∈ tunnels (tunnels_active st) /\
    tunnels_active st' = tunnels_active st.
Proof.
  intros Hrs Hne Hpos Hwh.
  destruct (tunnel_get_done st hash repeat rs Hrs)
    as (tunnel & st' & Hrun & Hin & Hact & _); [|by eauto].
  fold (pick_of (weight_hash hash repeat)
          (fold_left d_add (map t_weight rs) d_0)).
  assert (Htotal : (0 < fold_left d_add (map t_weight rs) d_0)%Q).
  { rewrite total_weight_exact. apply Qsum_pos.
    - by destruct rs.
    - by apply Forall_map. }
  pose proof (weight_hash_range hash repeat) as Hrange.
  destruct (pick_of_below (weight_hash hash repeat) _
              ltac:(lia) Htotal) as [H0 Hlt].
  rewrite total_weight_exact in Hlt at 2.
  pose proof (walk_in_bounds _ 0 _ H0 Hlt) as Hwalk.
  rewrite length_map in Hwalk. lia.
Qed.


End SelectorExact.

(** *** The defect on a concrete run *)

(** C1.  The claim fails on the code (a defect of the code).  One tunnel is
    added and opened, so the active set holds one tunnel of weight 1.0.  For
    the hash 0xffffffff and repeat 0 the weight hash is UINT32_MAX, [pick]
    is the total weight 1.0, the walk passes the only tunnel and
    [tunnel_get] reads [tunnels[1]] of a set of length 1.  The run is the
    same in exact arithmetic and in binary64. *)
Theorem tunnel_get_reads_past_the_active_set :
  weight_hash 4294967295 0 = UINT32_MAX /\
  (exists st : tunnels_state float,
     open_one (cstr "cktp://a") 1 (initial_state (no_files true)) = Done tt st /\
     tunnels (tunnels_active st) = [0%nat] /\
     active_weights st = [Some 1%float] /\
     pick_loop (tunnels (tunnels_active st)) 0 1%float st
       = Done (1%nat, 0%float) st /\
     tunnel_get 4294967295 0 st = Crash OutOfBounds) /\
  (exists st : tunnels_state Q,
     open_one (cstr "cktp://a") 1 (initial_state (no_files true)) = Done tt st /\
     tunnels (tunnels_active st) = [0%nat] /\
     active_weights st = [Some 1%Q] /\
     tunnel_get 4294967295 0 st = Crash OutOfBounds).
Proof.
  split; [reflexivity|]. split.
  - eexists. split; [vm_compute; reflexivity|].
    repeat split; vm_compute; reflexivity.
  - eexists. split; [vm_compute; reflexivity|].
    repeat split; vm_compute; reflexivity.
Qed.

(** C10.  The claim fails on the code, by the defect of C1.  The active set
    holds one tunnel.  A first packet with hash 0x55555555 is sent through
    it, which fills the history slot; the packet is then repeated twice.
    With repeat 2 the weight hash is 3 * 0x55555555 = UINT32_MAX: on the
    punishment path too the walk passes the sole tunnel, and [tunnel_get]
    reads [tunnels[1]] instead of returning the tunnel. *)
Theorem tunnel_get_sole_tunnel_not_returned :
  weight_hash 1431655765 2 = UINT32_MAX /\
  (exists st0 st1 : tunnels_state float,
     open_one (cstr "cktp://a") 1 (initial_state (no_files true)) = Done tt st0 /\
     tunnels (tunnels_active st0) = [0%nat] /\
     tunnel_get 1431655765 0 st0 = Done (Some 0%nat) st1 /\
     tunnels (tunnels_active st1) = [0%nat] /\
     history_at (tunnel_history st1) (hist_idx 1431655765)
       = {| h_hash := hist_hash 1431655765; h_id := 0 |} /\
     tunnel_get 1431655765 2 st1 = Crash OutOfBounds) /\
  (exists st0 st1 : tunnels_state Q,
     open_one (cstr "cktp://a") 1 (initial_state (no_files true)) = Done tt st0 /\
     tunnels (tunnels_active st0) = [0%nat] /\
     tunnel_get 1431655765 0 st0 = Done (Some 0%nat) st1 /\
     tunnels (tunnels_active st1) = [0%nat] /\
     tunnel_get 1431655765 2 st1 = Crash OutOfBounds).
Proof.
  split; [reflexivity|]. split.
  - do 2 eexists. split; [vm_compute; reflexivity|].
    split; [reflexivity|]. split; [vm_compute; reflexivity|].
    repeat split; vm_compute; reflexivity.
  - do 2 eexists. split; [vm_compute; reflexivity|].
    split; [reflexivity|]. split; [vm_compute; reflexivity|].
    repeat split; vm_compute; reflexivity.
Qed.

(** *** The selector on sample states, in exact arithmetic *)

(** One tunnel added and opened. *)
Definition one_open : tunnels_state Q :=
  state_after (open_one (cstr "cktp://a") 1) (initial_state (no_files true)).

(** Two tunnels added and opened. *)
Definition two_open : tunnels_state Q :=
  state_after (open_two (cstr "cktp://a") (cstr "cktp://b") 1 2)
    (initial_state (no_files true)).


Definition active_records (st : tunnels_state Q) : list (tunnel_s Q) :=
  omap (fun tunnel => heap st !! tunnel) (tunnels (tunnels_active st)).

Lemma tunnel_get_in_bounds_witness :
  exists tunnel st',
    tunnel_get 2000000000 0 two_open = Done (Some tunnel) st' /\
    tunnel ∈ tunnels (tunnels_active two_open) /\
    tunnels_active st' = tunnels_active two_open.
Proof.
  apply (tunnel_get_in_bounds two_open 2000000000 0 (active_records two_open)).
  - vm_compute. repeat constructor.
  - vm_compute. discriminate.
  - vm_compute. repeat constructor.
  - vm_compute. discriminate.
Defined.


(** ** The mutex *)

Section Mutex.
Context {D : Type} {dbl : Double D} {ext : Extern}.


Lemma tmp_writable_set_file f c fl :
  tmp_writable (set_file f c fl) = tmp_writable fl.
Proof. by destruct f. Qed.

(** [tunnel_file_write] returns with the mutex held when the temporary
    file cannot be opened for writing. *)
Lemma tunnel_file_write_not_writable (st : tunnels_state D) :
  tunnels_lock st = false ->
  tmp_writable (fs st) = false ->
  exists st',
    tunnel_file_write st = Done tt st' /\ tunnels_lock st' = true.
Proof.
  intros Hlock Hw.
  unfold tunnel_file_write. unfold_prog. unfold remove_file, rename.
  unfold_prog. rewrite Hlock.
  destruct WINDOWS; cbn;
    destruct (file_primary (fs st)); cbn; rewrite Hw; cbn; eauto.
Qed.

End Mutex.

(** C2.  The claim fails on the code (a defect of the code), in both
    functions it names.  First run: a tunnel is opened whose driver reports
    the MTU 0; [tunnel_packets] returns false and the mutex is still held,
    so the next [tunnel_ready] blocks for ever.  Second run: the temporary
    cache file cannot be opened; [tunnel_file_write] returns and the mutex
    is still held. *)
Theorem tunnels_lock_left_held :
  (exists st st' : tunnels_state float,
     open_one (cstr "cktp://a") 0 (initial_state (no_files true)) = Done tt st /\
     tunnels_lock st = false /\
     tunnel_packets sample_packet [sample_packet] 0 0 1500 st = Done false st' /\
     tunnels_lock st' = true /\
     tunnel_ready st' = Crash Deadlock) /\
  (exists st st' : tunnels_state float,
     tunnel_init (initial_state (no_files false)) = Done tt st /\
     tunnels_lock st = false /\
     tunnel_file_write st = Done tt st' /\
     tunnels_lock st' = true /\
     tunnel_ready st' = Crash Deadlock).
Proof.
  split.
  - do 2 eexists. split; [vm_compute; reflexivity|].
    split; [reflexivity|]. split; [vm_compute; reflexivity|].
    split; reflexivity.
  - do 2 eexists. split; [vm_compute; reflexivity|].
    split; [reflexivity|]. split; [vm_compute; reflexivity|].
    split; reflexivity.
Qed.




Lemma tunnel_file_write_not_writable_witness :
  exists st' : tunnels_state Q,
    tunnel_file_write (state_after tunnel_init (initial_state (no_files false)))
      = Done tt st' /\
    tunnels_lock st' = true.
Proof.
  apply (tunnel_file_write_not_writable
           (state_after tunnel_init (initial_state (no_files false))));
    reflexivity.
Defined.

(** ** Adding a tunnel *)

Section Adding.
Context {D : Type} {dbl : Double D} {ext : Extern}.

(** The tunnel is allocated and has the URL [url]. *)
Definition url_is (st : tunnels_state D) (url : cstring) (tunnel : tunnel_t)
  : Prop :=
  t_url <$> heap st !! tunnel = Some url.

#[global] Instance url_is_dec st url tunnel : Decision (url_is st url tunnel).
Proof. unfold url_is. apply _. Defined.

(** The loop over a set finds the first tunnel that has the URL. *)
Lemma find_url_done (st : tunnels_state D) ts i0 url :
  Forall (fun tunnel => is_Some (heap st !! tunnel)) ts ->
  find_url ts i0 url st =
    Done ((fun r => (i0 + r.1)%nat) <$> list_find (url_is st url) ts) st.
Proof.
  intros H. revert i0.
  induction H as [|p ts [t Ht] _ IH]; intros i0; cbn [find_url list_find].
  - reflexivity.
  - unfold bind, deref. rewrite Ht. unfold streq.
    destruct (decide (url_is st url p)) as [Hu|Hu]; unfold url_is in Hu;
      rewrite Ht in Hu; cbn in Hu.
    + rewrite bool_decide_true by congruence. unfold ret. cbn.
      by rewrite Nat.add_0_r.
    + rewrite bool_decide_false by congruence. rewrite IH.
      destruct (list_find (url_is st url) ts) as [[i q]|]; cbn; [|done].
      do 2 f_equal. lia.
Qed.

(** What [tunnel_add] leaves to [tunnel_file_write]: the log line and the
    activate thread of [tunnel]. *)
Definition added (url : cstring) (tunnel : tunnel_t) (st : tunnels_state D)
  : tunnels_state D :=
  with_trace
    (trace st ++ [ev_log "added tunnel" url;
                  ev_thread_create (tunnel_activate_thread tunnel)]) st.

(** [add (url)] in the words of the spec: validate the URL; look it up in
    the cache; if absent, create a record with INIT_AGE and insert it; if
    present and OPEN or OPENING, reject with a warning; otherwise reuse the
    record.  Set the state OPENING, spawn the activate task, invoke
    [file_write]. *)
Definition add_spec (url : cstring) (st : tunnels_state D)
  : outcome (tunnels_state D) unit :=
  if negb (cktp_parse_url url) then Done tt st
  else
    match list_find (url_is st url) (tunnels (tunnels_cache st)) with
    | None =>
        let tunnel := brk st in
        let t := {| t_tunnel := None; t_state := TUNNEL_STATE_OPENING;
                    t_reconnect := false; t_id := tunnel_create_id st;
                    t_age := TUNNEL_INIT_AGE; t_weight := d_1;
                    t_url := strncpy CKTP_MAX_URL_LENGTH url |} in
        tunnel_file_write
          (added url tunnel
             (with_cache (set_append (tunnels_cache st) tunnel)
                (with_heap (<[tunnel := t]> (heap st))
                   (with_create_id (uint16 (tunnel_create_id st + 1))
                      (with_brk (S (brk st)) st)))))
    | Some (_, tunnel) =>
        match heap st !! tunnel with
        | Some t =>
            if bool_decide (t_state t = TUNNEL_STATE_OPEN
                            \/ t_state t = TUNNEL_STATE_OPENING)
            then
              Done tt
                (with_trace
                   (trace st ++
                    [ev_warning "unable to add tunnel; tunnel is already open or opening" url])
                   st)
            else
              tunnel_file_write
                (added url tunnel
                   (with_heap
                      (<[tunnel := set_t_state TUNNEL_STATE_OPENING t]>
                         (heap st)) st))
        | None => Crash DanglingPointer
        end
    end.

#[local] Arguments tunnel_file_write : simpl never.

(** C9.  [tunnel_add] does what the spec says of [add]: with an invalid
    URL it returns and the state is as it was (whoever holds the mutex); and
    when the mutex is free and the tunnels of the cache are allocated, it is
    [add_spec]: no change but a warning for a tunnel that is OPEN or
    OPENING, and else a record of age TUNNEL_INIT_AGE appended to the cache
    (URL absent) or the record found (any other state), set to OPENING,
    an activate thread, and [tunnel_file_write]. *)
Theorem tunnel_add_spec (st : tunnels_state D) (url : cstring) :
  (cktp_parse_url url = false -> tunnel_add url st = Done tt st) /\
  (tunnels_lock st = false ->
   Forall (fun tunnel => is_Some (heap st !! tunnel))
     (tunnels (tunnels_cache st)) ->
   tunnel_add url st = add_spec url st).
Proof.
  split.
  { intros Hurl. unfold tunnel_add. by rewrite Hurl. }
  intros Hlock Halloc. unfold tunnel_add, add_spec.
  destruct (cktp_parse_url url); cbn [negb]; [|reflexivity].
  unfold bind at 1, thread_lock. rewrite Hlock.
  unfold bind at 1, tunnel_set_lookup, bind at 1, get_set at 1.
  unfold bind at 1.
  rewrite find_url_done by exact Halloc.
  cbn [tunnels_cache with_lock].
  assert (Hfind := list_find_Some (url_is st url) (tunnels (tunnels_cache st))).
  change (list_find (url_is (with_lock true st) url))
    with (list_find (url_is st url)).
  destruct (list_find (url_is st url) (tunnels (tunnels_cache st)))
    as [[i tunnel]|] eqn:Hlist; cbn [fmap option_fmap option_map fst].
  - destruct (proj1 (Hfind i tunnel) eq_refl) as (Hi & Hu & _).
    unfold url_is in Hu.
    destruct (heap st !! tunnel) as [t|] eqn:Ht; [|done].
    unfold ret at 1.
    destruct (Z.ltb_spec (Z.of_nat (0 + i)) 0) as [?|_]; [lia|].
    rewrite Nat2Z.id. cbn [Nat.add].
    unfold bind at 1, bind at 1, tunnel_at, bind at 1, get_set at 1.
    cbn [tunnels_cache with_lock]. rewrite Hi. unfold ret at 1.
    unfold bind at 1, deref at 1. cbn [heap with_lock]. rewrite Ht.
    destruct (bool_decide (t_state t = TUNNEL_STATE_OPEN \/ _)) eqn:Hopen.
    + apply bool_decide_eq_true in Hopen.
      assert (Hor : bool_decide (t_state t = TUNNEL_STATE_OPEN)
                    || bool_decide (t_state t = TUNNEL_STATE_OPENING) = true).
      { destruct Hopen as [->| ->]; reflexivity. }
      rewrite Hor. unfold_prog. cbn.
      destruct st; cbn in *; subst; reflexivity.
    + apply bool_decide_eq_false in Hopen.
      assert (Hor : bool_decide (t_state t = TUNNEL_STATE_OPEN)
                    || bool_decide (t_state t = TUNNEL_STATE_OPENING) = false).
      { apply orb_false_intro; apply bool_decide_eq_false; tauto. }
      rewrite Hor. unfold_prog. cbn [heap with_lock]. rewrite Ht.
      f_equal. destruct st; cbn in *; subst; unfold added; cbn.
      by rewrite <- app_assoc.
  - unfold ret at 1. cbn [Z.ltb Z.compare].
    unfold tunnel_create, tunnel_set_insert. unfold_prog.
    clear Hfind Hlist Halloc. destruct st; cbn in *; subst.
    rewrite lookup_insert_eq. cbn.
    f_equal. unfold added; cbn.
    by rewrite insert_insert_eq, <- app_assoc.
Qed.

End Adding.

Lemma tunnel_add_spec_witness :
  let st : tunnels_state Q :=
    state_after tunnel_init (initial_state (no_files true)) in
  let st1 : tunnels_state Q := state_opening (cstr "cktp://a") in
  tunnel_add (cstr "not a url") st = Done tt st /\
  tunnel_add (cstr "cktp://a") st = Done tt st1 /\
  t_state <$> heap st1 !! 0%nat = Some TUNNEL_STATE_OPENING /\
  t_age <$> heap st1 !! 0%nat = Some TUNNEL_INIT_AGE /\
  tunnels (tunnels_cache st1) = [0%nat] /\
  tunnel_add (cstr "cktp://a") st1 =
    Done tt
      (with_trace
         (trace st1 ++
          [ev_warning "unable to add tunnel; tunnel is already open or opening"
             (cstr "cktp://a")])
         st1).
Proof.
  intros st st1.
  split; [apply (tunnel_add_spec st (cstr "not a url")); reflexivity|].
  split.
  { rewrite (proj2 (tunnel_add_spec st (cstr "cktp://a")));
      [vm_compute; reflexivity | reflexivity | constructor]. }
  do 3 (split; [vm_compute; reflexivity|]).
  rewrite (proj2 (tunnel_add_spec st1 (cstr "cktp://a")));
    [vm_compute; reflexivity | reflexivity |].
  repeat constructor. vm_compute. eauto.
Defined.

(** ** The activator thread *)

Section Manager.
Context {D : Type} {dbl : Double D} {ext : Extern}.

(** The tunnel is allocated and CLOSED. *)
Definition is_closed (st : tunnels_state D) (tunnel : tunnel_t) : Prop :=
  t_state <$> heap st !! tunnel = Some TUNNEL_STATE_CLOSED.

#[global] Instance is_closed_dec st tunnel : Decision (is_closed st tunnel).
Proof. unfold is_closed. apply _. Defined.

(** The tunnels a round sets to OPENING when it may open [max] of them:
    the first [max] CLOSED tunnels of the cache, in the order of the
    cache. *)
Definition to_open (st : tunnels_state D) (max : Z) : list tunnel_t :=
  take (Z.to_nat max) (filter (is_closed st) (tunnels (tunnels_cache st))).

(** The state once the tunnels [ts] are OPENING and have their activate
    threads. *)
Definition opening (ts : list tunnel_t) (st : tunnels_state D)
  : tunnels_state D :=
  with_trace
    (trace st ++
     map (fun tunnel => ev_thread_create (tunnel_activate_thread tunnel)) ts)
    (with_heap
       (fold_left
          (fun h tunnel => alter (set_t_state TUNNEL_STATE_OPENING) tunnel h)
          ts (heap st))
       st).

Lemma opening_nil (st : tunnels_state D) : opening [] st = st.
Proof. destruct st. unfold opening; cbn. by rewrite app_nil_r. Qed.

Lemma opening_cons tunnel ts (st : tunnels_state D) :
  opening (tunnel :: ts) st =
  opening ts
    (with_trace
       (trace st ++ [ev_thread_create (tunnel_activate_thread tunnel)])
       (with_heap
          (alter (set_t_state TUNNEL_STATE_OPENING) tunnel (heap st)) st)).
Proof. unfold opening; cbn. by rewrite <- app_assoc. Qed.

(** The heap after [opening]: the tunnels of [ts] are OPENING, the other
    records are as they were. *)
Lemma opening_heap ts (st : tunnels_state D) p :
  heap (opening ts st) !! p =
    if decide (p ∈ ts)
    then set_t_state TUNNEL_STATE_OPENING <$> heap st !! p
    else heap st !! p.
Proof.
  unfold opening; cbn [heap with_trace with_heap].
  generalize (heap st) as h.
  induction ts as [|q ts IH]; intros h; cbn [fold_left].
  - by rewrite decide_False by apply not_elem_of_nil.
  - rewrite IH.
    destruct (decide (p = q)) as [->|Hne].
    + rewrite (decide_True (P := q ∈ q :: ts)) by apply list_elem_of_here.
      rewrite lookup_alter_eq.
      destruct (decide (q ∈ ts)); [|done].
      destruct (h !! q); reflexivity.
    + rewrite lookup_alter_ne by done.
      destruct (decide (p ∈ ts)) as [Hin|Hin].
      * by rewrite decide_True by (by apply list_elem_of_further).
      * rewrite decide_False; [done|].
        intros [?|?]%elem_of_cons; done.
Qed.

Lemma filter_ext_elem {A} (P Q : A -> Prop)
    `{!forall x, Decision (P x), !forall x, Decision (Q x)} (l : list A) :
  (forall x, x ∈ l -> P x <-> Q x) -> filter P l = filter Q l.
Proof.
  induction l as [|a l IH]; intros Hext; [done|].
  rewrite !filter_cons.
  rewrite IH by (intros x Hx; apply Hext; by apply list_elem_of_further).
  pose proof (Hext a (list_elem_of_here _ _)) as Ha.
  destruct (decide (P a)), (decide (Q a)); tauto || done.
Qed.

Lemma insert_as_alter (h : gmap nat (tunnel_s D)) p t f :
  h !! p = Some t -> <[p := f t]> h = alter f p h.
Proof.
  intros Hp. apply map_eq; intros q.
  destruct (decide (p = q)) as [<-|Hne].
  - by rewrite lookup_insert_eq, lookup_alter_eq, Hp.
  - by rewrite lookup_insert_ne, lookup_alter_ne.
Qed.

(** The scan of the cache from a slot on, [j] tunnels being OPENING
    already: it sets the first [max - j] CLOSED tunnels to OPENING. *)
Lemma activate_manager_scan_done ts (st : tunnels_state D) (j max : Z) :
  Forall (fun tunnel => is_Some (heap st !! tunnel)) ts ->
  NoDup ts ->
  let opened := take (Z.to_nat (max - j)) (filter (is_closed st) ts) in
  activate_manager_scan ts j max st =
    Done (j + Z.of_nat (length opened)) (opening opened st).
Proof.
  intros Halloc Hnodup. revert st j Halloc.
  induction Hnodup as [|p ts Hp Hnodup IH]; intros st j Halloc opened;
    subst opened; cbn [activate_manager_scan].
  - rewrite filter_nil, take_nil, opening_nil. cbn. unfold ret.
    by rewrite Z.add_0_r.
  - apply Forall_cons in Halloc as [[t Ht] Halloc].
    destruct (Z.ltb_spec j max) as [Hlt|Hge].
    2:{ replace (Z.to_nat (max - j)) with 0%nat by lia.
        rewrite take_0, opening_nil. cbn. unfold ret. by rewrite Z.add_0_r. }
    unfold bind at 1, deref at 1. rewrite Ht.
    rewrite filter_cons.
    destruct (decide (is_closed st p)) as [Hc|Hc]; unfold is_closed in Hc;
      rewrite Ht in Hc; cbn in Hc.
    + rewrite bool_decide_true by congruence.
      replace (Z.to_nat (max - j)) with (S (Z.to_nat (max - (j + 1)))) by lia.
      cbn [take]. rewrite opening_cons.
      unfold_prog. rewrite Ht.
      rewrite (insert_as_alter _ _ _ (set_t_state TUNNEL_STATE_OPENING) Ht).
      set (st1 := with_trace _ _).
      assert (Hheap : forall q, q <> p -> heap st1 !! q = heap st !! q).
      { intros q Hq. subst st1. cbn. by rewrite lookup_alter_ne. }
      assert (Hfilter : filter (is_closed st1) ts = filter (is_closed st) ts).
      { apply filter_ext_elem. intros q Hq. unfold is_closed.
        rewrite Hheap; [done|]. intros ->. done. }
      rewrite IH.
      * rewrite Hfilter. cbn [length]. f_equal. lia.
      * eapply Forall_impl; [exact Halloc|]. intros q [u Hu]. subst st1; cbn.
        apply lookup_alter_is_Some. eauto.
    + rewrite bool_decide_false by congruence.
      rewrite IH by exact Halloc. reflexivity.
Qed.

Lemma to_open_closed (st : tunnels_state D) max p :
  p ∈ to_open st max -> is_closed st p /\ p ∈ tunnels (tunnels_cache st).
Proof.
  unfold to_open. intros Hp.
  apply (list_elem_of_filter (is_closed st)).
  apply list_elem_of_lookup in Hp as [i Hi].
  apply lookup_take_Some in Hi as [Hi _].
  apply list_elem_of_lookup. eauto.
Qed.

(** C5, as the code has it.  A round of the activator thread that finds at
    most MAX_INIT_OPEN + 1 active tunnels may open
    [max = MAX_INIT_OPEN - len (active) + 1] tunnels: it sets the first
    [max] CLOSED tunnels of the cache, in the order of the cache (all of
    them when they are fewer), to OPENING, and starts one activate thread
    for each.  The thread returns right after a round that opened exactly
    [max] tunnels; otherwise it sleeps, and then returns when the active
    set holds MAX_INIT_OPEN tunnels or more, and starts the next round
    when it holds fewer. *)
Theorem activate_manager_round (st : tunnels_state D) (fuel : nat)
    (others : nat -> tunnels_state D -> tunnels_state D) (k : nat) :
  tunnels_lock st = false ->
  Forall (fun tunnel => is_Some (heap st !! tunnel))
    (tunnels (tunnels_cache st)) ->
  NoDup (tunnels (tunnels_cache st)) ->
  Z.of_nat (length (tunnels (tunnels_active st))) <= MAX_INIT_OPEN + 1 ->
  let max :=
    MAX_INIT_OPEN - Z.of_nat (length (tunnels (tunnels_active st))) + 1 in
  let opened := to_open st max in
  let j := Z.of_nat (length opened) in
  let stagger := uint64 (random_draw (rng st)) in
  let st' := with_rng (S (rng st)) (opening opened st) in
  activate_manager_attempt st = Done (j, max, stagger) st' /\
  j <= max /\
  j = Z.min max
        (Z.of_nat (length (filter (is_closed st) (tunnels (tunnels_cache st)))))
  /\
  tunnels_lock st' = false /\
  (forall p,
     heap st' !! p =
       if decide (p ∈ opened)
       then set_t_state TUNNEL_STATE_OPENING <$> heap st !! p
       else heap st !! p) /\
  trace st' =
    trace st ++
    map (fun tunnel => ev_thread_create (tunnel_activate_thread tunnel))
        opened /\
  tunnel_activate_manager (S fuel) others k st =
    if j =? max then Done true st'
    else
      let st'' :=
        others k
          (with_trace
             (trace st' ++
              [ev_sleeptime
                 (150 * SECONDS + (stagger mod 10000) * MILLISECONDS)])
             st') in
      if Z.of_nat (length (tunnels (tunnels_active st''))) <? MAX_INIT_OPEN
      then tunnel_activate_manager fuel others (S k) st''
      else Done true st''.
Proof.
  intros Hlock Halloc Hnodup Hlen max opened j stagger st'.
  assert (Hmax : uint64 max = max).
  { unfold uint64. apply Z.mod_small. subst max. unfold MAX_INIT_OPEN in *.
    lia. }
  assert (Hattempt : activate_manager_attempt st = Done (j, max, stagger) st').
  { unfold activate_manager_attempt.
    unfold bind at 1, thread_lock. rewrite Hlock.
    unfold bind at 1, get_set at 1. unfold bind at 1, get_set at 1.
    cbn [tunnels_active tunnels_cache with_lock]. fold max. rewrite Hmax.
    unfold bind at 1.
    rewrite activate_manager_scan_done by (cbn; done).
    rewrite Z.sub_0_r, Z.add_0_l.
    change (is_closed (with_lock true st)) with (is_closed st).
    fold (to_open st max). fold opened. fold j.
    unfold_prog. subst st' stagger. destruct st; cbn in *; subst.
    reflexivity. }
  split; [exact Hattempt|].
  assert (Hj : j = Z.min max (Z.of_nat (length (filter (is_closed st)
                                   (tunnels (tunnels_cache st)))))).
  { subst j opened. unfold to_open. rewrite length_take. lia. }
  split; [lia|]. split; [exact Hj|].
  split; [subst st'; cbn; exact Hlock|].
  split; [intros p; subst st'; cbn [heap with_rng]; apply opening_heap|].
  split; [reflexivity|].
  cbn [tunnel_activate_manager]. unfold bind at 1. rewrite Hattempt.
  destruct (j =? max); [reflexivity|].
  unfold_prog. cbn zeta. by destruct (_ <? MAX_INIT_OPEN).
Qed.

End Manager.

(** The exit rule of the activator thread in the words of the claim C5:
    the round found no candidate to open and the active set holds
    MAX_INIT_OPEN tunnels or more. *)
Definition claimed_exit (j : Z) (active_length : Z) : bool :=
  (j =? 0) && (MAX_INIT_OPEN <=? active_length).

(** C5 as stated fails on the code.  On a cold start with nine tunnels in
    the cache the first round opens [max = 9] tunnels and the thread
    returns at once, through [if (j == max) break]: the round did find
    candidates, and the active set is empty. *)
Lemma activate_manager_returns_with_candidates :
  let st : tunnels_state Q := cold_start 9 in
  length (tunnels (tunnels_cache st)) = 9%nat /\
  tunnels (tunnels_active st) = [] /\
  exists stagger st',
    activate_manager_attempt st = Done (9, 9, stagger) st' /\
    tunnel_activate_manager 1 (fun _ => alone) 0 st = Done true st' /\
    tunnels (tunnels_active st') = [] /\
    claimed_exit 9 (Z.of_nat (length (tunnels (tunnels_active st')))) = false.
Proof.
  intros st. split; [vm_compute; reflexivity|]. split; [reflexivity|].
  do 2 eexists. split; [vm_compute; reflexivity|].
  split; [vm_compute; reflexivity|]. split; reflexivity.
Qed.

Lemma activate_manager_round_witness :
  let st : tunnels_state Q := cold_start 3 in
  tunnels (tunnels_cache st) = [0; 1; 2]%nat /\
  tunnels (tunnels_active st) = [] /\
  exists stagger st',
    activate_manager_attempt st = Done (3, 9, stagger) st' /\
    (forall p, p ∈ [0; 1; 2]%nat ->
       t_state <$> heap st !! p = Some TUNNEL_STATE_CLOSED /\
       t_state <$> heap st' !! p = Some TUNNEL_STATE_OPENING) /\
    trace st' = trace st ++ [ev_thread_create (tunnel_activate_thread 0);
                             ev_thread_create (tunnel_activate_thread 1);
                             ev_thread_create (tunnel_activate_thread 2)].
Proof.
  intros st.
  assert (Hcache : tunnels (tunnels_cache st) = [0; 1; 2]%nat)
    by (vm_compute; reflexivity).
  split; [exact Hcache|]. split; [reflexivity|].
  destruct (activate_manager_round st 0 (fun _ => alone) 0)
    as (Hattempt & _ & _ & _ & Hheap & Htrace & _).
  - reflexivity.
  - rewrite Hcache. repeat (constructor; [vm_compute; eauto|]). constructor.
  - rewrite Hcache. apply (bool_decide_unpack (NoDup [0; 1; 2]%nat)).
    vm_compute. exact I.
  - vm_compute. discriminate.
  - assert (Hopen : to_open st (MAX_INIT_OPEN - Z.of_nat
                      (length (tunnels (tunnels_active st))) + 1)
                    = [0; 1; 2]%nat) by (vm_compute; reflexivity).
    rewrite Hopen in *.
    do 2 eexists. split; [exact Hattempt|]. split; [|exact Htrace].
    intros p Hp. rewrite Hheap, decide_True by exact Hp.
    assert (Hclosed : t_state <$> heap st !! p = Some TUNNEL_STATE_CLOSED).
    { apply elem_of_cons in Hp as [->|Hp]; [vm_compute; reflexivity|].
      apply elem_of_cons in Hp as [->|Hp]; [vm_compute; reflexivity|].
      apply list_elem_of_singleton in Hp as ->. vm_compute; reflexivity. }
    split; [exact Hclosed|].
    destruct (heap st !! p); [cbn in *; congruence | discriminate].
Defined.

(** ** Attempts to open a tunnel *)

(** What [tunnel_try_activate] does to the outside, log lines apart: it
    calls [cktp_open_tunnel] and it sleeps. *)
Inductive step := try_open | wait (us : Z).

#[global] Instance step_eq_dec : EqDecision step.
Proof. solve_decision. Defined.

Definition step_of (e : event) : list step :=
  match e with
  | ev_cktp_open_tunnel _ => [try_open]
  | ev_sleeptime us => [wait us]
  | _ => []
  end.

Definition steps_of (evs : list event) : list step :=
  concat (map step_of evs).

Definition opens_of (steps : list step) : nat :=
  length (filter (fun s => s = try_open) steps).

(** The steps of [retries] failed attempts in a row, the first delay
    being [t]: an attempt, and before each further attempt a delay six
    times the one before. *)
Fixpoint backoff (retries : nat) (t : Z) : list step :=
  match retries with
  | O => []
  | S r =>
      try_open ::
      match r with
      | O => []
      | S _ => wait t :: backoff r (uint64 (t * 6))
      end
  end.

Section TryActivate.
Context {D : Type} {dbl : Double D} {ext : Extern}.

(** What the other threads may do while this one waits: they leave the
    record of the tunnel allocated (a tunnel that is OPENING is freed by
    its own activate thread only), and their events are not put in the
    trace. *)
Definition leaves (tunnel : tunnel_t)
    (f : tunnels_state D -> tunnels_state D) : Prop :=
  forall st,
    trace (f st) = trace st /\
    (is_Some (heap st !! tunnel) -> is_Some (heap (f st) !! tunnel)).

Definition state_of (st : tunnels_state D) (tunnel : tunnel_t)
  : option state_t :=
  t_state <$> heap st !! tunnel.

(** One round of the loop of [tunnel_try_activate]: it returns at once
    (the state is not OPENING), or it calls the driver and then returns
    (a handle; the state changed; no retry left) or sleeps and goes on
    with one retry less and six times the delay. *)
Lemma try_activate_loop_step (sched : nat -> attempt) (tunnel : tunnel_t)
    (retries k : nat) (t : Z) (st : tunnels_state D) :
  (forall k, leaves tunnel (att_during_open (sched k)) /\
             leaves tunnel (att_during_sleep (sched k))) ->
  is_Some (heap st !! tunnel) ->
  (try_activate_loop (S retries) sched k tunnel t st = Done true st /\
   state_of st tunnel <> Some TUNNEL_STATE_OPENING)
  \/
  exists st' url,
    state_of st tunnel = Some TUNNEL_STATE_OPENING /\
    is_Some (heap st' !! tunnel) /\
    trace st' = trace st ++ [ev_log "attempting to open tunnel" url;
                             ev_cktp_open_tunnel url] /\
    ((att_open (sched k) <> None /\
      try_activate_loop (S retries) sched k tunnel t st = Done true st' /\
      t_tunnel <$> heap st' !! tunnel = Some (att_open (sched k)))
     \/
     (att_open (sched k) = None /\
      ((state_of st' tunnel <> Some TUNNEL_STATE_OPENING /\
        try_activate_loop (S retries) sched k tunnel t st = Done true st')
       \/
       (state_of st' tunnel = Some TUNNEL_STATE_OPENING /\
        ((retries = 0%nat /\
          try_activate_loop (S retries) sched k tunnel t st = Done false st')
         \/
         (retries <> 0%nat /\
          exists st'' url',
            is_Some (heap st'' !! tunnel) /\
            trace st'' =
              trace st' ++ [ev_log "unable to open tunnel; retrying" url';
                            ev_sleeptime t] /\
            try_activate_loop (S retries) sched k tunnel t st =
              try_activate_loop retries sched (S k) tunnel (uint64 (t * 6))
                st'')))))).
Proof.
  intros Hfair [r Hr].
  remember (try_activate_loop (S retries) sched k tunnel t st) as L eqn:HL.
  cbn [try_activate_loop] in HL. unfold bind at 1, deref at 1 in HL.
  rewrite Hr in HL.
  destruct (bool_decide_reflect (t_state r = TUNNEL_STATE_OPENING))
    as [Hopening|Hother].
  2:{ left. split; [exact HL|].
      unfold state_of. rewrite Hr. cbn. congruence. }
  right.
  destruct (Hfair k) as [Hopen Hsleep].
  set (st1 := with_trace
                (trace st ++ [ev_log "attempting to open tunnel" (t_url r);
                              ev_cktp_open_tunnel (t_url r)]) st).
  destruct (Hopen st1) as [Htrace1 Halloc1].
  destruct Halloc1 as [r1 Hr1]; [subst st1; cbn; eauto|].
  set (st2 := with_heap
                (<[tunnel := set_t_tunnel (att_open (sched k)) r1]>
                   (heap (att_during_open (sched k) st1)))
                (att_during_open (sched k) st1)).
  assert (Hr2 : heap st2 !! tunnel
                = Some (set_t_tunnel (att_open (sched k)) r1))
    by (subst st2; cbn; apply lookup_insert_eq).
  unfold bind at 1, emit at 1, modify at 1 in HL.
  unfold bind at 1, emit at 1, modify at 1 in HL.
  unfold bind at 1, modify at 1 in HL.
  unfold bind at 1, assign at 1, bind at 1, deref at 1 in HL.
  replace (with_trace _ (with_trace _ st)) with st1 in HL
    by (subst st1; destruct st; cbn; by rewrite <- app_assoc).
  rewrite Hr1 in HL. unfold store at 1, modify at 1 in HL. fold st2 in HL.
  exists st2, (t_url r).
  split; [unfold state_of; rewrite Hr; cbn; congruence|].
  split; [eauto|].
  split; [subst st2; cbn; rewrite Htrace1; reflexivity|].
  destruct (att_open (sched k)) as [h|] eqn:Hh.
  { left. split; [done|]. split; [exact HL|]. by rewrite Hr2. }
  right. split; [done|].
  case_bool_decide; [done|].
  unfold bind at 1, deref at 1 in HL. rewrite Hr2 in HL.
  cbn [t_state set_t_tunnel] in HL.
  destruct (bool_decide_reflect (t_state r1 <> TUNNEL_STATE_OPENING))
    as [Hother1|Hopening1].
  { left. split; [|exact HL].
    unfold state_of. rewrite Hr2. cbn. congruence. }
  right. apply dec_stable in Hopening1.
  split; [unfold state_of; rewrite Hr2; cbn; congruence|].
  destruct retries as [|retries]; cbn [Nat.eqb] in HL.
  { left. split; [reflexivity | exact HL]. }
  right. split; [done|].
  set (st3 := with_trace
                (trace st2 ++ [ev_log "unable to open tunnel; retrying" (t_url r1);
                               ev_sleeptime t]) st2).
  destruct (Hsleep st3) as [Htrace3 Halloc3].
  exists (att_during_sleep (sched k) st3), (t_url r1).
  split; [apply Halloc3; subst st3; cbn; eauto|].
  split; [rewrite Htrace3; reflexivity|].
  rewrite HL.
  unfold bind at 1, emit at 1, modify at 1.
  unfold bind at 1, emit at 1, modify at 1.
  unfold bind at 1, modify at 1.
  cbn [t_url set_t_tunnel].
  replace (with_trace _ (with_trace _ st2)) with st3; [reflexivity|].
  subst st3. unfold with_trace; cbn. by rewrite <- app_assoc.

Qed.

Lemma steps_of_app (a b : list event) :
  steps_of (a ++ b) = steps_of a ++ steps_of b.
Proof. unfold steps_of. by rewrite map_app, concat_app. Qed.

(** The loop as a whole, entered with [S retries] attempts left. *)
Lemma try_activate_loop_done (sched : nat -> attempt) (tunnel : tunnel_t)
    (retries k : nat) (t : Z) (st : tunnels_state D) :
  (forall k, leaves tunnel (att_during_open (sched k)) /\
             leaves tunnel (att_during_sleep (sched k))) ->
  is_Some (heap st !! tunnel) ->
  exists result st' evs,
    try_activate_loop (S retries) sched k tunnel t st = Done result st' /\
    is_Some (heap st' !! tunnel) /\
    trace st' = trace st ++ evs /\
    steps_of evs `prefix_of` backoff (S retries) t /\
    let n := opens_of (steps_of evs) in
    (forall i, (i + 1 < n)%nat -> att_open (sched (k + i)%nat) = None) /\
    (result = false <->
       n = S retries /\ att_open (sched (k + retries)%nat) = None /\
       state_of st' tunnel = Some TUNNEL_STATE_OPENING) /\
    ((1 <= n)%nat -> att_open (sched (k + n - 1)%nat) <> None ->
       result = true /\
       t_tunnel <$> heap st' !! tunnel
         = Some (att_open (sched (k + n - 1)%nat))) /\
    (result = true ->
       ((1 <= n)%nat /\ att_open (sched (k + n - 1)%nat) <> None)
       \/ state_of st' tunnel <> Some TUNNEL_STATE_OPENING).
Proof.
  intros Hfair. revert k t st.
  induction retries as [|retries IH]; intros k t st Halloc.
  1: destruct (try_activate_loop_step sched tunnel 0 k t st Hfair Halloc)
    as [[Hrun Hstate]
       |(st' & url & Hs & Ha & Htr
           & [(Hh & Hrun & Hhandle)
             |(Hh & [[Hstate Hrun]
                    |(Hstate & [[Hz Hrun]
                               |(Hnz & st'' & url' & Ha' & Htr' & Hrun)])])])].
  6: destruct (try_activate_loop_step sched tunnel (S retries) k t st
                 Hfair Halloc)
    as [[Hrun Hstate]
       |(st' & url & Hs & Ha & Htr
           & [(Hh & Hrun & Hhandle)
             |(Hh & [[Hstate Hrun]
                    |(Hstate & [[Hz Hrun]
                               |(Hnz & st'' & url' & Ha' & Htr' & Hrun)])])])].
  (* the state is not OPENING on entry *)
  1,6: exists true, st, []; rewrite app_nil_r;
       (split; [exact Hrun|]); (split; [exact Halloc|]); (split; [done|]);
       (split; [apply prefix_nil|]); cbn zeta;
       change (opens_of (steps_of [])) with 0%nat;
       (split; [intros; lia|]);
       (split; [split; [done | intros (Hn & _); discriminate Hn]|]);
       split; [intros; lia | by right].
  (* the driver returned a handle *)
  1,5: exists true, st', [ev_log "attempting to open tunnel" url;
                          ev_cktp_open_tunnel url];
       (split; [exact Hrun|]); (split; [exact Ha|]); (split; [exact Htr|]);
       (split; [apply prefix_cons, prefix_nil|]); cbn zeta;
       change (opens_of (steps_of [ev_log "attempting to open tunnel" url;
                                   ev_cktp_open_tunnel url])) with 1%nat;
       rewrite Nat.add_sub;
       (split; [intros; lia|]);
       (split; [split; [done|]; intros (Hn & Hnone & _);
                first [discriminate Hn | rewrite Nat.add_0_r in Hnone; done]|]);
       split; [by split | intros _; left; by split].
  (* the state changed while the driver was called *)
  1,4: exists true, st', [ev_log "attempting to open tunnel" url;
                          ev_cktp_open_tunnel url];
       (split; [exact Hrun|]); (split; [exact Ha|]); (split; [exact Htr|]);
       (split; [apply prefix_cons, prefix_nil|]); cbn zeta;
       change (opens_of (steps_of [ev_log "attempting to open tunnel" url;
                                   ev_cktp_open_tunnel url])) with 1%nat;
       rewrite Nat.add_sub;
       (split; [intros; lia|]);
       (split; [split; [done | intros (_ & _ & ?); done]|]);
       split; [done | by right].
  (* the last attempt failed *)
  2: done.
  1: { exists false, st', [ev_log "attempting to open tunnel" url;
                           ev_cktp_open_tunnel url].
       split; [exact Hrun|]. split; [exact Ha|]. split; [exact Htr|].
       split; [apply prefix_cons, prefix_nil|]. cbn zeta.
       change (opens_of (steps_of [ev_log "attempting to open tunnel" url;
                                   ev_cktp_open_tunnel url])) with 1%nat.
       rewrite Nat.add_sub, Nat.add_0_r.
       split; [intros; lia|]. split; [by split|]. by split. }
  (* an attempt failed and another one follows *)
  1: done.
  destruct (IH (S k) (uint64 (t * 6)) st'' Ha')
    as (result & st3 & evs & Hrun3 & Ha3 & Htr3 & Hpre & Hfail & Hfalse
          & Hhandle & Htrue).
  exists result, st3,
    ([ev_log "attempting to open tunnel" url; ev_cktp_open_tunnel url]
     ++ [ev_log "unable to open tunnel; retrying" url'; ev_sleeptime t]
     ++ evs).
  split; [by rewrite Hrun|].
  split; [exact Ha3|].
  split; [rewrite Htr3, Htr', Htr; by rewrite <- !app_assoc|].
  rewrite !steps_of_app.
  change (steps_of [ev_log "attempting to open tunnel" url;
                    ev_cktp_open_tunnel url]) with [try_open].
  change (steps_of [ev_log "unable to open tunnel; retrying" url';
                    ev_sleeptime t]) with [wait t].
  cbn [app].
  split; [cbn [backoff]; by apply prefix_cons, prefix_cons|].
  change (opens_of (try_open :: wait t :: steps_of evs))
    with (S (opens_of (steps_of evs))).
  cbn zeta in *.
  set (n := opens_of (steps_of evs)) in *.
  split.
  { intros [|i] Hi; [by rewrite Nat.add_0_r|].
    replace (k + S i)%nat with (S k + i)%nat by lia. apply Hfail. lia. }
  split.
  { rewrite Hfalse.
    replace (S k + retries)%nat with (k + S retries)%nat by lia.
    split; intros (Hn & ? & ?); (split; [lia|done]). }
  split.
  { intros _ Hsome. destruct n as [|n].
    - exfalso. apply Hsome. by replace (k + 1 - 1)%nat with k by lia.
    - replace (k + S (S n) - 1)%nat with (S k + S n - 1)%nat in * by lia.
      apply Hhandle; [lia | done]. }
  intros Hres. destruct (Htrue Hres) as [(Hn & Hsome)|Hstate'].
  - left. replace (k + S n - 1)%nat with (S k + n - 1)%nat by lia.
    split; [lia | done].
  - by right.
Qed.

Lemma opens_of_prefix (l1 l2 : list step) :
  l1 `prefix_of` l2 -> (opens_of l1 <= opens_of l2)%nat.
Proof.
  intros [l ->]. unfold opens_of. rewrite filter_app, length_app. lia.
Qed.

(** C6.  [tunnel_try_activate] on a tunnel whose record stays allocated.
    With [t0 = 10 s + stagger], the stagger being a random number of
    milliseconds below 1 s, what it does is a prefix of: open, sleep [t0],
    open, sleep [6 * t0], open; so it calls the driver at most
    MAX_RETRIES = 3 times.  Only the last call made can have yielded a
    handle, and then the result is true and the handle is stored.  The
    result is false exactly when three calls were made, all failed and the
    tunnel is still OPENING; a true result without a handle means that the
    tunnel was seen in another state than OPENING. *)
Theorem tunnel_try_activate_spec (sched : nat -> attempt) (tunnel : tunnel_t)
    (st : tunnels_state D) :
  tunnels_lock st = false ->
  (forall k, leaves tunnel (att_during_open (sched k)) /\
             leaves tunnel (att_during_sleep (sched k))) ->
  is_Some (heap st !! tunnel) ->
  let stagger := (uint32 (random_draw (rng st)) mod 1000) * MILLISECONDS in
  let t0 := 10 * SECONDS + stagger in
  0 <= stagger < 1 * SECONDS /\
  exists result st' evs,
    tunnel_try_activate sched tunnel st = Done result st' /\
    trace st' = trace st ++ evs /\
    steps_of evs `prefix_of`
      [try_open; wait t0; try_open; wait (6 * t0); try_open] /\
    let n := opens_of (steps_of evs) in
    (n <= Z.to_nat MAX_RETRIES)%nat /\
    (forall i, (i < n)%nat -> att_open (sched i) <> None ->
               i = (n - 1)%nat /\ result = true /\
               t_tunnel <$> heap st' !! tunnel = Some (att_open (sched i))) /\
    (result = false <->
       n = 3%nat /\
       (forall i, (i < 3)%nat -> att_open (sched i) = None) /\
       state_of st' tunnel = Some TUNNEL_STATE_OPENING) /\
    (result = true ->
       ((1 <= n)%nat /\ att_open (sched (n - 1)%nat) <> None)
       \/ state_of st' tunnel <> Some TUNNEL_STATE_OPENING).
Proof.
  intros Hlock Hfair Halloc stagger t0.
  assert (Hstagger : 0 <= stagger < 1 * SECONDS).
  { subst stagger. unfold MILLISECONDS, SECONDS.
    pose proof (Z.mod_pos_bound (uint32 (random_draw (rng st))) 1000 eq_refl).
    lia. }
  split; [exact Hstagger|].
  unfold tunnel_try_activate.
  unfold bind at 1, thread_lock. rewrite Hlock.
  unfold bind at 1, random_uint32. unfold bind at 1, thread_unlock, modify.
  cbn [rng with_lock].
  set (st0 := with_lock false _).
  assert (Ht0 : uint64 (10 * SECONDS
                        + uint64 (uint32 (random_draw (rng st)) mod 1000
                                  * MILLISECONDS)) = t0).
  { fold stagger. unfold uint64, SECONDS in *.
    rewrite (Z.mod_small stagger) by lia. subst t0. unfold SECONDS.
    apply Z.mod_small. lia. }
  rewrite Ht0.
  assert (Ht1 : uint64 (t0 * 6) = 6 * t0).
  { unfold uint64. subst t0. unfold SECONDS in *. rewrite Z.mod_small; lia. }
  destruct (try_activate_loop_done sched tunnel 2 0 t0 st0 Hfair)
    as (result & st' & evs & Hrun & Ha & Htr & Hpre & Hfail & Hfalse
          & Hhandle & Htrue).
  { subst st0; cbn. exact Halloc. }
  cbn [backoff] in Hpre. rewrite Ht1 in Hpre.
  cbn zeta in Hfail, Hfalse, Hhandle, Htrue.
  cbn [Nat.add] in Hfail, Hfalse, Hhandle, Htrue.
  exists result, st', evs.
  split; [exact Hrun|]. split; [exact Htr|]. split; [exact Hpre|].
  cbn zeta. set (n := opens_of (steps_of evs)) in *.
  assert (Hn : (n <= 3)%nat) by exact (opens_of_prefix _ _ Hpre).
  split; [exact Hn|].
  split.
  { intros i Hi Hsome.
    assert (i = (n - 1)%nat) as ->.
    { destruct (decide (i + 1 < n)%nat) as [Hlt|Hge]; [|lia].
      by apply Hfail in Hlt. }
    split; [done|]. apply Hhandle; [lia | done]. }
  split; [|exact Htrue].
  rewrite Hfalse. split.
  - intros (H3 & Hnone & Hstate). split; [done|]. split; [|done].
    intros i Hi. destruct (decide (i = 2%nat)) as [->|Hne]; [done|].
    apply Hfail. lia.
  - intros (H3 & Hnone & Hstate). split; [done|]. split; [|done].
    apply Hnone. lia.
Qed.

End TryActivate.


Lemma alone_leaves {D : Type} (tunnel : tunnel_t) : leaves (D := D) tunnel alone.
Proof. intros st. by split. Qed.

Lemma tunnel_try_activate_spec_witness :
  let st : tunnels_state Q := state_opening (cstr "cktp://a") in
  (exists st' evs,
     tunnel_try_activate never_opens 0 st = Done false st' /\
     trace st' = trace st ++ evs /\
     steps_of evs = [try_open; wait 10345000; try_open; wait 62070000;
                     try_open] /\
     state_of st' 0%nat = Some TUNNEL_STATE_OPENING) /\
  (exists st' evs,
     tunnel_try_activate (opens 7) 0 st = Done true st' /\
     trace st' = trace st ++ evs /\
     steps_of evs = [try_open] /\
     t_tunnel <$> heap st' !! 0%nat = Some (Some 7%nat)).
Proof.
  intros st. split.
  - destruct (tunnel_try_activate_spec never_opens 0%nat st)
      as (_ & result & st' & evs & Hrun & Htr & _ & _ & _ & Hfalse & _).
    + reflexivity.
    + intros k. split; apply alone_leaves.
    + vm_compute. eauto.
    + assert (Hcompute : exists st1, tunnel_try_activate never_opens 0 st
                                     = Done false st1)
        by (eexists; vm_compute; reflexivity).
      destruct Hcompute as [st1 Hst1]. rewrite Hrun in Hst1.
      injection Hst1 as -> <-.
      exists st', evs. split; [exact Hrun|]. split; [exact Htr|].
      split; [|by apply Hfalse].
      assert (Hevs : drop (length (trace st)) (trace st') = evs)
        by (rewrite Htr; apply drop_app_length).
      rewrite <- Hevs. revert Hrun. clear. intros Hrun.
      assert (Hst' : st' = state_after (tunnel_try_activate never_opens 0) st)
        by (unfold state_after; by rewrite Hrun).
      rewrite Hst'. vm_compute. reflexivity.
  - destruct (tunnel_try_activate_spec (opens 7) 0%nat st)
      as (_ & result & st' & evs & Hrun & Htr & _ & _ & Hhandle & _ & _).
    + reflexivity.
    + intros k. split; apply alone_leaves.
    + vm_compute. eauto.
    + assert (Hcompute : exists st1, tunnel_try_activate (opens 7) 0 st
                                     = Done true st1)
        by (eexists; vm_compute; reflexivity).
      destruct Hcompute as [st1 Hst1]. rewrite Hrun in Hst1.
      injection Hst1 as -> <-.
      exists st', evs. split; [exact Hrun|]. split; [exact Htr|].
      assert (Hevs : drop (length (trace st)) (trace st') = evs)
        by (rewrite Htr; apply drop_app_length).
      assert (Hst' : st' = state_after (tunnel_try_activate (opens 7) 0) st)
        by (unfold state_after; by rewrite Hrun).
      split.
      * rewrite <- Hevs, Hst'. vm_compute. reflexivity.
      * rewrite Hst'. vm_compute. reflexivity.
Defined.


(** ** The HTML pages and the reconnect threads *)

Section Pages.
Context {D : Type} {dbl : Double D} {ext : Extern}.
Local Open Scope prog_scope.

(** [http_buffer_t]: the text put into the buffer so far;
    [http_buffer_puts] appends to it. *)
Definition http_buffer_t : Type := cstring.

Definition http_buffer_puts (buff : http_buffer_t) (s : cstring)
  : http_buffer_t := buff ++ s.

Definition quote : ascii := "034"%char.

(** The loop of [tunnel_html]; [ts] are the slots from [i] on.  The URL is
    read from the record at each of its two uses. *)
Fixpoint html_loop (ts : list tunnel_t) (buff : http_buffer_t)
  : prog D http_buffer_t :=
  match ts with
  | [] => ret buff
  | tunnel :: rest =>
      let buff := http_buffer_puts buff (cstr "<option value=" ++ [quote]) in
      t <- deref tunnel;;
      let buff := http_buffer_puts buff (t_url t) in
      let buff := http_buffer_puts buff (quote :: cstr ">") in
      t <- deref tunnel;;
      let buff := http_buffer_puts buff (t_url t) in
      let buff := http_buffer_puts buff (cstr "</option>" ++ nl) in
      html_loop rest buff
  end.

(** Print all tunnels as HTML. *)
Definition tunnel_html (buff : http_buffer_t) (tunnel_set : tunnel_set_t)
  : prog D (bool * http_buffer_t) :=
  thread_lock;;
  s <- get_set tunnel_set;;
  buff <- html_loop (tunnels s) buff;;
  thread_unlock;;
  ret (true, buff).

(** Print active tunnels as HTML. *)
Definition tunnel_active_html (buff : http_buffer_t)
  : prog D (bool * http_buffer_t) :=
  tunnel_html buff active_set.

(** Print all tunnels as HTML. *)
Definition tunnel_all_html (buff : http_buffer_t)
  : prog D (bool * http_buffer_t) :=
  tunnel_html buff cache_set.

End Pages.

Section Reconnect.
Context {D : Type} {dbl : Double D} {ext : Extern}.
Local Open Scope prog_scope.

(** The scan of the active set by the reconnection manager; [ts] are the
    slots from [i] on.  [tunnel->reconnect] ensures we only try to
    reconnect once. *)
Fixpoint reconnect_manager_scan (ts : list tunnel_t) (currtime : Z)
  : prog D unit :=
  match ts with
  | [] => ret tt
  | tunnel :: rest =>
      t <- deref tunnel;;
      (if negb (t_reconnect t) && cktp_tunnel_timeout (t_tunnel t) currtime
       then
         assign tunnel (set_t_reconnect true);;
         t <- deref tunnel;;          (* strdup (tunnel->url) *)
         thread_create (tunnel_reconnect_thread (t_url t))
       else ret tt);;
      reconnect_manager_scan rest currtime
  end.

(** One round of the [while (true)] loop of the reconnection manager.
    While the thread sleeps the other threads turn the state into
    [others] of it. *)
Definition reconnect_manager_round
    (others : tunnels_state D -> tunnels_state D) : prog D unit :=
  thread_lock;;
  r <- random_uint32;;
  let stagger := uint64 ((r mod 1000) * MILLISECONDS) in
  thread_unlock;;
  emit (ev_sleeptime (uint64 (1 * SECONDS + stagger)));;
  modify others;;
  thread_lock;;
  currtime <- gettime;;
  active <- get_set active_set;;
  reconnect_manager_scan (tunnels active) currtime;;
  thread_unlock.

(** Reconnection manager.  The thread never returns: these are its first
    [fuel] rounds, numbered from [k]. *)
Fixpoint tunnel_reconnect_manager (fuel : nat)
    (others : nat -> tunnels_state D -> tunnels_state D) (k : nat)
  : prog D unit :=
  match fuel with
  | O => ret tt
  | S fuel' =>
      reconnect_manager_round (others k);;
      tunnel_reconnect_manager fuel' others (S k)
  end.

(** [tunnel_set_delete (tunnel_set, url)] called with a [url] that has
    been freed: the first [strcmp] reads the freed string.  With an empty
    set nothing is compared. *)
Definition tunnel_set_delete_freed (tunnel_set : tunnel_set_t)
  : prog D (option tunnel_t) :=
  s <- get_set tunnel_set;;
  match tunnels s with
  | [] => ret None
  | tunnel :: _ =>
      deref tunnel;;
      crash DanglingPointer
  end.

(** [tunnel_reconnect] after a successful [tunnel_try_activate]: replace
    the old tunnel with the new version. *)
Definition tunnel_reconnect_success (tunnel : tunnel_t) : prog D unit :=
  thread_lock;;
  replaced_active <- tunnel_set_replace active_set tunnel;;
  replaced_cache <- tunnel_set_replace cache_set tunnel;;
  found <-
    match replaced_active, replaced_cache with
    | Some _, _ =>
        tunnel_free replaced_active;;
        ret true
    | None, Some _ =>
        t <- deref tunnel;;
        cktp_close_tunnel (t_tunnel t);;
        assign tunnel (set_t_tunnel None);;
        assign tunnel (set_t_state TUNNEL_STATE_DEAD);;
        assign tunnel (set_t_reconnect false);;
        tunnel_free replaced_cache;;
        ret true
    | None, None => ret false
    end;;
  thread_unlock;;
  if negb found then
    (* Tunnel has been deactivated, no need for reopened tunnel *)
    tunnel_free (Some tunnel)
  else
    t <- deref tunnel;;
    emit (ev_log "successfully (re)opened tunnel" (t_url t)).

(** [tunnel_reconnect] after a failed [tunnel_try_activate]: we assume the
    tunnel is now dead, so deactivate it here.  The [url] the function
    looks for in the active set was freed at its start. *)
Definition tunnel_reconnect_failure (tunnel : tunnel_t) : prog D unit :=
  t <- deref tunnel;;
  emit (ev_warning "unable to (re)open tunnel; tunnel will be deactivated"
          (t_url t));;
  thread_lock;;
  old_tunnel <- tunnel_set_delete_freed active_set;;
  match old_tunnel with
  | Some _ =>
      t <- deref tunnel;;
      cktp_close_tunnel (t_tunnel t);;
      assign tunnel (set_t_tunnel None);;
      assign tunnel (set_t_state TUNNEL_STATE_DEAD);;
      assign tunnel (set_t_reconnect false)
  | None => ret tt
  end;;
  thread_unlock;;
  tunnel_free (Some tunnel).

(** Reconnect the tunnel: the body of the reconnect thread.  [url] is the
    copy the manager made; it is freed right after [tunnel_create].
    [wait] is what the other threads do between the return of
    [tunnel_try_activate] and the moment the thread goes on. *)
Definition tunnel_reconnect (sched : nat -> attempt (D := D))
    (wait : tunnels_state D -> tunnels_state D) (url : cstring)
  : prog D unit :=
  tunnel <- tunnel_create url TUNNEL_INIT_AGE;;
  (* free (url) *)
  assign tunnel (set_t_state TUNNEL_STATE_OPENING);;
  result <- tunnel_try_activate sched tunnel;;
  modify wait;;
  if result then tunnel_reconnect_success tunnel
  else tunnel_reconnect_failure tunnel.

End Reconnect.

(** ** The arithmetic of binary64 on the weights

    The kernel's floats are specified by [SpecFloat]: [Prim2SF] maps a
    float to its sign, mantissa and exponent, and the operations round to
    nearest, ties to even.  What follows is the part of that arithmetic
    the weights need: products and sums of positive normal numbers far
    from overflow and underflow. *)

Section Rounding.

(** [shr_1] shifts the mantissa one bit to the right. *)
Lemma shr_1_spec (m : Z) (r s : bool) :
  0 <= m ->
  shr_1 {| shr_m := m; shr_r := r; shr_s := s |}
  = {| shr_m := Z.div2 m; shr_r := Z.odd m; shr_s := r || s |}.
Proof. destruct m as [|[p|p|]|p]; intros Hm; try lia; reflexivity. Qed.

Lemma iter_pos_nat {A} (f : A -> A) (p : positive) (x : A) :
  SpecFloat.iter_pos f p x = Nat.iter (Pos.to_nat p) f x.
Proof.
  revert x. induction p as [p IH|p IH|]; intros x; cbn [SpecFloat.iter_pos].
  - rewrite !IH, Pos2Nat.inj_xI, <- Nat.iter_add, Nat.iter_succ_r.
    f_equal. lia.
  - rewrite !IH, Pos2Nat.inj_xO, <- Nat.iter_add. f_equal. lia.
  - reflexivity.
Qed.

Lemma iter_shr_1_m (n : nat) (m : Z) (r s : bool) :
  0 <= m ->
  shr_m (Nat.iter n shr_1 {| shr_m := m; shr_r := r; shr_s := s |})
  = m / 2 ^ Z.of_nat n.
Proof.
  intros Hm. induction n as [|n IH].
  - cbn. by rewrite Z.div_1_r.
  - rewrite Nat.iter_succ.
    destruct (Nat.iter n shr_1 _) as [m' r' s']. cbn [shr_m] in IH.
    assert (0 <= m') by (subst m'; apply Z.div_pos; lia).
    rewrite shr_1_spec by done. cbn [shr_m].
    rewrite Z.div2_div, IH, Z.div_div by lia.
    f_equal. rewrite Nat2Z.inj_succ, Z.pow_succ_r; lia.
Qed.

(** Shifting out zeros is exact. *)
Lemma iter_shr_1_exact (n : nat) (m : Z) :
  0 <= m ->
  Nat.iter n shr_1
    {| shr_m := m * 2 ^ Z.of_nat n; shr_r := false; shr_s := false |}
  = {| shr_m := m; shr_r := false; shr_s := false |}.
Proof.
  revert m. induction n as [|n IH]; intros m Hm.
  - cbn. by rewrite Z.mul_1_r.
  - rewrite Nat.iter_succ_r, shr_1_spec by lia.
    rewrite Nat2Z.inj_succ, Z.pow_succ_r by lia.
    replace (m * (2 * 2 ^ Z.of_nat n)) with (2 * (m * 2 ^ Z.of_nat n)) by lia.
    set (k := m * 2 ^ Z.of_nat n).
    replace (Z.div2 (2 * k)) with k
      by (rewrite Z.div2_div; Z.to_euclidean_division_equations; lia).
    rewrite Z.odd_mul. cbn [Z.odd andb orb]. apply IH, Hm.
Qed.

Lemma round_nearest_even_bounds (mx : Z) (lx : location) :
  mx <= round_nearest_even mx lx <= mx + 1.
Proof.
  destruct lx as [|[| |]]; cbn; try destruct (Z.even mx); lia.
Qed.

(** The number of binary digits of a positive number. *)
Lemma digits2_pos_bounds (p : positive) :
  2 ^ (Z.pos (digits2_pos p) - 1) <= Z.pos p < 2 ^ Z.pos (digits2_pos p).
Proof.
  induction p as [p IH|p IH|]; cbn [digits2_pos]; [| |cbn; lia].
  all: rewrite Pos2Z.inj_succ; unfold Z.succ.
  all: replace (Z.pos (digits2_pos p) + 1 - 1)
         with (Z.succ (Z.pos (digits2_pos p) - 1)) by lia.
  all: rewrite Z.pow_succ_r, (Z.pow_add_r 2 _ 1) by lia.
  all: lia.
Qed.

Lemma digits2_pos_unique (p : positive) (d : Z) :
  2 ^ (d - 1) <= Z.pos p < 2 ^ d -> Z.pos (digits2_pos p) = d.
Proof.
  intros [Hlo Hhi]. pose proof (digits2_pos_bounds p) as [Hlo' Hhi'].
  destruct (Z.lt_trichotomy (Z.pos (digits2_pos p)) d) as [Hlt|[Heq|Hgt]];
    [|exact Heq|].
  - assert (2 ^ Z.pos (digits2_pos p) <= 2 ^ (d - 1))
      by (apply Z.pow_le_mono_r; lia).
    lia.
  - assert (2 ^ d <= 2 ^ (Z.pos (digits2_pos p) - 1))
      by (apply Z.pow_le_mono_r; lia).
    lia.
Qed.

(** Rounding to 53 bits a mantissa [M] of more digits, [n] too many, when
    the result is a normal number: the result is [M / 2 ^ n] or one more,
    with the exponent raised by [n]; when the one more makes 2^53 the
    mantissa is 2^52 and the exponent is raised once more.  When the [n]
    low bits of [M] are zero the result is exact. *)
Lemma binary_round_aux_normal (s : bool) (M : positive) (E : Z) :
  let n := Z.pos (digits2_pos M) - 53 in
  0 < n -> -1074 <= E + n -> E + n < 971 ->
  exists (m : positive) (e : Z),
    binary_round_aux prec emax s (Z.pos M) E loc_Exact = S754_finite s m e /\
    2 ^ 52 <= Z.pos m < 2 ^ 53 /\
    ((e = E + n /\ Z.pos M / 2 ^ n <= Z.pos m <= Z.pos M / 2 ^ n + 1) \/
     (e = E + n + 1 /\ Z.pos m = 2 ^ 52)) /\
    (Z.pos M mod 2 ^ n = 0 -> e = E + n /\ Z.pos m = Z.pos M / 2 ^ n).
Proof.
  intros n Hn Hlo Hhi.
  pose proof (digits2_pos_bounds M) as [HMlo HMhi].
  assert (Hd : Z.pos (digits2_pos M) = n + 53) by (unfold n; lia).
  rewrite Hd in HMlo, HMhi.
  replace (n + 53 - 1) with (52 + n) in HMlo by lia.
  rewrite Z.pow_add_r in HMlo, HMhi by lia.
  assert (H2n : 0 < 2 ^ n) by (apply Z.pow_pos_nonneg; lia).
  set (q := Z.pos M / 2 ^ n).
  assert (Hq : 2 ^ 52 <= q < 2 ^ 53).
  { split.
    - apply Z.div_le_lower_bound; lia.
    - apply Z.div_lt_upper_bound; lia. }
  set (mrs := Nat.iter (Z.to_nat n) shr_1
                {| shr_m := Z.pos M; shr_r := false; shr_s := false |}).
  assert (H1 : shr_fexp prec emax (Z.pos M) E loc_Exact = (mrs, E + n)).
  { unfold shr_fexp, shr. cbn [Zdigits2 shr_record_of_loc].
    replace (fexp prec emax (Z.pos (digits2_pos M) + E) - E) with n
      by (unfold fexp, emin, prec, emax; lia).
    unfold mrs. destruct n as [|p|p]; try lia.
    by rewrite iter_pos_nat. }
  assert (Hm : shr_m mrs = q).
  { unfold mrs. rewrite iter_shr_1_m by lia. by rewrite Z2Nat.id by lia. }
  pose proof (round_nearest_even_bounds (shr_m mrs) (loc_of_shr_record mrs))
    as Hr.
  assert (Hex : Z.pos M mod 2 ^ n = 0 ->
                round_nearest_even (shr_m mrs) (loc_of_shr_record mrs) = q).
  { intros Hmod.
    assert (HM : Z.pos M = q * 2 ^ Z.of_nat (Z.to_nat n)).
    { rewrite Z2Nat.id by lia. unfold q. rewrite Z.mul_comm.
      apply Z.div_exact; lia. }
    unfold mrs. rewrite HM, iter_shr_1_exact by lia. reflexivity. }
  unfold binary_round_aux. rewrite H1.
  set (m1 := round_nearest_even (shr_m mrs) (loc_of_shr_record mrs)) in *.
  rewrite Hm in Hr. clearbody m1. clear H1 Hm mrs.
  change (2 ^ 52) with 4503599627370496 in *.
  change (2 ^ 53) with 9007199254740992 in *.
  destruct (Z.eq_dec m1 9007199254740992) as [Hc|Hc].
  - subst m1.
    assert (H2 : shr_fexp prec emax 9007199254740992 (E + n) loc_Exact
                 = ({| shr_m := 4503599627370496; shr_r := false;
                       shr_s := false |}, E + n + 1)).
    { unfold shr_fexp, shr. cbn [Zdigits2 shr_record_of_loc digits2_pos].
      replace (fexp prec emax (Z.pos (Pos.succ _) + (E + n)) - (E + n))
        with 1 by (unfold fexp, emin, prec, emax; cbn; lia).
      reflexivity. }
    rewrite H2. cbn [shr_m].
    replace (E + n + 1 <=? emax - prec) with true
      by (symmetry; apply Z.leb_le; unfold emax, prec; lia).
    exists 4503599627370496%positive, (E + n + 1).
    split; [reflexivity|]. split; [lia|]. split; [right; lia|].
    intros Hmod. apply Hex in Hmod. lia.
  - destruct m1 as [|m|m]; try lia.
    assert (Hdm : Z.pos (digits2_pos m) = 53).
    { apply digits2_pos_unique.
      change (2 ^ (53 - 1)) with 4503599627370496.
      change (2 ^ 53) with 9007199254740992. lia. }
    assert (H2 : shr_fexp prec emax (Z.pos m) (E + n) loc_Exact
                 = ({| shr_m := Z.pos m; shr_r := false; shr_s := false |},
                    E + n)).
    { unfold shr_fexp, shr. cbn [Zdigits2 shr_record_of_loc]. rewrite Hdm.
      replace (fexp prec emax (53 + (E + n)) - (E + n))
        with 0 by (unfold fexp, emin, prec, emax; lia).
      reflexivity. }
    rewrite H2. cbn [shr_m].
    replace (E + n <=? emax - prec) with true
      by (symmetry; apply Z.leb_le; unfold emax, prec; lia).
    exists m, (E + n).
    split; [reflexivity|]. split; [lia|]. split; [left; lia|].
    intros Hmod. apply Hex in Hmod. lia.
Qed.

End Rounding.

(** *** Weights in [0.005, 1.0] *)

(** A weight is in the range when [0.005 <= w] and [w <= 1.0] hold in the
    arithmetic of the weights (which a NaN does not satisfy). *)
Definition in_range {D : Type} {dbl : Double D} (w : D) : Prop :=
  d_leb d_0_005 w = true /\ d_leb w d_1 = true.

(** The binary64 numbers of the range, by mantissa and exponent: the
    mantissa has 53 bits, and the number is between
    0.005 = 5764607523034235 * 2^-60 (the double nearest to 0.005) and
    1.0 = 2^52 * 2^-52. *)
Definition spec_in_range (m : positive) (e : Z) : Prop :=
  2 ^ 52 <= Z.pos m < 2 ^ 53 /\
  (-60 < e \/ (e = -60 /\ 5764607523034235 <= Z.pos m)) /\
  (e < -52 \/ (e = -52 /\ Z.pos m <= 2 ^ 52)).

Section Compare.

Lemma SFleb_finite (m1 m2 : positive) (e1 e2 : Z) :
  SFleb (S754_finite false m1 e1) (S754_finite false m2 e2) = true
  <-> e1 < e2 \/ (e1 = e2 /\ Z.pos m1 <= Z.pos m2).
Proof.
  unfold SFleb, SFcompare.
  change (Pos.compare_cont Eq m1 m2) with (m1 ?= m2)%positive.
  destruct (Z.compare_spec e1 e2) as [He|He|He];
    [destruct (Pos.compare_spec m1 m2) as [Hm|Hm|Hm]| |];
    split; intros H; try done; try lia.
Qed.

Lemma SFltb_finite (m1 m2 : positive) (e1 e2 : Z) :
  SFltb (S754_finite false m1 e1) (S754_finite false m2 e2) = true
  <-> e1 < e2 \/ (e1 = e2 /\ Z.pos m1 < Z.pos m2).
Proof.
  unfold SFltb, SFcompare.
  change (Pos.compare_cont Eq m1 m2) with (m1 ?= m2)%positive.
  destruct (Z.compare_spec e1 e2) as [He|He|He];
    [destruct (Pos.compare_spec m1 m2) as [Hm|Hm|Hm]| |];
    split; intros H; try done; try lia.
Qed.

Lemma Prim2SF_0_005 :
  Prim2SF d_0_005 = S754_finite false 5764607523034235 (-60).
Proof. reflexivity. Qed.

Lemma Prim2SF_1 : Prim2SF d_1 = S754_finite false 4503599627370496 (-52).
Proof. reflexivity. Qed.

Lemma Prim2SF_0_75 :
  Prim2SF d_0_75 = S754_finite false 6755399441055744 (-53).
Proof. reflexivity. Qed.

Lemma Prim2SF_0_15 :
  Prim2SF d_0_15 = S754_finite false 5404319552844595 (-55).
Proof. reflexivity. Qed.

(** A float of the range has a mantissa and an exponent of the range. *)
Lemma in_range_spec (w : float) :
  in_range w ->
  exists m e, Prim2SF w = S754_finite false m e /\ spec_in_range m e.
Proof.
  intros [Hlo Hhi]. cbn [d_leb binary64_Double] in Hlo, Hhi.
  rewrite FloatAxioms.leb_spec in Hlo, Hhi.
  rewrite Prim2SF_0_005 in Hlo. rewrite Prim2SF_1 in Hhi.
  pose proof (Prim2SF_valid w) as Hvalid.
  destruct (Prim2SF w) as [s|s| |s m e]; try done.
  { by destruct s. }
  destruct s; [done|].
  apply SFleb_finite in Hlo, Hhi.
  exists m, e. split; [reflexivity|].
  unfold valid_binary, bounded, canonical_mantissa in Hvalid.
  apply andb_prop in Hvalid as [Hcanon _]. apply Z.eqb_eq in Hcanon.
  unfold fexp, emin, prec, emax in Hcanon.
  pose proof (digits2_pos_bounds m) as Hm.
  assert (Hd : Z.pos (digits2_pos m) = 53) by lia.
  rewrite Hd in Hm. change (2 ^ (53 - 1)) with (2 ^ 52) in Hm.
  split; [exact Hm|].
  change (2 ^ 52) with 4503599627370496 in *.
  split; lia.
Qed.

Lemma spec_in_range_float (w : float) (m : positive) (e : Z) :
  Prim2SF w = S754_finite false m e -> spec_in_range m e -> in_range w.
Proof.
  intros Hw (Hm & Hlo & Hhi).
  unfold in_range. cbn [d_leb binary64_Double].
  rewrite !FloatAxioms.leb_spec, Hw, Prim2SF_0_005, Prim2SF_1.
  rewrite !SFleb_finite.
  change (2 ^ 52) with 4503599627370496 in *.
  split; lia.
Qed.

End Compare.

Section Operations64.

Lemma pow2_digits (p : positive) (a b : Z) :
  0 <= a <= b -> 2 ^ a <= Z.pos p < 2 ^ b ->
  a < Z.pos (digits2_pos p) <= b.
Proof.
  intros Ha [Hlo Hhi]. pose proof (digits2_pos_bounds p) as [Hlo' Hhi'].
  split.
  - apply (Z.pow_lt_mono_r_iff 2); lia.
  - assert (Z.pos (digits2_pos p) - 1 < b); [|lia].
    apply (Z.pow_lt_mono_r_iff 2); lia.
Qed.

(** The product of two positive normal numbers, far from overflow and
    underflow. *)
Lemma mul_normal (x y : float) (mx my : positive) (ex ey : Z) :
  Prim2SF x = S754_finite false mx ex ->
  Prim2SF y = S754_finite false my ey ->
  2 ^ 52 <= Z.pos mx < 2 ^ 53 ->
  2 ^ 52 <= Z.pos my < 2 ^ 53 ->
  -1000 <= ex + ey <= 800 ->
  exists (m : positive) (e n : Z),
    Prim2SF (x * y) = S754_finite false m e /\
    2 ^ 52 <= Z.pos m < 2 ^ 53 /\
    ((n = 52 /\ Z.pos mx * Z.pos my < 2 ^ 105) \/
     (n = 53 /\ 2 ^ 105 <= Z.pos mx * Z.pos my)) /\
    ((e = ex + ey + n /\
      Z.pos mx * Z.pos my / 2 ^ n <= Z.pos m
        <= Z.pos mx * Z.pos my / 2 ^ n + 1) \/
     (e = ex + ey + n + 1 /\ Z.pos m = 2 ^ 52)) /\
    ((Z.pos mx * Z.pos my) mod 2 ^ n = 0 ->
     e = ex + ey + n /\ Z.pos m = Z.pos mx * Z.pos my / 2 ^ n).
Proof.
  intros Hx Hy Hmx Hmy Hexp.
  rewrite FloatAxioms.mul_spec, Hx, Hy. unfold SF64mul, SFmul. cbn [xorb].
  assert (HM : 2 ^ 104 <= Z.pos (mx * my) < 2 ^ 106).
  { rewrite Pos2Z.inj_mul.
    change (2 ^ 104) with (2 ^ 52 * 2 ^ 52).
    change (2 ^ 106) with (2 ^ 53 * 2 ^ 53).
    split; [apply Z.mul_le_mono_nonneg | apply Z.mul_lt_mono_nonneg]; lia. }
  pose proof (pow2_digits (mx * my) 104 106 ltac:(lia) HM) as Hd.
  pose proof (digits2_pos_bounds (mx * my)) as Hb.
  destruct (binary_round_aux_normal false (mx * my) (ex + ey))
    as (m & e & Hr & Hm & He & Hexact); [lia..|].
  exists m, e, (Z.pos (digits2_pos (mx * my)) - 53).
  rewrite <- Pos2Z.inj_mul.
  split; [exact Hr|]. split; [exact Hm|]. split; [|split; assumption].
  destruct (Z.eq_dec (Z.pos (digits2_pos (mx * my))) 105) as [H105|H105].
  - left. rewrite H105 in Hb |- *. split; [reflexivity|]. apply Hb.
  - right. assert (H106 : Z.pos (digits2_pos (mx * my)) = 106) by lia.
    rewrite H106 in Hb |- *. split; [reflexivity|]. apply Hb.
Qed.

Lemma iter_xO (m d : positive) :
  Z.pos (Pos.iter xO m d) = Z.pos m * 2 ^ Z.pos d.
Proof.
  induction d as [|d IH] using Pos.peano_ind.
  - cbn. lia.
  - rewrite Pos.iter_succ, Pos2Z.inj_xO, IH, Pos2Z.inj_succ, Z.pow_succ_r
      by lia.
    lia.
Qed.

(** The sum of two positive normal numbers, the second of a smaller
    exponent, far from overflow and underflow: it is not below the
    first. *)
Lemma add_normal (x y : float) (mx my : positive) (ex ey : Z) :
  Prim2SF x = S754_finite false mx ex ->
  Prim2SF y = S754_finite false my ey ->
  2 ^ 52 <= Z.pos mx < 2 ^ 53 ->
  2 ^ 52 <= Z.pos my < 2 ^ 53 ->
  ey < ex -> -1000 <= ey -> ex <= 900 ->
  exists (m : positive) (e : Z),
    Prim2SF (x + y) = S754_finite false m e /\
    2 ^ 52 <= Z.pos m < 2 ^ 53 /\
    (ex < e \/ (e = ex /\ Z.pos mx <= Z.pos m)).
Proof.
  intros Hx Hy Hmx Hmy Hlt Hlo Hhi.
  rewrite FloatAxioms.add_spec, Hx, Hy. unfold SF64add, SFadd.
  rewrite Z.min_r by lia. cbn [cond_Zopp].
  unfold shl_align at 2. rewrite Z.sub_diag. cbn [fst].
  unfold shl_align.
  destruct (ey - ex) as [|d|d] eqn:Hd; try lia. cbn [fst].
  assert (Hdelta : Z.pos d = ex - ey) by lia.
  rewrite <- Pos2Z.inj_add. unfold binary_normalize, binary_round.
  set (S := (Pos.iter xO mx d + my)%positive).
  assert (HS : Z.pos S = Z.pos mx * 2 ^ Z.pos d + Z.pos my).
  { unfold S. by rewrite Pos2Z.inj_add, iter_xO. }
  assert (H2d : 2 <= 2 ^ Z.pos d).
  { change 2 with (2 ^ 1) at 1. apply Z.pow_le_mono_r; lia. }
  assert (HSb : 2 ^ (52 + Z.pos d) <= Z.pos S < 2 ^ (54 + Z.pos d)).
  { rewrite !Z.pow_add_r by lia.
    change (2 ^ 52) with 4503599627370496 in *.
    change (2 ^ 53) with 9007199254740992 in *.
    change (2 ^ 54) with 18014398509481984. nia. }
  pose proof (pow2_digits S (52 + Z.pos d) (54 + Z.pos d) ltac:(lia) HSb)
    as HdS.
  pose proof (digits2_pos_bounds S) as Hb.
  unfold shl_align.
  replace (fexp prec emax (Z.pos (digits2_pos S) + ey) - ey)
    with (Z.pos (digits2_pos S) - 53)
    by (unfold fexp, emin, prec, emax; lia).
  destruct (Z.pos (digits2_pos S) - 53) as [|n|n] eqn:Hn; try lia.
  destruct (binary_round_aux_normal false S ey)
    as (m & e & Hr & Hm & He & _); [lia..|].
  exists m, e. split; [exact Hr|]. split; [exact Hm|].
  rewrite Hn in He.
  destruct (Z.eq_dec (Z.pos n) (Z.pos d)) as [Heq|Hne].
  - destruct He as [[He Hq]|[He _]]; [|left; lia].
    right. split; [lia|].
    rewrite Heq in Hq. destruct Hq as [Hq _].
    eapply Z.le_trans; [|exact Hq].
    apply Z.div_le_lower_bound; lia.
  - left. lia.
Qed.

End Operations64.

(** *** The range is kept in binary64 *)

Section Range64.

Lemma in_range_one_binary64 : in_range (d_1 : float).
Proof. split; reflexivity. Qed.

Lemma in_range_0_005_binary64 : in_range (d_0_005 : float).
Proof. split; reflexivity. Qed.

(** The punishment, computed in binary64, keeps a weight in the range:
    the product with 0.75 is rounded, but to a number that is not above
    1.0, and the clamp keeps it from below 0.005. *)
Lemma in_range_punish_binary64 (w : float) :
  in_range w -> in_range (punish w).
Proof.
  intros Hw. destruct (in_range_spec w Hw) as (m & e & Hs & Hm & Hlo & Hhi).
  change (2 ^ 52) with 4503599627370496 in *.
  change (2 ^ 53) with 9007199254740992 in *.
  destruct (mul_normal w d_0_75 m 6755399441055744 e (-53) Hs Prim2SF_0_75)
    as (m' & e' & n & Hs' & Hm' & Hn & He & _).
  { change (2 ^ 52) with 4503599627370496.
    change (2 ^ 53) with 9007199254740992. lia. }
  { change (2 ^ 52) with 4503599627370496.
    change (2 ^ 53) with 9007199254740992. lia. }
  { lia. }
  change (2 ^ 52) with 4503599627370496 in *.
  change (2 ^ 53) with 9007199254740992 in *.
  change (2 ^ 105) with 40564819207303340847894502572032 in *.
  unfold punish. cbv zeta.
  change (d_mul w d_0_75) with (w * d_0_75)%float.
  change (d_ltb (w * d_0_75)%float d_0_005)
    with (w * d_0_75 <? d_0_005)%float.
  destruct (w * d_0_75 <? d_0_005)%float eqn:Hlt;
    [apply in_range_0_005_binary64|].
  rewrite FloatAxioms.ltb_spec, Hs', Prim2SF_0_005 in Hlt.
  assert (Hnlt : ~ (e' < -60 \/ (e' = -60 /\ Z.pos m' < 5764607523034235))).
  { intros H. apply SFltb_finite in H. congruence. }
  apply (spec_in_range_float _ m' e' Hs').
  change (2 ^ 52) with 4503599627370496 in *.
  change (2 ^ 53) with 9007199254740992 in *.
  split; [exact Hm'|]. split; lia.
Qed.

(** The reward, computed in binary64, keeps a weight in the range: the
    rounded sum [w + 0.15 * w] is not below [w], and the clamp keeps it
    from above 1.0. *)
Lemma in_range_reward_binary64 (w : float) :
  in_range w -> in_range (reward w).
Proof.
  intros Hw. destruct (in_range_spec w Hw) as (m & e & Hs & Hm & Hlo & Hhi).
  change (2 ^ 52) with 4503599627370496 in *.
  change (2 ^ 53) with 9007199254740992 in *.
  destruct (mul_normal d_0_15 w 5404319552844595 m (-55) e Prim2SF_0_15 Hs)
    as (mx & ex & n & Hsx & Hmx & Hn & Hex & _).
  { change (2 ^ 52) with 4503599627370496.
    change (2 ^ 53) with 9007199254740992. lia. }
  { change (2 ^ 52) with 4503599627370496.
    change (2 ^ 53) with 9007199254740992. lia. }
  { lia. }
  destruct (add_normal w (d_0_15 * w)%float m mx e ex Hs Hsx)
    as (m' & e' & Hs' & Hm' & Hge).
  { change (2 ^ 52) with 4503599627370496.
    change (2 ^ 53) with 9007199254740992. lia. }
  { exact Hmx. }
  { lia. }
  { lia. }
  { lia. }
  unfold reward. cbv zeta.
  change (d_add w (d_mul d_0_15 w)) with (w + d_0_15 * w)%float.
  change (d_ltb d_1 (w + d_0_15 * w)%float)
    with (d_1 <? w + d_0_15 * w)%float.
  destruct (d_1 <? w + d_0_15 * w)%float eqn:Hlt;
    [apply in_range_one_binary64|].
  rewrite FloatAxioms.ltb_spec, Hs', Prim2SF_1 in Hlt.
  assert (Hnlt : ~ (-52 < e' \/ (-52 = e' /\ 4503599627370496 < Z.pos m'))).
  { intros H. apply SFltb_finite in H. congruence. }
  apply (spec_in_range_float _ m' e' Hs').
  change (2 ^ 52) with 4503599627370496 in *.
  change (2 ^ 53) with 9007199254740992 in *.
  split; [exact Hm'|]. split; lia.
Qed.

End Range64.

(** *** Exact steps of the selector in binary64 *)

Section Exact64.

Lemma add_zero_l_binary64 (w : float) (m : positive) (e : Z) :
  Prim2SF w = S754_finite false m e -> (d_0 + w)%float = w.
Proof.
  intros Hw. apply Prim2SF_inj. by rewrite FloatAxioms.add_spec, Hw.
Qed.

Lemma mul_one_l_binary64 (w : float) (m : positive) (e : Z) :
  Prim2SF w = S754_finite false m e -> spec_in_range m e ->
  (d_1 * w)%float = w.
Proof.
  intros Hw (Hm & Hlo & Hhi).
  destruct (mul_normal d_1 w 4503599627370496 m (-52) e Prim2SF_1 Hw)
    as (m' & e' & n & Hs' & _ & Hn & _ & Hexact).
  { change (2 ^ 52) with 4503599627370496.
    change (2 ^ 53) with 9007199254740992. lia. }
  { exact Hm. }
  { lia. }
  change (2 ^ 53) with 9007199254740992 in *.
  change (2 ^ 105) with 40564819207303340847894502572032 in *.
  assert (n = 52) as -> by lia.
  change (2 ^ 52) with 4503599627370496 in *.
  rewrite Z.mul_comm, Z.mod_mul, Z.div_mul in Hexact by lia.
  destruct Hexact as [-> Hm']; [reflexivity|].
  apply Prim2SF_inj. rewrite Hs', Hw. f_equal; [congruence | lia].
Qed.

Lemma leb_refl_binary64 (w : float) (m : positive) (e : Z) :
  Prim2SF w = S754_finite false m e -> (w <=? w)%float = true.
Proof.
  intros Hw. rewrite FloatAxioms.leb_spec, Hw. apply SFleb_finite. lia.
Qed.

End Exact64.

(** ** Weights stay in range *)

(** *** A property of all weights is kept by every operation

    [W] is a property of weights that holds of 1.0 and is kept by [punish]
    and by [reward].  A program is [sound] when, started in a state whose
    records all have a weight in [W], it ends in such a state, with a
    result in [Q]. *)

Section Sound.
Context {D : Type} {dbl : Double D} {ext : Extern}.
Variable W : D -> Prop.
Hypothesis W_one : W d_1.
Hypothesis W_punish : forall w, W w -> W (punish w).
Hypothesis W_reward : forall w, W w -> W (reward w).

Definition weight_ok (t : tunnel_s D) : Prop := W (t_weight t).

Definition weights_ok (st : tunnels_state D) : Prop :=
  map_Forall (fun _ t => weight_ok t) (heap st).

Definition sound {A} (m : prog D A) (Q : A -> Prop) : Prop :=
  forall st, weights_ok st ->
    match m st with
    | Done a st' => weights_ok st' /\ Q a
    | Crash _ => True
    end.

Definition anything {A} : A -> Prop := fun _ => True.

Lemma sound_ret {A} (a : A) (Q : A -> Prop) : Q a -> sound (ret a) Q.
Proof. intros Ha st Hst. by split. Qed.

Lemma sound_bind {A B} (m : prog D A) (k : A -> prog D B) P Q :
  sound m P -> (forall a, P a -> sound (k a) Q) -> sound (bind m k) Q.
Proof.
  intros Hm Hk st Hst. unfold bind. specialize (Hm st Hst).
  destruct (m st) as [a st'|]; [|done].
  destruct Hm as [Hst' Ha]. by apply Hk.
Qed.

Lemma sound_weaken {A} (m : prog D A) (P Q : A -> Prop) :
  sound m P -> (forall a, P a -> Q a) -> sound m Q.
Proof.
  intros Hm HPQ st Hst. specialize (Hm st Hst).
  destruct (m st); [|done]. destruct Hm. auto.
Qed.

Lemma sound_crash {A} f (Q : A -> Prop) : sound (crash f) Q.
Proof. by intros st Hst. Qed.

(** A change of the state that leaves the heap as it is. *)
Lemma sound_modify (f : tunnels_state D -> tunnels_state D) :
  (forall st, heap (f st) = heap st) -> sound (modify f) anything.
Proof.
  intros Hf st Hst. cbn. split; [|done]. unfold weights_ok. by rewrite Hf.
Qed.

Lemma sound_get_state : sound get_state anything.
Proof. by intros st Hst. Qed.

Lemma sound_deref tunnel : sound (deref tunnel) weight_ok.
Proof.
  intros st Hst. unfold deref. destruct (heap st !! tunnel) eqn:Ht; [|done].
  split; [done|]. exact (Hst _ _ Ht).
Qed.

Lemma sound_store tunnel t : weight_ok t -> sound (store tunnel t) anything.
Proof.
  intros Ht st Hst. cbn. split; [|done]. by apply map_Forall_insert_2.
Qed.

Lemma sound_assign tunnel (f : tunnel_s D -> tunnel_s D) :
  (forall t, weight_ok t -> weight_ok (f t)) ->
  sound (assign tunnel f) anything.
Proof.
  intros Hf. unfold assign. eapply sound_bind; [apply sound_deref|].
  intros t Ht. apply sound_store. auto.
Qed.

Lemma sound_free tunnel : sound (free tunnel) anything.
Proof.
  intros st Hst. cbn. split; [|done]. by apply map_Forall_delete.
Qed.

Lemma sound_thread_lock : sound thread_lock anything.
Proof. intros st Hst. unfold thread_lock. by destruct (tunnels_lock st). Qed.

Lemma sound_thread_unlock : sound thread_unlock anything.
Proof. by apply sound_modify. Qed.

Lemma sound_emit e : sound (emit e) anything.
Proof. by apply sound_modify. Qed.

Lemma sound_random_uint32 : sound random_uint32 anything.
Proof. by intros st Hst. Qed.

Lemma sound_random_uint64 : sound random_uint64 anything.
Proof. by intros st Hst. Qed.

Lemma sound_gettime : sound gettime anything.
Proof. by intros st Hst. Qed.

Lemma sound_get_set s : sound (get_set s) anything.
Proof. by intros st Hst. Qed.

Lemma sound_put_set s v : sound (put_set s v) anything.
Proof. destruct s; by apply sound_modify. Qed.

Lemma sound_remove_file f : sound (remove_file f) anything.
Proof. by apply sound_modify. Qed.

End Sound.

Create HintDb sound.

#[global] Hint Resolve sound_crash sound_get_state sound_deref sound_free
  sound_thread_lock sound_thread_unlock sound_emit sound_random_uint32
  sound_random_uint64 sound_gettime sound_get_set sound_put_set
  sound_remove_file : sound.

(** One step of a proof of [sound]: the rule of the program's head. *)
Ltac sound_step :=
  lazymatch goal with
  | |- sound _ (ret _) _ => apply sound_ret; done
  | |- sound _ (bind _ _) _ =>
      first
        [ eapply sound_bind; [solve [eauto with sound] | intros ? ?]
        | eapply sound_bind with (P := anything); [ | intros ? _] ]
  | |- sound _ (modify _) _ =>
      eapply sound_weaken; [apply sound_modify; done | done]
  | |- sound _ (store _ _) _ =>
      eapply sound_weaken; [apply sound_store | done]
  | |- sound _ (assign _ _) _ =>
      eapply sound_weaken; [apply sound_assign; intros ? ? | done]
  | |- sound _ (if ?b then _ else _) _ => destruct b
  | |- sound _ (match ?x with _ => _ end) _ => destruct x
  | |- sound _ _ _ =>
      first [ solve [eauto with sound]
            | eapply sound_weaken; [solve [eauto with sound] | done] ]
  end.

Ltac sound_auto := repeat sound_step.

Section SoundOperations.
Context {D : Type} {dbl : Double D} {ext : Extern}.
Variable W : D -> Prop.
Hypothesis W_one : W d_1.
Hypothesis W_punish : forall w, W w -> W (punish w).
Hypothesis W_reward : forall w, W w -> W (reward w).

(** What other threads do keeps the weights in [W]. *)
Definition keeps_weights (f : tunnels_state D -> tunnels_state D) : Prop :=
  forall st, weights_ok W st -> weights_ok W (f st).

Lemma sound_others f : keeps_weights f -> sound W (modify f) anything.
Proof. intros Hf st Hst. split; [by apply Hf | done]. Qed.

Lemma sound_cktp_close_tunnel h : sound W (cktp_close_tunnel h) anything.
Proof. unfold cktp_close_tunnel. sound_auto. Qed.

Lemma sound_thread_create fn : sound W (thread_create fn) anything.
Proof. unfold thread_create. sound_auto. Qed.

Lemma sound_tunnel_at s i : sound W (tunnel_at s i) anything.
Proof. unfold tunnel_at. sound_auto. Qed.

Lemma sound_tunnel_set_insert s tunnel :
  sound W (tunnel_set_insert s tunnel) anything.
Proof. unfold tunnel_set_insert. sound_auto. Qed.

Lemma sound_find_url ts i0 url : sound W (find_url ts i0 url) anything.
Proof.
  revert i0. induction ts as [|p ts IH]; intros i0; cbn [find_url];
    sound_auto.
Qed.

Hint Resolve sound_cktp_close_tunnel sound_thread_create sound_tunnel_at
  sound_tunnel_set_insert sound_find_url : sound.

Lemma sound_tunnel_set_replace s tunnel :
  sound W (tunnel_set_replace s tunnel) anything.
Proof. unfold tunnel_set_replace. sound_auto. Qed.

Lemma sound_tunnel_set_delete s url :
  sound W (tunnel_set_delete s url) anything.
Proof. unfold tunnel_set_delete. sound_auto. Qed.

Lemma sound_tunnel_set_lookup s url :
  sound W (tunnel_set_lookup s url) anything.
Proof. unfold tunnel_set_lookup. sound_auto. Qed.

Lemma sound_tunnel_init : sound W tunnel_init anything.
Proof. unfold tunnel_init. sound_auto. Qed.

(** A new record has the weight 1.0. *)
Lemma sound_tunnel_create url age : sound W (tunnel_create url age) anything.
Proof. unfold tunnel_create. sound_auto. exact W_one. Qed.

Lemma sound_tunnel_free tunnel : sound W (tunnel_free tunnel) anything.
Proof. unfold tunnel_free. sound_auto; done. Qed.

Lemma sound_tunnel_open : sound W tunnel_open anything.
Proof. unfold tunnel_open. sound_auto. Qed.

Lemma sound_tunnel_ready : sound W tunnel_ready anything.
Proof. unfold tunnel_ready. sound_auto. Qed.

Hint Resolve sound_tunnel_set_replace sound_tunnel_set_delete
  sound_tunnel_set_lookup sound_tunnel_init sound_tunnel_create
  sound_tunnel_free sound_tunnel_open sound_tunnel_ready : sound.

(** The selector: the only place where a weight changes. *)
Lemma sound_total_weight_loop ts acc :
  sound W (total_weight_loop ts acc) anything.
Proof.
  revert acc. induction ts as [|p ts IH]; intros acc;
    cbn [total_weight_loop]; sound_auto.
Qed.

Lemma sound_pick_loop ts idx pick : sound W (pick_loop ts idx pick) anything.
Proof.
  revert idx pick. induction ts as [|p ts IH]; intros idx pick;
    cbn [pick_loop]; sound_auto.
Qed.

Lemma sound_punish_loop ts id pick :
  sound W (punish_loop ts id pick) anything.
Proof.
  revert pick. induction ts as [|p ts IH]; intros pick;
    cbn [punish_loop]; sound_auto.
  by apply W_punish.
Qed.

Hint Resolve sound_total_weight_loop sound_pick_loop sound_punish_loop
  : sound.

Lemma sound_tunnel_get hash repeat :
  sound W (tunnel_get hash repeat) anything.
Proof. unfold tunnel_get. sound_auto. by apply W_reward. Qed.

Hint Resolve sound_tunnel_get : sound.

Lemma sound_ip_tot_len p : sound W (ip_tot_len p) anything.
Proof. unfold ip_tot_len. sound_auto. Qed.

Hint Resolve sound_ip_tot_len : sound.

Lemma sound_fit_loop packets mtu fit :
  sound W (fit_loop packets mtu fit) anything.
Proof.
  revert fit. induction packets as [|p packets IH]; intros fit;
    cbn [fit_loop]; sound_auto.
Qed.

Lemma sound_send_loop h packets : sound W (send_loop h packets) anything.
Proof. induction packets as [|p packets IH]; cbn [send_loop]; sound_auto. Qed.

Hint Resolve sound_fit_loop sound_send_loop : sound.

Lemma sound_tunnel_packets packet packets hash repeat config_mtu :
  sound W (tunnel_packets packet packets hash repeat config_mtu) anything.
Proof. unfold tunnel_packets. sound_auto. Qed.

(** The cache file. *)
Lemma sound_rename old new : sound W (rename old new) anything.
Proof. unfold rename. sound_auto. Qed.

Lemma sound_file_write_loop ts out :
  sound W (file_write_loop ts out) anything.
Proof.
  revert out. induction ts as [|p ts IH]; intros out;
    cbn [file_write_loop]; sound_auto.
Qed.

Hint Resolve sound_rename sound_file_write_loop : sound.

Lemma sound_tunnel_file_write : sound W tunnel_file_write anything.
Proof. unfold tunnel_file_write. sound_auto. Qed.

Lemma sound_file_read_loop fuel filename file :
  sound W (file_read_loop fuel filename file) anything.
Proof.
  revert file. induction fuel as [|fuel IH]; intros file;
    cbn [file_read_loop]; sound_auto.
Qed.

Hint Resolve sound_tunnel_file_write sound_file_read_loop : sound.

Lemma sound_tunnel_file_read : sound W tunnel_file_read anything.
Proof. unfold tunnel_file_read. sound_auto. Qed.

Hint Resolve sound_tunnel_file_read sound_others : sound.

(** Opening, adding and deleting tunnels. *)
Lemma sound_activate_manager_scan ts j max :
  sound W (activate_manager_scan ts j max) anything.
Proof.
  revert j. induction ts as [|p ts IH]; intros j;
    cbn [activate_manager_scan]; sound_auto; done.
Qed.

Hint Resolve sound_activate_manager_scan : sound.

Lemma sound_activate_manager_attempt :
  sound W activate_manager_attempt anything.
Proof. unfold activate_manager_attempt. sound_auto. Qed.

Hint Resolve sound_activate_manager_attempt : sound.

Lemma sound_tunnel_activate_manager fuel others k :
  (forall k, keeps_weights (others k)) ->
  sound W (tunnel_activate_manager fuel others k) anything.
Proof.
  intros Hothers. revert k. induction fuel as [|fuel IH]; intros k;
    cbn [tunnel_activate_manager]; sound_auto.
Qed.

Lemma sound_try_activate_loop retries sched k tunnel t :
  (forall k, keeps_weights (att_during_open (sched k)) /\
             keeps_weights (att_during_sleep (sched k))) ->
  sound W (try_activate_loop retries sched k tunnel t) anything.
Proof.
  intros Hsched. revert k t. induction retries as [|retries IH]; intros k t;
    cbn [try_activate_loop]; sound_auto; try done.
  all: eapply sound_weaken; [apply sound_others, Hsched | done].
Qed.

Hint Resolve sound_try_activate_loop : sound.

Lemma sound_tunnel_try_activate sched tunnel :
  (forall k, keeps_weights (att_during_open (sched k)) /\
             keeps_weights (att_during_sleep (sched k))) ->
  sound W (tunnel_try_activate sched tunnel) anything.
Proof. intros Hsched. unfold tunnel_try_activate. sound_auto. Qed.

Lemma sound_tunnel_activate_switch tunnel result :
  sound W (tunnel_activate_switch tunnel result) anything.
Proof. unfold tunnel_activate_switch. sound_auto; done. Qed.

Hint Resolve sound_tunnel_try_activate sound_tunnel_activate_switch : sound.

Lemma sound_tunnel_activate sched wait tunnel :
  (forall k, keeps_weights (att_during_open (sched k)) /\
             keeps_weights (att_during_sleep (sched k))) ->
  keeps_weights wait ->
  sound W (tunnel_activate sched wait tunnel) anything.
Proof. intros Hsched Hwait. unfold tunnel_activate. sound_auto. Qed.

Lemma sound_tunnel_add url : sound W (tunnel_add url) anything.
Proof. unfold tunnel_add. sound_auto; done. Qed.

Lemma sound_tunnel_delete url : sound W (tunnel_delete url) anything.
Proof. unfold tunnel_delete. sound_auto; done. Qed.

(** The HTML pages read the records only. *)
Lemma sound_html_loop ts buff : sound W (html_loop ts buff) anything.
Proof.
  revert buff. induction ts as [|p ts IH]; intros buff;
    cbn [html_loop]; sound_auto.
Qed.

Hint Resolve sound_html_loop : sound.

Lemma sound_tunnel_html buff s : sound W (tunnel_html buff s) anything.
Proof. unfold tunnel_html. sound_auto. Qed.

(** The reconnect threads. *)
Lemma sound_reconnect_manager_scan ts currtime :
  sound W (reconnect_manager_scan ts currtime) anything.
Proof.
  induction ts as [|p ts IH]; cbn [reconnect_manager_scan]; sound_auto;
    done.
Qed.

Hint Resolve sound_reconnect_manager_scan : sound.

Lemma sound_reconnect_manager_round others :
  keeps_weights others ->
  sound W (reconnect_manager_round others) anything.
Proof. intros Hothers. unfold reconnect_manager_round. sound_auto. Qed.

Lemma sound_tunnel_reconnect_manager fuel others k :
  (forall k, keeps_weights (others k)) ->
  sound W (tunnel_reconnect_manager fuel others k) anything.
Proof.
  intros Hothers. revert k. induction fuel as [|fuel IH]; intros k;
    cbn [tunnel_reconnect_manager]; [sound_auto|].
  eapply sound_bind with (P := anything);
    [by apply sound_reconnect_manager_round | intros _ _; apply IH].
Qed.

Lemma sound_tunnel_set_delete_freed s :
  sound W (tunnel_set_delete_freed s) anything.
Proof. unfold tunnel_set_delete_freed. sound_auto. Qed.

Hint Resolve sound_tunnel_set_delete_freed : sound.

Lemma sound_tunnel_reconnect_success tunnel :
  sound W (tunnel_reconnect_success tunnel) anything.
Proof. unfold tunnel_reconnect_success. sound_auto; done. Qed.

Lemma sound_tunnel_reconnect_failure tunnel :
  sound W (tunnel_reconnect_failure tunnel) anything.
Proof. unfold tunnel_reconnect_failure. sound_auto; done. Qed.

Hint Resolve sound_tunnel_reconnect_success sound_tunnel_reconnect_failure
  : sound.

Lemma sound_tunnel_reconnect sched wait url :
  (forall k, keeps_weights (att_during_open (sched k)) /\
             keeps_weights (att_during_sleep (sched k))) ->
  keeps_weights wait ->
  sound W (tunnel_reconnect sched wait url) anything.
Proof.
  intros Hsched Hwait. unfold tunnel_reconnect.
  eapply sound_bind with (P := anything);
    [apply sound_tunnel_create; exact W_one | intros tunnel _].
  sound_auto; done.
Qed.

End SoundOperations.

(** *** The operations of the module, one after the other *)

Section Operations.
Context {D : Type} {dbl : Double D} {ext : Extern}.

(** The driver answers [answers k] to the [k]-th call of
    [cktp_open_tunnel]; no other thread runs meanwhile. *)
Definition undisturbed (answers : nat -> cktp_tunnel_t)
  : nat -> attempt (D := D) :=
  fun k => {| att_open := answers k; att_during_open := alone;
              att_during_sleep := alone |}.

(** The functions of tunnel.c, those that are called from outside or run
    as a thread and the static ones they call; each runs to its end
    before the next.  The manager threads, which may loop for ever, run
    for [fuel] rounds. *)
Inductive operation :=
  | op_tunnel_html (buff : http_buffer_t) (tunnel_set : tunnel_set_t)
  | op_tunnel_active_html (buff : http_buffer_t)
  | op_tunnel_all_html (buff : http_buffer_t)
  | op_tunnel_set_insert (tunnel_set : tunnel_set_t) (tunnel : tunnel_t)
  | op_tunnel_set_replace (tunnel_set : tunnel_set_t) (tunnel : tunnel_t)
  | op_tunnel_set_delete (tunnel_set : tunnel_set_t) (url : cstring)
  | op_tunnel_set_lookup (tunnel_set : tunnel_set_t) (url : cstring)
  | op_tunnel_reconnect_manager (fuel : nat)
  | op_tunnel_reconnect (answers : nat -> cktp_tunnel_t) (url : cstring)
  | op_tunnel_init
  | op_tunnel_file_read
  | op_tunnel_file_write
  | op_tunnel_open
  | op_tunnel_ready
  | op_tunnel_add (url : cstring)
  | op_tunnel_delete (url : cstring)
  | op_tunnel_packets (packet : list Z) (packets : list (list Z))
      (hash repeat config_mtu : Z)
  | op_tunnel_get (hash repeat : Z)
  | op_tunnel_activate_manager (fuel : nat)
  | op_tunnel_activate (answers : nat -> cktp_tunnel_t) (tunnel : tunnel_t)
  | op_tunnel_try_activate (answers : nat -> cktp_tunnel_t) (tunnel : tunnel_t)
  | op_tunnel_activate_switch (tunnel : tunnel_t) (result : bool)
  | op_tunnel_create (url : cstring) (age : Z)
  | op_tunnel_free (tunnel : tunnel_t).

Definition forget {A} (m : prog D A) : prog D unit :=
  bind m (fun _ => ret tt).

Definition run (o : operation) : prog D unit :=
  match o with
  | op_tunnel_html buff tunnel_set => forget (tunnel_html buff tunnel_set)
  | op_tunnel_active_html buff => forget (tunnel_active_html buff)
  | op_tunnel_all_html buff => forget (tunnel_all_html buff)
  | op_tunnel_set_insert tunnel_set tunnel =>
      tunnel_set_insert tunnel_set tunnel
  | op_tunnel_set_replace tunnel_set tunnel =>
      forget (tunnel_set_replace tunnel_set tunnel)
  | op_tunnel_set_delete tunnel_set url =>
      forget (tunnel_set_delete tunnel_set url)
  | op_tunnel_set_lookup tunnel_set url =>
      forget (tunnel_set_lookup tunnel_set url)
  | op_tunnel_reconnect_manager fuel =>
      tunnel_reconnect_manager fuel (fun _ => alone) 0
  | op_tunnel_reconnect answers url =>
      tunnel_reconnect (undisturbed answers) alone url
  | op_tunnel_init => tunnel_init
  | op_tunnel_file_read => tunnel_file_read
  | op_tunnel_file_write => tunnel_file_write
  | op_tunnel_open => tunnel_open
  | op_tunnel_ready => forget tunnel_ready
  | op_tunnel_add url => tunnel_add url
  | op_tunnel_delete url => tunnel_delete url
  | op_tunnel_packets packet packets hash repeat config_mtu =>
      forget (tunnel_packets packet packets hash repeat config_mtu)
  | op_tunnel_get hash repeat => forget (tunnel_get hash repeat)
  | op_tunnel_activate_manager fuel =>
      forget (tunnel_activate_manager fuel (fun _ => alone) 0)
  | op_tunnel_activate answers tunnel =>
      tunnel_activate (undisturbed answers) alone tunnel
  | op_tunnel_try_activate answers tunnel =>
      forget (tunnel_try_activate (undisturbed answers) tunnel)
  | op_tunnel_activate_switch tunnel result =>
      tunnel_activate_switch tunnel result
  | op_tunnel_create url age => forget (tunnel_create url age)
  | op_tunnel_free tunnel => tunnel_free (Some tunnel)
  end.

Fixpoint run_all (ops : list operation) : prog D unit :=
  match ops with
  | [] => ret tt
  | o :: ops => bind (run o) (fun _ => run_all ops)
  end.

Variable W : D -> Prop.
Hypothesis W_one : W d_1.
Hypothesis W_punish : forall w, W w -> W (punish w).
Hypothesis W_reward : forall w, W w -> W (reward w).

Lemma keeps_weights_alone : keeps_weights W alone.
Proof. by intros st Hst. Qed.

Lemma sound_run o : sound W (run o) anything.
Proof.
  pose proof keeps_weights_alone as Halone.
  destruct o; cbn [run]; unfold forget.
  all: eauto using sound_tunnel_init, sound_tunnel_file_read,
         sound_tunnel_file_write, sound_tunnel_open, sound_tunnel_add,
         sound_tunnel_delete, sound_tunnel_activate_switch, sound_tunnel_free,
         sound_tunnel_set_insert.
  all: try (eapply sound_bind with (P := anything);
            [|intros; by apply sound_ret]).
  - apply sound_tunnel_html.
  - apply sound_tunnel_html.
  - apply sound_tunnel_html.
  - apply sound_tunnel_set_replace.
  - apply sound_tunnel_set_delete.
  - apply sound_tunnel_set_lookup.
  - by apply sound_tunnel_reconnect_manager.
  - by apply sound_tunnel_reconnect.
  - apply sound_tunnel_ready.
  - by apply sound_tunnel_packets.
  - by apply sound_tunnel_get.
  - by apply sound_tunnel_activate_manager.
  - by apply sound_tunnel_activate.
  - by apply sound_tunnel_try_activate.
  - by apply sound_tunnel_create.
Qed.

Lemma sound_run_all ops : sound W (run_all ops) anything.
Proof.
  induction ops as [|o ops IH]; cbn [run_all].
  - by apply sound_ret.
  - eapply sound_bind; [apply sound_run | intros; exact IH].
Qed.

End Operations.

(** *** The range [0.005, 1.0] in exact arithmetic *)

Lemma in_range_exact (w : Q) : in_range w <-> (1 # 200 <= w)%Q /\ (w <= 1)%Q.
Proof.
  unfold in_range. cbn [d_leb d_0_005 d_1 Q_Double].
  by rewrite !Qle_bool_iff.
Qed.

Lemma Qltb_true (x y : Q) : Qltb x y = true <-> (x < y)%Q.
Proof.
  unfold Qltb. rewrite negb_true_iff, <- not_true_iff_false, Qle_bool_iff.
  split; [apply Qnot_le_lt | apply Qlt_not_le].
Qed.

Lemma Qltb_false (x y : Q) : Qltb x y = false <-> (y <= x)%Q.
Proof. unfold Qltb. by rewrite negb_false_iff, Qle_bool_iff. Qed.

(** The punishment multiplies by 0.75 and clamps below at 0.005. *)
Lemma punish_exact (w : Q) :
  (punish w == Qmax (w * (3 # 4)) (1 # 200))%Q.
Proof.
  unfold punish; cbn [d_mul d_ltb d_0_75 d_0_005 Q_Double].
  destruct (Qltb (w * (3 # 4)) (1 # 200)) eqn:Hlt.
  - apply Qltb_true in Hlt. symmetry. apply Q.max_r. by apply Qlt_le_weak.
  - apply Qltb_false in Hlt. symmetry. by apply Q.max_l.
Qed.

(** The reward multiplies by 1.15 and clamps above at 1.0. *)
Lemma reward_exact (w : Q) :
  (reward w == Qmin (w * (23 # 20)) 1)%Q.
Proof.
  unfold reward; cbn [d_mul d_add d_ltb d_0_15 d_1 Q_Double].
  assert (Hw : (w + (3 # 20) * w == w * (23 # 20))%Q) by ring.
  destruct (Qltb 1 (w + (3 # 20) * w)) eqn:Hlt.
  - apply Qltb_true in Hlt. rewrite Hw in Hlt. symmetry.
    apply Q.min_r. by apply Qlt_le_weak.
  - apply Qltb_false in Hlt. rewrite Hw in *. symmetry. by apply Q.min_l.
Qed.

Lemma in_range_one_exact : in_range (d_1 : Q).
Proof. split; reflexivity. Qed.

Lemma in_range_punish_exact (w : Q) : in_range w -> in_range (punish w).
Proof.
  rewrite !in_range_exact. intros [Hlo Hhi]. rewrite punish_exact. split.
  - apply Q.le_max_r.
  - apply Q.max_lub; [|discriminate].
    apply Qle_trans with (w * 1)%Q; [|rewrite Qmult_1_r; exact Hhi].
    rewrite !(Qmult_comm w). apply Qmult_le_compat_r; [discriminate|].
    apply Qle_trans with (1 # 200)%Q; [discriminate | exact Hlo].
Qed.

Lemma in_range_reward_exact (w : Q) : in_range w -> in_range (reward w).
Proof.
  rewrite !in_range_exact. intros [Hlo Hhi]. rewrite reward_exact. split.
  - apply Q.min_glb; [|discriminate].
    apply Qle_trans with w; [exact Hlo|].
    apply Qle_trans with (w * 1)%Q; [rewrite Qmult_1_r; apply Qle_refl|].
    rewrite !(Qmult_comm w). apply Qmult_le_compat_r; [discriminate|].
    apply Qle_trans with (1 # 200)%Q; [discriminate | exact Hlo].
  - apply Q.le_min_r.
Qed.

(** Every record of the heap has a weight in [0.005, 1.0]. *)
Definition weights_in_range {D : Type} {dbl : Double D}
    (st : tunnels_state D) : Prop :=
  weights_ok in_range st.

Section InRange.
Context {ext : Extern}.

(** C3.  Every weight lies in [0.005, 1.0] after every operation, in
    binary64, the arithmetic of the program: no record exists before
    [tunnel_init]; a record is created with the weight 1.0; the
    punishment and the reward of the selector, with their rounding, keep
    a weight in the range; and a run of functions of the module, in any
    order and with any arguments (calls of the selector and the reconnect
    threads among them), that starts with all weights in the range ends,
    when it ends, with all weights in the range.  In exact arithmetic the
    punishment is max (0.75 w, 0.005) and the reward is min (1.15 w, 1.0),
    and the same holds. *)
Theorem weights_stay_in_range :
  (forall f, weights_in_range (initial_state f : tunnels_state float)) /\
  (forall url age (st st' : tunnels_state float) tunnel,
     tunnel_create url age st = Done tunnel st' ->
     t_weight <$> heap st' !! tunnel = Some d_1) /\
  (forall w : float,
     in_range w -> in_range (punish w) /\ in_range (reward w)) /\
  (forall (ops : list operation) (st st' : tunnels_state float),
     weights_in_range st ->
     run_all ops st = Done tt st' ->
     weights_in_range st') /\
  (forall w : Q,
     (punish w == Qmax (w * (3 # 4)) (1 # 200))%Q /\
     (reward w == Qmin (w * (23 # 20)) 1)%Q /\
     (in_range w -> in_range (punish w) /\ in_range (reward w))) /\
  (forall (ops : list operation) (st st' : tunnels_state Q),
     weights_in_range st ->
     run_all ops st = Done tt st' ->
     weights_in_range st').
Proof.
  split; [intros f; apply map_Forall_empty|].
  split.
  { intros url age st st' tunnel Hrun. unfold tunnel_create in Hrun.
    unfold_prog. injection Hrun as <- <-. cbn. by rewrite lookup_insert_eq. }
  split.
  { intros w Hw.
    split; [by apply in_range_punish_binary64
           | by apply in_range_reward_binary64]. }
  split.
  { intros ops st st' Hst Hrun.
    pose proof (sound_run_all in_range in_range_one_binary64
                  in_range_punish_binary64 in_range_reward_binary64
                  ops st Hst) as Hsound.
    rewrite Hrun in Hsound. apply Hsound. }
  split.
  { intros w. split; [apply punish_exact|]. split; [apply reward_exact|].
    intros Hw.
    split; [by apply in_range_punish_exact | by apply in_range_reward_exact]. }
  intros ops st st' Hst Hrun.
  pose proof (sound_run_all in_range in_range_one_exact in_range_punish_exact
                in_range_reward_exact ops st Hst) as Hsound.
  rewrite Hrun in Hsound. apply Hsound.
Qed.

End InRange.

Definition sample_run : list operation :=
  [op_tunnel_init;
   op_tunnel_add (cstr "cktp://a");
   op_tunnel_activate (fun _ => Some 1%nat) 0;
   op_tunnel_add (cstr "cktp://b");
   op_tunnel_activate (fun _ => Some 2%nat) 1;
   op_tunnel_get 2000000000 0;
   op_tunnel_get 2000000000 1;
   op_tunnel_get 2000000000 2;
   op_tunnel_packets sample_packet [sample_packet] 2000000000 3 1500;
   op_tunnel_reconnect_manager 2;
   op_tunnel_reconnect (fun _ => Some 3%nat) (cstr "cktp://b");
   op_tunnel_active_html []].

(** A run in binary64 that opens two tunnels, sends a packet four times
    and reconnects the second tunnel: the weight of the first tunnel ends
    at 5826532017910580 * 2^-53 (about 0.646875), the second
    tunnel has a new record of weight 1.0. *)
Lemma weights_stay_in_range_witness :
  exists st' : tunnels_state float,
    run_all sample_run (initial_state (no_files true)) = Done tt st' /\
    weights_in_range st' /\
    map (fmap Prim2SF) (active_weights st')
      = [Some (S754_finite false 5826532017910580 (-53));
         Some (S754_finite false 4503599627370496 (-52))].
Proof.
  exists (state_after (D := float) (run_all sample_run)
            (initial_state (no_files true))).
  assert (Hrun : run_all sample_run (initial_state (no_files true))
                 = Done tt (state_after (D := float) (run_all sample_run)
                              (initial_state (no_files true))))
    by (vm_compute; reflexivity).
  split; [exact Hrun|]. split.
  - apply (proj1 (proj2 (proj2 (proj2 weights_stay_in_range))) sample_run
             (initial_state (no_files true)) _
             (proj1 weights_stay_in_range (no_files true)) Hrun).
  - vm_compute. reflexivity.
Defined.

(** ** The selector in binary64: a sole tunnel and the largest weight hash *)

Section SelectorBinary64.
Context {ext : Extern}.

(** In binary64 the walk of [tunnel_get] passes a sole active tunnel when
    the weight hash is UINT32_MAX, whatever its weight in [0.005, 1.0]:
    the total weight is [0.0 + w = w], [pick] is
    [(UINT32_MAX / UINT32_MAX) * w = 1.0 * w = w] without rounding, so
    [pick >= w] holds, [idx] becomes 1 and the code reads [tunnels[1]],
    one past the end of the active set. *)
Theorem tunnel_get_sole_tunnel_past_the_end (st : tunnels_state float)
    (hash repeat : Z) (tunnel : tunnel_t) (t : tunnel_s float) :
  tunnels (tunnels_active st) = [tunnel] ->
  heap st !! tunnel = Some t ->
  in_range (t_weight t) ->
  weight_hash hash repeat = UINT32_MAX ->
  pick_loop (tunnels (tunnels_active st)) 0 (t_weight t) st
    = Done (1%nat, (t_weight t - t_weight t)%float) st /\
  tunnel_get hash repeat st = Crash OutOfBounds.
Proof.
  intros Hts Ht Hw Hwh.
  destruct (in_range_spec _ Hw) as (m & e & Hs & Hr).
  assert (Hrs : records st (tunnels (tunnels_active st)) [t]).
  { rewrite Hts. by repeat constructor. }
  assert (Hwalk : walk (map t_weight [t]) 0 (t_weight t)
                  = (1%nat, (t_weight t - t_weight t)%float)).
  { cbn [map walk d_leb d_sub binary64_Double].
    by rewrite (leb_refl_binary64 _ m e Hs). }
  split.
  { rewrite (pick_loop_done _ _ [t]) by exact Hrs. by rewrite Hwalk. }
  unfold tunnel_get. unfold bind at 1, get_set at 1.
  destruct (Nat.eqb_spec (length (tunnels (tunnels_active st))) 0) as [H0|_].
  { by rewrite Hts in H0. }
  unfold bind at 1. rewrite (total_weight_loop_done _ _ [t]) by exact Hrs.
  unfold bind at 1. rewrite (pick_loop_done _ _ [t]) by exact Hrs.
  rewrite Hwh.
  change (d_div (d_of_uint32 UINT32_MAX) (d_of_uint32 UINT32_MAX))
    with (d_1 : float).
  cbn [map fold_left d_add d_mul binary64_Double].
  rewrite (add_zero_l_binary64 _ m e Hs).
  rewrite (mul_one_l_binary64 _ m e Hs Hr).
  change (walk [t_weight t] 0 (t_weight t))
    with (walk (map t_weight [t]) 0 (t_weight t)).
  rewrite Hwalk.
  unfold bind at 1, tunnel_at, bind at 1, get_set.
  by rewrite Hts.
Qed.

End SelectorBinary64.

(** One tunnel added and opened, and a packet sent and repeated through
    it; in binary64. *)
Definition one_used : tunnels_state float :=
  state_after (bind (open_one (cstr "cktp://a") 1)
                 (fun _ => bind (tunnel_get 1431655765 0)
                             (fun _ => tunnel_get 1431655765 1)))
    (initial_state (no_files true)).

(** The sole tunnel was punished and rewarded, its weight is about
    0.8625; for the hash 0xffffffff the selector reads past the end of the
    active set. *)
Lemma tunnel_get_sole_tunnel_past_the_end_witness :
  Prim2SF <$> (t_weight <$> heap one_used !! 0%nat)
    = Some (S754_finite false 7768709357214106 (-53)) /\
  tunnel_get 4294967295 0 one_used = Crash OutOfBounds.
Proof.
  split; [vm_compute; reflexivity|].
  apply (tunnel_get_sole_tunnel_past_the_end one_used 4294967295 0 0%nat
           {| t_tunnel := Some 1%nat; t_state := TUNNEL_STATE_OPEN;
              t_reconnect := false; t_id := 0; t_age := 16;
              t_weight := reward (punish (reward d_1));
              t_url := cstr "cktp://a" |}).
  - vm_compute. reflexivity.
  - vm_compute. reflexivity.
  - vm_compute. split; reflexivity.
  - reflexivity.
Defined.

(** ** The cache file: what is written is read back *)

(** *** Characters and numbers *)

Definition space : ascii := " "%char.
Definition newline : ascii := "010"%char.

(** A character that does not end a comment line for [tunnel_file_read]:
    not a newline, and not the byte 255, which a signed [char] cannot tell
    from EOF. *)
Definition comment_char (c : ascii) : Prop :=
  to_char (char_code c) <> 10 /\ to_char (char_code c) <> EOF.

(** A URL that [tunnel_file_read] reads back from a line: not empty, within
    CKTP_MAX_URL_LENGTH, without a space or a NUL, and not starting like a
    blank line or a comment. *)
Definition url_ok `{Extern} (url : cstring) : Prop :=
  url <> [] /\
  (length url <= CKTP_MAX_URL_LENGTH)%nat /\
  (space ∉ url) /\
  ("000"%char ∉ url) /\
  head url <> Some newline /\
  head url <> Some "#"%char.

Lemma to_char_code_inv (c : ascii) : ascii_of_char (to_char (char_code c)) = c.
Proof. destruct c as [[] [] [] [] [] [] [] []]; reflexivity. Qed.

Lemma to_char_code_eq (c d : ascii) :
  to_char (char_code c) = to_char (char_code d) -> c = d.
Proof.
  intros H. rewrite <- (to_char_code_inv c), <- (to_char_code_inv d).
  by rewrite H.
Qed.

Lemma to_char_code_neq (c d : ascii) :
  c <> d -> (to_char (char_code c) =? to_char (char_code d)) = false.
Proof. intros H. apply Z.eqb_neq. intros E. by apply H, to_char_code_eq. Qed.

(** The value of a string of digits, continuing [acc]. *)
Definition digits_value (ds : cstring) (acc : Z) : Z :=
  fold_left (fun a c => a * 10 + (char_code c - 48)) ds acc.

Lemma scan_digits_app (ds rest : cstring) (acc : Z) (n : nat) :
  Forall (fun c => isdigit (char_code c) = true) ds ->
  (forall c rest', rest = c :: rest' -> isdigit (char_code c) = false) ->
  scan_digits (ds ++ rest) acc n
    = (digits_value ds acc, (n + length ds)%nat, rest).
Proof.
  intros Hds Hrest. revert acc n.
  induction Hds as [|d ds Hd _ IH]; intros acc n; cbn [app].
  - rewrite Nat.add_0_r. destruct rest as [|c rest']; [done|].
    cbn [scan_digits]. by rewrite (Hrest c rest').
  - cbn [scan_digits]. rewrite Hd, IH. cbn [length digits_value fold_left].
    do 2 f_equal. lia.
Qed.

(** What [printf ("%u")] prints for a uint8_t is read back by
    [scan_digits]: checked for each of the 256 values. *)
Definition utoa_ok (n : Z) : bool :=
  forallb (fun c => isdigit (char_code c)) (utoa n)
  && (digits_value (utoa n) 0 =? n)
  && negb (length (utoa n) =? 0)%nat.

Lemma utoa_ok_uint8 (n : Z) : 0 <= n <= UINT8_MAX -> utoa_ok n = true.
Proof.
  intros Hn.
  assert (Hall : forallb utoa_ok (map Z.of_nat (seq 0 256)) = true)
    by (vm_compute; reflexivity).
  rewrite forallb_forall in Hall. apply Hall.
  apply in_map_iff. exists (Z.to_nat n). split; [lia|].
  apply in_seq. unfold UINT8_MAX in Hn. lia.
Qed.

(** *** Reading one line *)

Section Reading.
Context {D : Type} {dbl : Double D} {ext : Extern}.

Lemma skip_comment_line (c rest : cstring) (eof : bool) :
  Forall comment_char c ->
  skip_comment (c ++ newline :: rest) eof = {| f_buf := rest; f_eof := eof |}.
Proof.
  induction 1 as [|x c [Hnl Heof] _ IH]; cbn [app skip_comment].
  - reflexivity.
  - apply Z.eqb_neq in Hnl, Heof. by rewrite Hnl, Heof.
Qed.

(** A comment line is skipped. *)
Lemma file_read_loop_comment fuel filename (c rest : cstring) :
  Forall comment_char c ->
  file_read_loop (S fuel) filename
    {| f_buf := "#"%char :: c ++ newline :: rest; f_eof := false |}
  = file_read_loop fuel filename {| f_buf := rest; f_eof := false |}.
Proof.
  intros Hc. cbn [file_read_loop getc f_buf f_eof].
  change (to_char (char_code "#")) with 35. cbn [Z.eqb Pos.eqb andb].
  by rewrite skip_comment_line.
Qed.

(** A blank line is skipped. *)
Lemma file_read_loop_blank fuel filename (rest : cstring) :
  file_read_loop (S fuel) filename
    {| f_buf := newline :: rest; f_eof := false |}
  = file_read_loop fuel filename {| f_buf := rest; f_eof := false |}.
Proof. reflexivity. Qed.

(** The end of the file ends the loop. *)
Lemma file_read_loop_eof fuel filename :
  file_read_loop (S fuel) filename {| f_buf := []; f_eof := false |}
  = (ret tt : prog D unit).
Proof. reflexivity. Qed.

(** The URL of a line is read up to the space that follows it. *)
Lemma url_loop_url (n : nat) (acc : list Z) (c : ascii) (url rest : cstring) :
  (length (c :: url) <= n)%nat ->
  space ∉ c :: url ->
  url_loop n acc (to_char (char_code c))
    {| f_buf := url ++ space :: rest; f_eof := false |}
  = (acc ++ map (fun x => to_char (char_code x)) (c :: url), 32,
     {| f_buf := rest; f_eof := false |}).
Proof.
  revert n acc c. induction url as [|d url IH]; intros n acc c Hn Hsp.
  - destruct n as [|n]; [cbn in Hn; lia|]. cbn [url_loop app].
    assert (Hc : (to_char (char_code c) =? 32) = false).
    { apply (to_char_code_neq c space). intros ->. apply Hsp.
      apply list_elem_of_here. }
    rewrite Hc. cbn [negb andb feof ferror f_eof getc f_buf].
    change (to_char (char_code space)) with 32.
    destruct n; reflexivity.
  - destruct n as [|n]; [cbn in Hn; lia|]. cbn [url_loop app].
    assert (Hc : (to_char (char_code c) =? 32) = false).
    { apply (to_char_code_neq c space). intros ->. apply Hsp.
      apply list_elem_of_here. }
    rewrite Hc. cbn [negb andb feof ferror f_eof getc f_buf].
    rewrite IH.
    + cbn [map]. by rewrite <- app_assoc.
    + cbn [length] in *. lia.
    + intros Hin. apply Hsp. by apply list_elem_of_further.
Qed.

Lemma string_of_chars_url (url : cstring) :
  "000"%char ∉ url ->
  string_of_chars (map (fun x => to_char (char_code x)) url) = url.
Proof.
  induction url as [|c url IH]; intros Hnul; cbn [map string_of_chars].
  - reflexivity.
  - assert (Hc : (to_char (char_code c) =? 0) = false).
    { apply (to_char_code_neq c "000"%char). intros ->. apply Hnul.
      apply list_elem_of_here. }
    rewrite Hc, to_char_code_inv, IH; [done|].
    intros Hin. apply Hnul. by apply list_elem_of_further.
Qed.

(** The age of a line is read up to the newline that follows it. *)
Lemma fscanf_u_age (age : Z) (rest : cstring) :
  0 <= age <= UINT8_MAX ->
  fscanf_u {| f_buf := utoa age ++ newline :: rest; f_eof := false |}
  = (Some age, {| f_buf := newline :: rest; f_eof := false |}).
Proof.
  intros Hage. pose proof (utoa_ok_uint8 age Hage) as Hok.
  unfold utoa_ok in Hok.
  apply andb_prop in Hok as [Hok Hlen]. apply andb_prop in Hok as [Hdig Hval].
  apply Z.eqb_eq in Hval. apply negb_true_iff, Nat.eqb_neq in Hlen.
  rewrite forallb_forall in Hdig.
  assert (Hds : Forall (fun c => isdigit (char_code c) = true) (utoa age)).
  { apply List.Forall_forall. exact Hdig. }
  destruct (utoa age) as [|d ds] eqn:Hutoa; [done|].
  assert (Hd : isdigit (char_code d) = true) by (by inversion Hds).
  unfold fscanf_u. cbn [f_buf f_eof app skip_space].
  assert (Hsp : isspace (char_code d) = false).
  { unfold isdigit, isspace in *. lia. }
  rewrite Hsp.
  assert (Hminus : (char_code d =? 45) = false)
    by (unfold isdigit in Hd; lia).
  assert (Hplus : (char_code d =? 43) = false)
    by (unfold isdigit in Hd; lia).
  rewrite Hminus, Hplus. cbv beta iota zeta.
  change (d :: ds ++ newline :: rest) with ((d :: ds) ++ newline :: rest).
  rewrite (scan_digits_app (d :: ds) (newline :: rest) 0 0 Hds).
  2:{ intros c rest' [= <- _]. reflexivity. }
  rewrite Hval. cbn [length Nat.add].
  unfold UINT8_MAX in Hage.
  destruct (Z.ltb_spec (2 ^ 64 - 1) age) as [?|_]; [lia|].
  unfold uint32. rewrite Z.mod_small by lia.
  rewrite bool_decide_false by done. reflexivity.
Qed.

End Reading.

(** *** Reading the lines of a record *)

Section Lines.
Context {D : Type} {dbl : Double D} {ext : Extern}.
Local Open Scope prog_scope.

(** The (url, age) pair of a record. *)
Definition entry (t : tunnel_s D) : cstring * Z := (t_url t, t_age t).

(** The pairs of the records the pointers [ps] point to. *)
Definition entries_of (st : tunnels_state D) (ps : list tunnel_t)
  : list (option (cstring * Z)) :=
  (fun p => entry <$> heap st !! p) <$> ps.

(** What [tunnel_file_write] prints for a record: ["# AGE = %u\n"] and
    ["%s %u\n\n"]. *)
Definition block (e : cstring * Z) : cstring :=
  (cstr "# AGE = " ++ utoa e.2 ++ nl) ++ (e.1 ++ cstr " " ++ utoa e.2 ++ nl ++ nl).

(** What [tunnel_file_write] prints first. *)
Definition header : cstring :=
  (cstr "# " ++ PROGRAM_NAME_LONG ++ cstr " tunnel cache" ++ nl)
  ++ (cstr "# AUTOMATICALLY GENERATED, DO NOT EDIT" ++ nl ++ nl).

Lemma digit_comment_char (c : ascii) :
  isdigit (char_code c) = true -> comment_char c.
Proof.
  unfold isdigit, comment_char, to_char, EOF. intros H.
  assert (48 <= char_code c <= 57) by lia.
  rewrite Z.mod_small by lia. lia.
Qed.

Lemma utoa_comment (age : Z) :
  0 <= age <= UINT8_MAX -> Forall comment_char (utoa age).
Proof.
  intros Hage. pose proof (utoa_ok_uint8 age Hage) as Hok.
  unfold utoa_ok in Hok.
  apply andb_prop in Hok as [Hok _]. apply andb_prop in Hok as [Hdig _].
  rewrite forallb_forall in Hdig. apply List.Forall_forall.
  intros c Hc. by apply digit_comment_char, Hdig.
Qed.

(** The line of a record is read, the record is created and inserted into
    the cache. *)
Lemma file_read_loop_record fuel filename (url : cstring) (age : Z)
    (rest : cstring) :
  url_ok url -> 0 <= age <= UINT8_MAX ->
  file_read_loop (D := D) (S fuel) filename
    {| f_buf := url ++ space :: utoa age ++ newline :: rest; f_eof := false |}
  = (tunnel <- tunnel_create url age;;
     thread_lock;;
     tunnel_set_insert cache_set tunnel;;
     thread_unlock;;
     file_read_loop fuel filename {| f_buf := rest; f_eof := false |}).
Proof.
  intros (Hne & Hlen & Hsp & Hnul & Hnl & Hhash) Hage.
  destruct url as [|u0 us]; [done|].
  cbn [file_read_loop app getc f_buf f_eof ferror feof orb].
  rewrite andb_false_r.
  assert (H10 : (to_char (char_code u0) =? 10) = false).
  { apply (to_char_code_neq u0 newline). intros ->. by apply Hnl. }
  assert (H35 : (to_char (char_code u0) =? 35) = false).
  { apply (to_char_code_neq u0 "#"%char). intros ->. by apply Hhash. }
  rewrite H10, H35.
  rewrite url_loop_url by done.
  rewrite length_app. cbn [length map Nat.add Nat.eqb orb].
  change (negb (32 =? 32)) with false. cbv iota.
  change (to_char (char_code u0) :: map (fun x => to_char (char_code x)) us)
    with (map (fun x => to_char (char_code x)) (u0 :: us)).
  rewrite app_nil_l, string_of_chars_url by done.
  rewrite fscanf_u_age by done.
  unfold UINT8_MAX in *.
  destruct (Z.ltb_spec 255 age) as [?|_]; [lia|].
  cbn [getc f_buf f_eof].
  change (negb (char_code newline =? 10)) with false. cbv iota.
  unfold uint8. by rewrite Z.mod_small by lia.
Qed.

(** The two lines of a record and the blank line after them. *)
Lemma file_read_loop_block fuel filename (url : cstring) (age : Z)
    (rest : cstring) :
  url_ok url -> 0 <= age <= UINT8_MAX ->
  file_read_loop (D := D) (S (S (S fuel))) filename
    {| f_buf := block (url, age) ++ rest; f_eof := false |}
  = (tunnel <- tunnel_create url age;;
     thread_lock;;
     tunnel_set_insert cache_set tunnel;;
     thread_unlock;;
     file_read_loop fuel filename {| f_buf := rest; f_eof := false |}).
Proof.
  intros Hurl Hage.
  assert (Htext : block (url, age) ++ rest
          = "#"%char :: (cstr " AGE = " ++ utoa age)
              ++ newline :: url ++ space :: utoa age
              ++ newline :: newline :: rest).
  { unfold block, nl. cbn [fst snd cstr list_ascii_of_string app].
    repeat (progress cbn [app] || rewrite <- app_assoc). reflexivity. }
  rewrite Htext, file_read_loop_comment.
  - rewrite file_read_loop_record by done. reflexivity.
  - apply Forall_app. split; [|by apply utoa_comment].
    repeat (constructor; [split; vm_compute; discriminate|]). constructor.
Qed.

End Lines.

(** *** Reading the whole file *)

Section ReadBack.
Context {D : Type} {dbl : Double D} {ext : Extern}.
Local Open Scope prog_scope.

(** What the loop does with a record it has read: the record is allocated
    at the next address and appended to the cache. *)
Lemma load_record_done (url : cstring) (age : Z) (k : prog D unit)
    (st : tunnels_state D) :
  (length url <= CKTP_MAX_URL_LENGTH)%nat ->
  tunnels_lock st = false ->
  exists st',
    (tunnel <- tunnel_create url age;;
     thread_lock;;
     tunnel_set_insert cache_set tunnel;;
     thread_unlock;;
     k) st = k st' /\
    tunnels_lock st' = false /\
    trace st' = trace st /\
    brk st' = S (brk st) /\
    tunnels (tunnels_cache st') = tunnels (tunnels_cache st) ++ [brk st] /\
    entry <$> heap st' !! brk st = Some (url, age) /\
    (forall p, p <> brk st -> heap st' !! p = heap st !! p).
Proof.
  intros Hlen Hlock. unfold tunnel_create. unfold_prog. cbn.
  rewrite Hlock. eexists. split; [reflexivity|]. cbn.
  repeat split.
  - rewrite lookup_insert_eq. cbn. unfold entry, strncpy. cbn.
    by rewrite take_ge.
  - intros p Hp. by rewrite lookup_insert_ne.
Qed.

Definition entry_ok (e : cstring * Z) : Prop :=
  url_ok e.1 /\ 0 <= e.2 <= UINT8_MAX.

(** The loop over the blocks of a list of pairs: for every pair, in the
    order of the list, a record is allocated and appended to the cache;
    nothing is logged. *)
Lemma file_read_loop_blocks filename (es : list (cstring * Z)) :
  forall (fuel : nat) (st : tunnels_state D),
  Forall entry_ok es ->
  tunnels_lock st = false ->
  (3 * length es < fuel)%nat ->
  exists st',
    file_read_loop fuel filename
      {| f_buf := concat (block <$> es); f_eof := false |} st = Done tt st' /\
    tunnels_lock st' = false /\
    trace st' = trace st /\
    brk st' = (brk st + length es)%nat /\
    tunnels (tunnels_cache st')
      = tunnels (tunnels_cache st) ++ seq (brk st) (length es) /\
    entries_of st' (seq (brk st) (length es)) = Some <$> es /\
    (forall p, (p < brk st)%nat -> heap st' !! p = heap st !! p).
Proof.
  induction es as [|[url age] es IH]; intros fuel st Hes Hlock Hfuel.
  - destruct fuel as [|fuel]; [cbn in Hfuel; lia|].
    exists st. cbn [fmap list_fmap concat length seq].
    rewrite file_read_loop_eof, Nat.add_0_r, app_nil_r. done.
  - inversion Hes as [|e es' [Hurl Hage] Hes']; subst. cbn [fst snd] in *.
    cbn [length] in *.
    destruct fuel as [|[|[|fuel]]]; [lia..|].
    cbn [fmap list_fmap concat]. fold (list_fmap _ _ block es).
    rewrite file_read_loop_block by done.
    destruct (load_record_done url age
                (file_read_loop fuel filename
                   {| f_buf := concat (block <$> es); f_eof := false |}) st)
      as (st1 & Hrun & Hlock1 & Htrace1 & Hbrk1 & Hcache1 & Hentry1 & Hheap1);
      [apply Hurl|done|].
    destruct (IH fuel st1 Hes' Hlock1)
      as (st' & Hrun' & Hlock' & Htrace' & Hbrk' & Hcache' & Hentries' & Hheap');
      [lia|].
    exists st'. rewrite Hrun, Hrun'. split; [done|]. split; [done|].
    split; [congruence|]. split; [lia|].
    rewrite Hbrk1 in *. split; [|split].
    + rewrite Hcache', Hcache1, <- app_assoc. reflexivity.
    + cbn [seq]. unfold entries_of in *. cbn [fmap list_fmap].
      fold (list_fmap _ _ (fun p => entry <$> heap st' !! p)
              (seq (S (brk st)) (length es))).
      fold (list_fmap _ _ (@Some (cstring * Z)) es).
      rewrite Hentries', Hheap', Hentry1 by lia. reflexivity.
    + intros p Hp. rewrite Hheap', Hheap1 by lia. reflexivity.
Qed.

Lemma block_length (es : list (cstring * Z)) :
  (3 * length es <= length (concat (block <$> es)))%nat.
Proof.
  induction es as [|e es IH]; [done|].
  cbn [fmap list_fmap concat length]. fold (list_fmap _ _ block es).
  unfold block at 1. rewrite !length_app. cbn [cstr list_ascii_of_string length].
  lia.
Qed.

(** The header is skipped: two comment lines and a blank line. *)
Lemma file_read_loop_header fuel filename (rest : cstring) :
  Forall comment_char PROGRAM_NAME_LONG ->
  file_read_loop (D := D) (S (S (S fuel))) filename
    {| f_buf := header ++ rest; f_eof := false |}
  = file_read_loop fuel filename {| f_buf := rest; f_eof := false |}.
Proof.
  intros Hname.
  assert (Htext : header ++ rest
          = "#"%char :: (space :: PROGRAM_NAME_LONG ++ cstr " tunnel cache")
              ++ newline
              :: "#"%char :: cstr " AUTOMATICALLY GENERATED, DO NOT EDIT"
              ++ newline :: newline :: rest).
  { unfold header, nl. cbn [cstr list_ascii_of_string].
    repeat (progress cbn [app] || rewrite <- app_assoc). reflexivity. }
  rewrite Htext, file_read_loop_comment.
  - rewrite file_read_loop_comment; [reflexivity|].
    repeat (constructor; [split; vm_compute; discriminate|]). constructor.
  - constructor; [split; vm_compute; discriminate|].
    apply Forall_app. split; [done|].
    repeat (constructor; [split; vm_compute; discriminate|]). constructor.
Qed.

End ReadBack.

(** *** Writing the file *)

Section RoundTrip.
Context {D : Type} {dbl : Double D} {ext : Extern}.
Local Open Scope prog_scope.

(** The records [tunnel_file_write] prints: [tunnel->age != 0]. *)
Definition saved (rs : list (tunnel_s D)) : list (cstring * Z) :=
  entry <$> filter (fun t => t_age t <> 0) rs.

(** The loop prints the block of every record of age other than 0, in the
    order of the cache, and changes nothing. *)
Lemma file_write_loop_done (st : tunnels_state D) ts rs :
  records st ts rs ->
  forall out,
    file_write_loop ts out st = Done (out ++ concat (block <$> saved rs)) st.
Proof.
  unfold saved.
  induction 1 as [|tunnel t ts rs Ht _ IH]; intros out.
  - cbn. by rewrite app_nil_r.
  - cbn [file_write_loop]. unfold bind at 1, deref. rewrite Ht.
    destruct (Z.eqb_spec (t_age t) 0) as [Hage|Hage]; cbn [negb].
    + rewrite filter_cons_False by (intros ?; done). apply IH.
    + rewrite filter_cons_True by done. rewrite IH.
      cbn [fmap list_fmap concat].
      fold (list_fmap _ _ block (entry <$> filter (fun t => t_age t <> 0) rs)).
      unfold block at 2, entry at 2. cbn [fst snd].
      by rewrite <- !app_assoc.
Qed.

(** [tunnel_file_write], when the mutex is free and the temporary file can
    be opened: the cache file holds the header and the blocks, the mutex is
    free again, the cache is as it was. *)
Lemma tunnel_file_write_done (st : tunnels_state D) rs :
  tunnels_lock st = false ->
  tmp_writable (fs st) = true ->
  records st (tunnels (tunnels_cache st)) rs ->
  exists st',
    tunnel_file_write st = Done tt st' /\
    tunnels_lock st' = false /\
    file_primary (fs st') = Some (header ++ concat (block <$> saved rs)) /\
    tunnels_cache st' = tunnels_cache st /\
    heap st' = heap st.
Proof.
  intros Hlock Hw Hrs.
  unfold tunnel_file_write. unfold remove_file, rename. unfold_prog.
  rewrite Hlock.
  destruct WINDOWS; cbn;
    destruct (file_primary (fs st)); cbn; rewrite Hw; cbn;
    (erewrite file_write_loop_done by exact Hrs);
    cbn; eexists; (split; [reflexivity|]); done.
Qed.

Lemma header_length : (3 <= length header)%nat.
Proof.
  unfold header. rewrite !length_app.
  cbn [cstr list_ascii_of_string length]. lia.
Qed.

(** [tunnel_file_read] of a cache file that holds the header and the blocks
    of [es]. *)
Lemma tunnel_file_read_done (st : tunnels_state D) (es : list (cstring * Z)) :
  Forall comment_char PROGRAM_NAME_LONG ->
  Forall entry_ok es ->
  tunnels_lock st = false ->
  file_primary (fs st) = Some (header ++ concat (block <$> es)) ->
  exists st',
    tunnel_file_read st = Done tt st' /\
    tunnels_lock st' = false /\
    trace st' = trace st /\
    tunnels (tunnels_cache st')
      = tunnels (tunnels_cache st) ++ seq (brk st) (length es) /\
    entries_of st' (seq (brk st) (length es)) = Some <$> es /\
    (forall p, (p < brk st)%nat -> heap st' !! p = heap st !! p).
Proof.
  intros Hname Hes Hlock Hfile.
  unfold tunnel_file_read. unfold bind at 1, get_state.
  cbn [file_content]. rewrite Hfile.
  pose proof header_length as Hh. pose proof (block_length es) as Hb.
  rewrite length_app.
  destruct (length header) as [|[|[|n]]] eqn:Hlen; [lia..|].
  cbn [Nat.add].
  replace (S (S (S (S (n + length (concat (block <$> es)))))))
    with (S (S (S (S n + length (concat (block <$> es)))))) by lia.
  rewrite file_read_loop_header by done.
  destruct (file_read_loop_blocks TUNNELS_FILE es
              (S n + length (concat (block <$> es))) st Hes Hlock)
    as (st' & Hrun & Hlock' & Htrace' & _ & Hcache' & Hentries' & Hheap');
    [lia|].
  exists st'. done.
Qed.

End RoundTrip.

Section RoundTripTheorem.
Context {D : Type} {dbl : Double D} {ext : Extern}.

(** C7.  Writing the cache with [tunnel_file_write] and reading the file
    back with [tunnel_file_read] gives the (url, age) pairs of the cache
    records whose age was above 0 when the file was written, in the order
    of the cache: the read appends one new record for each of them to the
    cache it reads into, and nothing else; the records of age 0 are not
    written and so not read; the comment lines and the blank lines of the
    file are skipped, no warning is logged.  The mutex is free before
    either call, the temporary file can be opened, the program name holds
    no newline, and the URLs of the cache are well formed ([url_ok]) with
    ages within a [uint8_t]. *)
Theorem tunnel_file_round_trip (st : tunnels_state D) (rs : list (tunnel_s D)) :
  tunnels_lock st = false ->
  tmp_writable (fs st) = true ->
  Forall comment_char PROGRAM_NAME_LONG ->
  records st (tunnels (tunnels_cache st)) rs ->
  Forall (fun t => url_ok (t_url t) /\ 0 <= t_age t <= UINT8_MAX) rs ->
  exists st1,
    tunnel_file_write st = Done tt st1 /\
    tunnels_cache st1 = tunnels_cache st /\
    forall st2 : tunnels_state D,
      file_primary (fs st2) = file_primary (fs st1) ->
      tunnels_lock st2 = false ->
      exists st3 ps,
        tunnel_file_read st2 = Done tt st3 /\
        trace st3 = trace st2 /\
        tunnels (tunnels_cache st3) = tunnels (tunnels_cache st2) ++ ps /\
        entries_of st3 ps
          = Some <$> (entry <$> filter (fun t => 0 < t_age t) rs) /\
        (forall p, (p < brk st2)%nat -> heap st3 !! p = heap st2 !! p).
Proof.
  intros Hlock Hw Hname Hrs Hok.
  destruct (tunnel_file_write_done st rs Hlock Hw Hrs)
    as (st1 & Hwrite & _ & Hfile & Hcache & _).
  exists st1. split; [done|]. split; [done|].
  intros st2 Hfile2 Hlock2. rewrite Hfile in Hfile2.
  assert (Hsaved : saved rs = entry <$> filter (fun t => 0 < t_age t) rs).
  { unfold saved. f_equal. apply filter_ext_elem. intros t Ht.
    rewrite Forall_forall in Hok. destruct (Hok t Ht) as [_ Hage]. lia. }
  assert (Hes : Forall entry_ok (saved rs)).
  { unfold saved. apply Forall_forall. intros e He.
    apply list_elem_of_fmap in He as (t & -> & Ht).
    apply list_elem_of_filter in Ht as [_ Ht].
    rewrite Forall_forall in Hok. exact (Hok t Ht). }
  destruct (tunnel_file_read_done st2 (saved rs) Hname Hes Hlock2 Hfile2)
    as (st3 & Hread & _ & Htrace & Hcache3 & Hentries & Hheap).
  exists st3, (seq (brk st2) (length (saved rs))).
  rewrite <- Hsaved. done.
Qed.

End RoundTripTheorem.

(** A cache of three records read from a file; the second one has aged
    to 0. *)
Definition sample_cache : tunnels_state float :=
  state_after (assign 1%nat (set_t_age 0)) (cold_start 3).

Definition sample_cache_records : list (tunnel_s float) :=
  omap (fun tunnel => heap sample_cache !! tunnel)
       (tunnels (tunnels_cache sample_cache)).

Lemma tunnel_file_round_trip_witness :
  exists st1,
    tunnel_file_write sample_cache = Done tt st1 /\
    tunnels_cache st1 = tunnels_cache sample_cache /\
    forall st2 : tunnels_state float,
      file_primary (fs st2) = file_primary (fs st1) ->
      tunnels_lock st2 = false ->
      exists st3 ps,
        tunnel_file_read st2 = Done tt st3 /\
        trace st3 = trace st2 /\
        tunnels (tunnels_cache st3) = tunnels (tunnels_cache st2) ++ ps /\
        entries_of st3 ps
          = [Some (cstr "cktp://a", 16); Some (cstr "cktp://c", 16)] /\
        (forall p, (p < brk st2)%nat -> heap st3 !! p = heap st2 !! p).
Proof.
  apply (tunnel_file_round_trip sample_cache sample_cache_records).
  - reflexivity.
  - reflexivity.
  - repeat (constructor; [split; vm_compute; discriminate|]). constructor.
  - vm_compute. repeat constructor.
  - vm_compute. repeat constructor; try discriminate; try lia;
      intros Hin; apply (proj1 (list_elem_of_In _ _)) in Hin; cbn in Hin;
      intuition discriminate.
Defined.

(** ** The sets of tunnels *)

Section Sets.
Context {D : Type} {dbl : Double D} {ext : Extern}.
Local Open Scope prog_scope.

(** [*tunnel_set] *)
Definition the_set (tunnel_set : tunnel_set_t) (st : tunnels_state D)
  : tunnel_set_s :=
  match tunnel_set with
  | cache_set => tunnels_cache st
  | active_set => tunnels_active st
  end.

Definition with_set (tunnel_set : tunnel_set_t) (v : tunnel_set_s)
    (st : tunnels_state D) : tunnels_state D :=
  match tunnel_set with
  | cache_set => with_cache v st
  | active_set => with_active v st
  end.

(** The set without its slot [i]. *)
Definition set_remove (s : tunnel_set_s) (i : nat) : tunnel_set_s :=
  {| tunnels := delete i (tunnels s); set_size := set_size s |}.

(** The array is large enough for the set. *)
Definition set_ok (s : tunnel_set_s) : Prop :=
  (length (tunnels s) <= set_size s)%nat.

Lemma records_allocated (st : tunnels_state D) ts rs :
  records st ts rs -> Forall (fun tunnel => is_Some (heap st !! tunnel)) ts.
Proof. induction 1; constructor; eauto. Qed.

(** The first record that has the URL [url] is found. *)
Lemma list_find_url_first (st : tunnels_state D) ts rs url i t :
  records st ts rs ->
  rs !! i = Some t ->
  t_url t = url ->
  (forall j t', (j < i)%nat -> rs !! j = Some t' -> t_url t' <> url) ->
  exists tunnel,
    ts !! i = Some tunnel /\
    list_find (url_is st url) ts = Some (i, tunnel).
Proof.
  intros Hrs Hi Hurl Hfirst.
  destruct (Forall2_lookup_r _ _ _ _ _ Hrs Hi) as (tunnel & Htunnel & Ht).
  exists tunnel. split; [done|]. apply list_find_Some.
  split; [done|]. split.
  - unfold url_is. rewrite Ht. cbn. by rewrite Hurl.
  - intros j q Hq Hj Hu.
    destruct (Forall2_lookup_l _ _ _ _ _ Hrs Hq) as (t' & Ht' & Hq').
    unfold url_is in Hu. rewrite Hq' in Hu. cbn in Hu.
    apply (Hfirst j t' Hj Ht'). congruence.
Qed.

(** No record has the URL [url]: none is found. *)
Lemma list_find_url_none (st : tunnels_state D) ts rs url :
  records st ts rs ->
  url ∉ t_url <$> rs ->
  list_find (url_is st url) ts = None.
Proof.
  intros Hrs Hurl. apply list_find_None, Forall_forall.
  intros tunnel Htunnel Hu.
  apply list_elem_of_lookup in Htunnel as [j Hj].
  destruct (Forall2_lookup_l _ _ _ _ _ Hrs Hj) as (t & Ht & Hq).
  unfold url_is in Hu. rewrite Hq in Hu. cbn in Hu.
  apply Hurl. apply list_elem_of_fmap. exists t. split; [congruence|].
  apply list_elem_of_lookup. eauto.
Qed.

Lemma tunnel_set_lookup_done (st : tunnels_state D) tunnel_set url :
  Forall (fun tunnel => is_Some (heap st !! tunnel))
    (tunnels (the_set tunnel_set st)) ->
  tunnel_set_lookup tunnel_set url st =
    Done (match list_find (url_is st url) (tunnels (the_set tunnel_set st)) with
          | Some (i, _) => Z.of_nat i
          | None => -1
          end) st.
Proof.
  intros Halloc. unfold tunnel_set_lookup, bind at 1, get_set at 1.
  fold (the_set tunnel_set st). unfold bind at 1.
  rewrite find_url_done by exact Halloc.
  destruct (list_find _ _) as [[i p]|]; reflexivity.
Qed.

Lemma tunnel_set_delete_done (st : tunnels_state D) tunnel_set url :
  Forall (fun tunnel => is_Some (heap st !! tunnel))
    (tunnels (the_set tunnel_set st)) ->
  tunnel_set_delete tunnel_set url st =
    match list_find (url_is st url) (tunnels (the_set tunnel_set st)) with
    | Some (i, tunnel) =>
        Done (Some tunnel)
          (with_set tunnel_set (set_remove (the_set tunnel_set st) i) st)
    | None => Done None st
    end.
Proof.
  intros Halloc. unfold tunnel_set_delete, bind at 1, get_set at 1.
  fold (the_set tunnel_set st). unfold bind at 1.
  rewrite find_url_done by exact Halloc.
  destruct (list_find _ _) as [[i p]|] eqn:Hfind; [|reflexivity].
  apply list_find_Some in Hfind as (Hp & _ & _).
  cbn [fmap option_fmap option_map fst Nat.add].
  unfold tunnel_at. unfold_prog. fold (the_set tunnel_set st).
  rewrite Hp. destruct tunnel_set; reflexivity.
Qed.

Lemma tunnel_set_replace_done (st : tunnels_state D) tunnel_set tunnel t :
  Forall (fun tunnel => is_Some (heap st !! tunnel))
    (tunnels (the_set tunnel_set st)) ->
  heap st !! tunnel = Some t ->
  tunnel_set_replace tunnel_set tunnel st =
    match list_find (url_is st (t_url t)) (tunnels (the_set tunnel_set st)) with
    | Some (i, tunnel_old) =>
        Done (Some tunnel_old)
          (with_set tunnel_set
             {| tunnels := <[i := tunnel]> (tunnels (the_set tunnel_set st));
                set_size := set_size (the_set tunnel_set st) |} st)
    | None => Done None st
    end.
Proof.
  intros Halloc Ht. unfold tunnel_set_replace, bind at 1, get_set at 1.
  fold (the_set tunnel_set st).
  destruct (tunnels (the_set tunnel_set st)) as [|p ts] eqn:Hts;
    [reflexivity|].
  unfold bind at 1, deref at 1. rewrite Ht. unfold bind at 1.
  rewrite find_url_done by exact Halloc.
  destruct (list_find _ _) as [[i q]|] eqn:Hfind; [|reflexivity].
  apply list_find_Some in Hfind as (Hq & _ & _).
  cbn [fmap option_fmap option_map fst Nat.add].
  unfold tunnel_at. unfold_prog. fold (the_set tunnel_set st).
  rewrite Hts, Hq. destruct tunnel_set; reflexivity.
Qed.

End Sets.

Section SetTheorems.
Context {D : Type} {dbl : Double D} {ext : Extern}.
Local Open Scope prog_scope.

Lemma heap_with_set (st : tunnels_state D) tunnel_set v :
  heap (with_set tunnel_set v st) = heap st.
Proof. by destruct tunnel_set. Qed.

Lemma the_set_with_set (st : tunnels_state D) tunnel_set v :
  the_set tunnel_set (with_set tunnel_set v st) = v.
Proof. by destruct tunnel_set. Qed.

Lemma records_with_set (st : tunnels_state D) tunnel_set v ts rs :
  records (with_set tunnel_set v st) ts rs <-> records st ts rs.
Proof. unfold records. by rewrite heap_with_set. Qed.

Lemma list_find_with_set (st : tunnels_state D) tunnel_set v url ts :
  list_find (url_is (with_set tunnel_set v st) url) ts
  = list_find (url_is st url) ts.
Proof. by destruct tunnel_set. Qed.

(** [find_url] reads only. *)
Lemma find_url_state (st st1 : tunnels_state D) ts i0 url r :
  find_url ts i0 url st = Done r st1 -> st1 = st.
Proof.
  revert i0. induction ts as [|p ts IH]; intros i0 H; cbn in H.
  - unfold ret in H. congruence.
  - unfold bind, deref in H. destruct (heap st !! p); [|done].
    destruct (streq _ _); [unfold ret in H; congruence|]. eauto.
Qed.

Lemma tunnel_set_insert_done (st : tunnels_state D) tunnel_set tunnel :
  tunnel_set_insert tunnel_set tunnel st =
    Done tt (with_set tunnel_set (set_append (the_set tunnel_set st) tunnel) st).
Proof. by destruct tunnel_set. Qed.

(** Insert, then look up.  A tunnel whose URL no tunnel of the set has is
    found at the index the set had as length, where [tunnel_set_insert]
    stored it; and the index of every other URL is what it was before the
    insertion. *)
Theorem tunnel_set_insert_lookup (st : tunnels_state D) tunnel_set
    (tunnel : tunnel_t) (t : tunnel_s D) (rs : list (tunnel_s D)) :
  records st (tunnels (the_set tunnel_set st)) rs ->
  heap st !! tunnel = Some t ->
  t_url t ∉ t_url <$> rs ->
  let st' := with_set tunnel_set (set_append (the_set tunnel_set st) tunnel) st in
  (tunnel_set_insert tunnel_set tunnel;;
   tunnel_set_lookup tunnel_set (t_url t)) st
    = Done (Z.of_nat (length rs)) st' /\
  tunnel_at tunnel_set (length rs) st' = Done tunnel st' /\
  (forall url, url <> t_url t ->
     (tunnel_set_insert tunnel_set tunnel;;
      tunnel_set_lookup tunnel_set url) st
     = (idx <- tunnel_set_lookup tunnel_set url;;
        tunnel_set_insert tunnel_set tunnel;;
        ret idx) st).
Proof.
  intros Hrs Ht Hfresh st'.
  pose proof (records_allocated _ _ _ Hrs) as Halloc.
  pose proof (Forall2_length _ _ _ Hrs) as Hlen.
  assert (Hts' : tunnels (the_set tunnel_set st')
                 = tunnels (the_set tunnel_set st) ++ [tunnel]).
  { unfold st'. by rewrite the_set_with_set. }
  assert (Hrs' : records st' (tunnels (the_set tunnel_set st'))
                   (rs ++ [t])).
  { rewrite Hts'. apply records_with_set.
    apply Forall2_app; [done|]. by repeat constructor. }
  pose proof (records_allocated _ _ _ Hrs') as Halloc'.
  split; [|split].
  - unfold bind. rewrite tunnel_set_insert_done. fold st'.
    rewrite tunnel_set_lookup_done by exact Halloc'.
    destruct (list_find_url_first st' _ _ (t_url t) (length rs) t Hrs')
      as (p & Hp & Hfind).
    + by rewrite lookup_app_r, Nat.sub_diag by lia.
    + reflexivity.
    + intros j t' Hj Ht' Hu. apply Hfresh.
      rewrite lookup_app_l in Ht' by done.
      apply list_elem_of_fmap. exists t'. split; [done|].
      apply list_elem_of_lookup. eauto.
    + by rewrite Hfind.
  - unfold tunnel_at, bind, get_set. fold (the_set tunnel_set st').
    rewrite Hts'.
    by rewrite lookup_app_r, Hlen, Nat.sub_diag by lia.
  - intros url Hne. unfold bind.
    rewrite tunnel_set_insert_done. fold st'.
    rewrite tunnel_set_lookup_done by exact Halloc'.
    rewrite tunnel_set_lookup_done by exact Halloc.
    rewrite tunnel_set_insert_done. fold st'. unfold ret. f_equal.
    rewrite Hts'. unfold st'. rewrite list_find_with_set.
    destruct (list_find (url_is st url) (tunnels (the_set tunnel_set st)))
      as [[i p]|] eqn:Hfind.
    + by rewrite (list_find_app_l _ _ _ _ _ Hfind).
    + rewrite list_find_app_r by done. cbn [list_find].
      rewrite decide_False; [done|].
      unfold url_is. rewrite Ht. cbn. congruence.
Qed.

(** [tunnel_set_delete] removes the first tunnel that has the URL and
    returns it: the tunnels before and after it keep their order, the
    record is not freed; and when no tunnel has the URL it returns NULL
    and changes nothing. *)
Theorem tunnel_set_delete_first (st : tunnels_state D) tunnel_set
    (url : cstring) (rs : list (tunnel_s D)) :
  records st (tunnels (the_set tunnel_set st)) rs ->
  (forall i t,
     rs !! i = Some t ->
     t_url t = url ->
     (forall j t', (j < i)%nat -> rs !! j = Some t' -> t_url t' <> url) ->
     exists tunnel st',
       tunnels (the_set tunnel_set st) !! i = Some tunnel /\
       tunnel_set_delete tunnel_set url st = Done (Some tunnel) st' /\
       tunnels (the_set tunnel_set st')
         = take i (tunnels (the_set tunnel_set st))
           ++ drop (S i) (tunnels (the_set tunnel_set st)) /\
       records st' (tunnels (the_set tunnel_set st'))
         (take i rs ++ drop (S i) rs) /\
       heap st' = heap st) /\
  (url ∉ t_url <$> rs ->
   tunnel_set_delete tunnel_set url st = Done None st).
Proof.
  intros Hrs.
  pose proof (records_allocated _ _ _ Hrs) as Halloc.
  split.
  - intros i t Hi Hurl Hfirst.
    destruct (list_find_url_first st _ _ url i t Hrs Hi Hurl Hfirst)
      as (tunnel & Htunnel & Hfind).
    exists tunnel. eexists. split; [done|]. split.
    { rewrite tunnel_set_delete_done by exact Halloc.
      rewrite Hfind. reflexivity. }
    rewrite the_set_with_set, heap_with_set. cbn [set_remove tunnels].
    rewrite delete_take_drop. split; [done|]. split; [|done].
    apply records_with_set.
    apply Forall2_app; [by apply Forall2_take | by apply Forall2_drop].
  - intros Habsent.
    rewrite tunnel_set_delete_done by exact Halloc.
    by rewrite (list_find_url_none _ _ _ _ Hrs Habsent).
Qed.

(** Delete, then look up: when the tunnels of the set have different
    URLs, a URL that was deleted is not found any more. *)
Theorem tunnel_set_delete_lookup (st : tunnels_state D) tunnel_set
    (url : cstring) (rs : list (tunnel_s D)) :
  records st (tunnels (the_set tunnel_set st)) rs ->
  NoDup (t_url <$> rs) ->
  exists st',
    (tunnel_set_delete tunnel_set url;;
     tunnel_set_lookup tunnel_set url) st = Done (-1) st'.
Proof.
  intros Hrs Hnodup.
  pose proof (records_allocated _ _ _ Hrs) as Halloc.
  unfold bind. rewrite tunnel_set_delete_done by exact Halloc.
  destruct (list_find (url_is st url) (tunnels (the_set tunnel_set st)))
    as [[i p]|] eqn:Hfind.
  - eexists.
    apply list_find_Some in Hfind as (Hp & Hu & _).
    destruct (Forall2_lookup_l _ _ _ _ _ Hrs Hp) as (t & Ht & Hpt).
    unfold url_is in Hu. rewrite Hpt in Hu. injection Hu as Hu.
    assert (Hrs' : records
              (with_set tunnel_set (set_remove (the_set tunnel_set st) i) st)
              (delete i (tunnels (the_set tunnel_set st))) (delete i rs)).
    { apply records_with_set. rewrite !delete_take_drop.
      apply Forall2_app; [by apply Forall2_take | by apply Forall2_drop]. }
    rewrite tunnel_set_lookup_done;
      rewrite the_set_with_set; cbn [set_remove tunnels];
      [|by eapply records_allocated].
    rewrite (list_find_url_none _ _ _ url Hrs'); [reflexivity|].
    intros Hin. apply list_elem_of_fmap in Hin as (t' & Hu' & Hin).
    apply list_elem_of_lookup in Hin as [j Hj].
    apply (NoDup_lookup _ i (if decide (j < i)%nat then j else S j) url)
      in Hnodup.
    + destruct (decide (j < i)%nat); lia.
    + by rewrite list_lookup_fmap, Ht, <- Hu.
    + rewrite list_lookup_fmap.
      destruct (decide (j < i)%nat).
      * rewrite list_lookup_delete_lt in Hj by done. by rewrite Hj, Hu'.
      * rewrite list_lookup_delete_ge in Hj by lia. by rewrite Hj, Hu'.
  - exists st. rewrite tunnel_set_lookup_done by exact Halloc.
    by rewrite Hfind.
Qed.

(** The array of a set is 0 or 16 * 2^k slots long and holds the set. *)
Definition set_wf (s : tunnel_set_s) : Prop :=
  set_ok s /\
  (set_size s = 0%nat \/
   exists k : nat, set_size s = (TUNNEL_SET_INIT_SIZE * 2 ^ k)%nat).

(** The array stays large enough.  An empty set is well formed, and
    [tunnel_set_insert], [tunnel_set_delete] and [tunnel_set_replace] keep
    a set well formed; the slot [tunnel_set_insert] writes, at the index
    [length], is inside the array it has (re)allocated. *)
Theorem set_wf_kept (st st' : tunnels_state D) tunnel_set :
  set_wf (the_set tunnel_set st) ->
  (forall tunnel,
     tunnel_set_insert tunnel_set tunnel st = Done tt st' ->
     set_wf (the_set tunnel_set st') /\
     (length (tunnels (the_set tunnel_set st))
      < set_size (the_set tunnel_set st'))%nat) /\
  (forall url r,
     tunnel_set_delete tunnel_set url st = Done r st' ->
     set_wf (the_set tunnel_set st')) /\
  (forall tunnel r,
     tunnel_set_replace tunnel_set tunnel st = Done r st' ->
     set_wf (the_set tunnel_set st')).
Proof.
  intros [Hok Hsize]. unfold set_ok in Hok. split; [|split].
  - intros tunnel Hrun. rewrite tunnel_set_insert_done in Hrun.
    injection Hrun as <-. rewrite the_set_with_set.
    unfold set_wf, set_ok, set_append. cbn [tunnels set_size].
    rewrite length_app. cbn [length].
    destruct (Nat.leb_spec (set_size (the_set tunnel_set st))
                (length (tunnels (the_set tunnel_set st)))) as [Hfull|Hfree].
    + destruct (Nat.eqb_spec (set_size (the_set tunnel_set st)) 0)
        as [Hzero|Hnonzero].
      * unfold TUNNEL_SET_INIT_SIZE. split; [split|]; [lia| |lia].
        right. exists 0%nat. reflexivity.
      * split; [split|]; [lia| |lia].
        right. destruct Hsize as [?|[k Hk]]; [lia|].
        exists (S k). rewrite Hk, Nat.pow_succ_r'. lia.
    + split; [split|]; [lia|done|lia].
  - intros url r Hrun. unfold tunnel_set_delete in Hrun. unfold_prog.
    destruct (find_url _ _ _ _) as [found st1|] eqn:Hfind; [|done].
    apply find_url_state in Hfind as ->.
    destruct found as [i|]; [|by injection Hrun as _ <-].
    assert (Hset : the_set tunnel_set st' = set_remove (the_set tunnel_set st) i).
    { destruct tunnel_set; cbn in Hrun |- *;
        (destruct (_ !! i); [|done]); by injection Hrun as _ <-. }
    rewrite Hset. unfold set_wf, set_ok. cbn [set_remove tunnels set_size].
    split; [|done].
    rewrite delete_take_drop, length_app, length_take, length_drop. lia.
  - intros tunnel r Hrun. unfold tunnel_set_replace in Hrun. unfold_prog.
    fold (the_set tunnel_set st) in Hrun.
    destruct (tunnels (the_set tunnel_set st)) as [|p ts] eqn:Hts.
    { injection Hrun as _ <-. unfold set_wf, set_ok. by rewrite Hts. }
    destruct (heap st !! tunnel) as [t|]; [|done].
    destruct (find_url _ _ _ _) as [found st1|] eqn:Hfind; [|done].
    apply find_url_state in Hfind as ->.
    destruct found as [i|].
    2:{ injection Hrun as _ <-. unfold set_wf, set_ok. by rewrite Hts. }
    assert (Hset : the_set tunnel_set st'
                   = {| tunnels := <[i := tunnel]> (p :: ts);
                        set_size := set_size (the_set tunnel_set st) |}).
    { destruct tunnel_set; cbn in Hts, Hrun |- *; rewrite Hts in Hrun;
        (destruct (_ !! i); [|done]); by injection Hrun as _ <-. }
    rewrite Hset. unfold set_wf, set_ok. cbn [tunnels set_size].
    rewrite length_insert. split; [exact Hok | exact Hsize].
Qed.

End SetTheorems.

(** Two tunnels are open and a third one, cktp://c, has been added: its
    record, at the address 2, is in the cache and not in the active set. *)
Definition two_open_one_added : tunnels_state Q :=
  state_after (tunnel_add (cstr "cktp://c")) two_open.

Definition cache_records (st : tunnels_state Q) : list (tunnel_s Q) :=
  omap (fun tunnel => heap st !! tunnel) (tunnels (tunnels_cache st)).

Lemma tunnel_set_insert_lookup_witness :
  exists st',
    (bind (tunnel_set_insert active_set 2%nat)
       (fun _ => tunnel_set_lookup active_set (cstr "cktp://c")))
      two_open_one_added = Done 2 st' /\
    tunnels (tunnels_active st') = [0; 1; 2]%nat.
Proof.
  eexists. split.
  - apply (tunnel_set_insert_lookup two_open_one_added active_set 2%nat
             {| t_tunnel := None; t_state := TUNNEL_STATE_OPENING;
                t_reconnect := false; t_id := 2; t_age := 16;
                t_weight := 1%Q; t_url := cstr "cktp://c" |}
             (active_records two_open_one_added)).
    + vm_compute. repeat constructor.
    + vm_compute. reflexivity.
    + vm_compute. intros Hin. apply (proj1 (list_elem_of_In _ _)) in Hin.
      cbn in Hin. intuition discriminate.
  - vm_compute. reflexivity.
Defined.

Lemma tunnel_set_delete_first_witness :
  (exists tunnel st',
     tunnels (the_set active_set two_open) !! 1%nat = Some tunnel /\
     tunnel_set_delete active_set (cstr "cktp://b") two_open
       = Done (Some tunnel) st' /\
     tunnels (the_set active_set st') = [0%nat] /\
     heap st' = heap two_open) /\
  tunnel_set_delete active_set (cstr "cktp://z") two_open
    = Done None two_open.
Proof.
  pose proof (tunnel_set_delete_first two_open active_set (cstr "cktp://b")
                (active_records two_open)) as [Hfound _];
    [vm_compute; repeat constructor|].
  pose proof (tunnel_set_delete_first two_open active_set (cstr "cktp://z")
                (active_records two_open)) as [_ Habsent];
    [vm_compute; repeat constructor|].
  split.
  - destruct (Hfound 1%nat
                {| t_tunnel := Some 2%nat; t_state := TUNNEL_STATE_OPEN;
                   t_reconnect := false; t_id := 1; t_age := 16;
                   t_weight := 1%Q; t_url := cstr "cktp://b" |})
      as (tunnel & st' & Htunnel & Hrun & Hts & _ & Hheap).
    + vm_compute. reflexivity.
    + reflexivity.
    + intros [|j] t' Hj Ht'; [|lia].
      assert (Hrec : active_records two_open !! 0%nat
                = Some {| t_tunnel := Some 1%nat; t_state := TUNNEL_STATE_OPEN;
                          t_reconnect := false; t_id := 0; t_age := 16;
                          t_weight := 1%Q; t_url := cstr "cktp://a" |})
        by (vm_compute; reflexivity).
      rewrite Hrec in Ht'. injection Ht' as <-. discriminate.
    + exists tunnel, st'.
      split; [exact Htunnel|]. split; [exact Hrun|].
      split; [|exact Hheap]. rewrite Hts. vm_compute. reflexivity.
  - apply Habsent. vm_compute. intros Hin.
    apply (proj1 (list_elem_of_In _ _)) in Hin. cbn in Hin.
    repeat (destruct Hin as [Hin|Hin]; [discriminate Hin|]). exact Hin.
Defined.

Lemma tunnel_set_delete_lookup_witness :
  exists st',
    (bind (tunnel_set_delete cache_set (cstr "cktp://a"))
       (fun _ => tunnel_set_lookup cache_set (cstr "cktp://a")))
      two_open = Done (-1) st'.
Proof.
  apply (tunnel_set_delete_lookup two_open cache_set (cstr "cktp://a")
           (cache_records two_open)).
  - vm_compute. repeat constructor.
  - apply (bool_decide_unpack (NoDup (t_url <$> cache_records two_open))).
    vm_compute. exact I.
Defined.

Lemma set_wf_kept_witness :
  set_wf (the_set active_set
            (state_after (tunnel_set_insert active_set 2%nat)
               two_open_one_added)) /\
  (length (tunnels (the_set active_set two_open_one_added))
   < set_size (the_set active_set
                 (state_after (tunnel_set_insert active_set 2%nat)
                    two_open_one_added)))%nat.
Proof.
  refine (proj1 (set_wf_kept two_open_one_added
                   (state_after (tunnel_set_insert active_set 2%nat)
                      two_open_one_added) active_set _) 2%nat _).
  - split.
    + apply (bool_decide_unpack _). vm_compute. exact I.
    + right. exists 0%nat. vm_compute. reflexivity.
  - vm_compute. reflexivity.
Defined.

(** ** What a write of the cache file leaves as it was *)

(** The URLs [cktp_open_tunnel] was called with, in order. *)
Definition open_calls (tr : list event) : list cstring :=
  omap (fun e => match e with
                 | ev_cktp_open_tunnel url => Some url
                 | _ => None
                 end) tr.

(** The handles [cktp_close_tunnel] was called with, in order. *)
Definition close_calls (tr : list event) : list cktp_tunnel_t :=
  omap (fun e => match e with
                 | ev_cktp_close_tunnel h => Some h
                 | _ => None
                 end) tr.

Lemma open_calls_app (tr1 tr2 : list event) :
  open_calls (tr1 ++ tr2) = open_calls tr1 ++ open_calls tr2.
Proof. apply omap_app. Qed.

Lemma close_calls_app (tr1 tr2 : list event) :
  close_calls (tr1 ++ tr2) = close_calls tr1 ++ close_calls tr2.
Proof. apply omap_app. Qed.

Section FileFrame.
Context {D : Type} {dbl : Double D} {ext : Extern}.
Local Open Scope prog_scope.

(** The state [tunnel_file_write] leaves when it has written [text]: the
    old cache file is the backup; when there was none, a warning is logged
    and the backup is as it was, or removed on Windows. *)
Definition file_written (text : cstring) (st : tunnels_state D)
  : tunnels_state D :=
  with_lock false
    (with_trace
       match file_primary (fs st) with
       | Some _ => trace st
       | None => trace st ++
                 [ev_warning "unable to backup old tunnel cache file"
                    (file_name TUNNELS_FILE)]
       end
       (with_fs
          {| file_primary := Some text;
             file_bak := match file_primary (fs st) with
                         | Some old => Some old
                         | None => if WINDOWS then None else file_bak (fs st)
                         end;
             file_tmp := None;
             tmp_writable := tmp_writable (fs st) |} st)).

Lemma tunnel_file_write_written (st : tunnels_state D) rs :
  tunnels_lock st = false ->
  tmp_writable (fs st) = true ->
  records st (tunnels (tunnels_cache st)) rs ->
  tunnel_file_write st =
    Done tt (file_written (header ++ concat (block <$> saved rs)) st).
Proof.
  intros Hlock Hw Hrs.
  unfold tunnel_file_write, file_written.
  unfold remove_file, rename. unfold_prog. rewrite Hlock.
  destruct WINDOWS; cbn;
    destruct (file_primary (fs st)) eqn:Hp; cbn; rewrite Hw; cbn;
    (erewrite file_write_loop_done by exact Hrs);
    cbn; rewrite ?Hp; cbn; f_equal;
    destruct st as [? ? ? ? ? ? ? ? ? f ?]; destruct f; cbn in *; subst;
    reflexivity.
Qed.

Lemma points_insert_notin (h : gmap nat (tunnel_s D)) ts rs tunnel x :
  Forall2 (fun p r => h !! p = Some r) ts rs ->
  tunnel ∉ ts ->
  Forall2 (fun p r => <[tunnel := x]> h !! p = Some r) ts rs.
Proof.
  induction 1 as [|p r ts rs Hp _ IH]; intros Hnotin; constructor.
  - rewrite lookup_insert_ne; [done|]. intros ->. apply Hnotin.
    apply list_elem_of_here.
  - apply IH. intros Hin. apply Hnotin. by apply list_elem_of_further.
Qed.

Lemma points_delete_notin (h : gmap nat (tunnel_s D)) ts rs tunnel :
  Forall2 (fun p r => h !! p = Some r) ts rs ->
  tunnel ∉ ts ->
  Forall2 (fun p r => delete tunnel h !! p = Some r) ts rs.
Proof.
  induction 1 as [|p r ts rs Hp _ IH]; intros Hnotin; constructor.
  - rewrite lookup_delete_ne; [done|]. intros ->. apply Hnotin.
    apply list_elem_of_here.
  - apply IH. intros Hin. apply Hnotin. by apply list_elem_of_further.
Qed.

Lemma records_insert_fresh (st st' : tunnels_state D) ts rs p x :
  records st ts rs ->
  heap st !! p = None ->
  heap st' = <[p := x]> (heap st) ->
  records st' ts rs.
Proof.
  unfold records. intros Hrs Hp ->.
  eapply Forall2_impl; [exact Hrs|]. intros q t Hq. cbn in Hq.
  rewrite lookup_insert_ne; [done|]. congruence.
Qed.

(** What a successful [tunnel_file_write] leaves as it was. *)
Lemma tunnel_file_write_frame (st : tunnels_state D) rs :
  tunnels_lock st = false ->
  tmp_writable (fs st) = true ->
  records st (tunnels (tunnels_cache st)) rs ->
  exists st',
    tunnel_file_write st = Done tt st' /\
    tunnels_lock st' = false /\
    tmp_writable (fs st') = true /\
    file_primary (fs st') = Some (header ++ concat (block <$> saved rs)) /\
    heap st' = heap st /\
    tunnels_cache st' = tunnels_cache st /\
    tunnels_active st' = tunnels_active st /\
    rng st' = rng st /\
    brk st' = brk st /\
    open_calls (trace st') = open_calls (trace st) /\
    close_calls (trace st') = close_calls (trace st).
Proof.
  intros Hlock Hw Hrs. eexists. split.
  - by apply tunnel_file_write_written.
  - unfold file_written. cbn -[open_calls close_calls].
    repeat split; try done.
    + destruct (file_primary (fs st)); [done|].
      rewrite open_calls_app. cbn. by rewrite app_nil_r.
    + destruct (file_primary (fs st)); [done|].
      rewrite close_calls_app. cbn. by rewrite app_nil_r.
Qed.

Lemma saved_app (rs1 rs2 : list (tunnel_s D)) :
  saved (rs1 ++ rs2) = saved rs1 ++ saved rs2.
Proof. unfold saved. by rewrite filter_app, fmap_app. Qed.

End FileFrame.

(** ** The activate thread of a tunnel that is still OPENING *)

Section Activation.
Context {D : Type} {dbl : Double D} {ext : Extern}.
Local Open Scope prog_scope.

#[local] Arguments tunnel_file_write : simpl never.

(** The record [tunnel_activate_switch] leaves of a record [t] that is
    OPENING. *)
Definition finalised (result : bool) (t : tunnel_s D) : tunnel_s D :=
  if result then set_t_age 16 (set_t_state TUNNEL_STATE_OPEN t)
  else set_t_age (Z.max (t_age t - 1) 0) (set_t_state TUNNEL_STATE_DEAD t).

(** The switch of [tunnel_activate] on a tunnel that is OPENING. *)
Lemma tunnel_activate_switch_run (st : tunnels_state D)
    (tunnel : tunnel_t) (t : tunnel_s D) (result : bool) :
  tunnels_lock st = false ->
  heap st !! tunnel = Some t ->
  t_state t = TUNNEL_STATE_OPENING ->
  0 <= t_age t <= UINT8_MAX ->
  exists st',
    tunnel_activate_switch tunnel result st = Done tt st' /\
    tunnels_lock st' = false /\
    fs st' = fs st /\
    tunnels_cache st' = tunnels_cache st /\
    heap st' = <[tunnel := finalised result t]> (heap st) /\
    if result
    then tunnels (tunnels_active st') = tunnels (tunnels_active st) ++ [tunnel]
    else tunnels_active st' = tunnels_active st.
Proof.
  intros Hlock Hheap Hstate Hage.
  unfold tunnel_activate_switch. unfold_prog.
  rewrite Hlock. cbn. rewrite Hheap, Hstate.
  destruct result; cbn.
  - rewrite Hheap. cbn. rewrite lookup_insert_eq. cbn.
    eexists. split; [reflexivity|]. cbn.
    repeat split; try reflexivity.
    by rewrite !insert_insert_eq.
  - rewrite Hheap. cbn. rewrite lookup_insert_eq. cbn.
    eexists. split; [reflexivity|]. cbn.
    repeat split; try reflexivity.
    rewrite !insert_insert_eq. f_equal.
    unfold set_t_age, set_t_state; cbn. f_equal.
    destruct (Z.eqb_spec (t_age t) 0); lia.
Qed.

(** [tunnel_try_activate] returns when the record stays allocated. *)
Lemma tunnel_try_activate_returns (sched : nat -> attempt)
    (tunnel : tunnel_t) (st : tunnels_state D) :
  tunnels_lock st = false ->
  (forall k, leaves tunnel (att_during_open (sched k)) /\
             leaves tunnel (att_during_sleep (sched k))) ->
  is_Some (heap st !! tunnel) ->
  exists result st',
    tunnel_try_activate sched tunnel st = Done result st'.
Proof.
  intros Hlock Hfair Halloc.
  unfold tunnel_try_activate.
  unfold bind at 1, thread_lock. rewrite Hlock.
  unfold bind at 1, random_uint32. unfold bind at 1, thread_unlock, modify.
  change (Z.to_nat MAX_RETRIES) with 3%nat.
  match goal with
  | |- context [try_activate_loop 3 sched 0 tunnel ?t ?s] =>
      destruct (try_activate_loop_done sched tunnel 2 0 t s Hfair)
        as (result & st' & _ & Hrun & _)
  end.
  { cbn. exact Halloc. }
  by exists result, st'.
Qed.

(** The records of a list of pointers after one record was overwritten. *)
Lemma records_overwritten (h : gmap nat (tunnel_s D)) ts rs tunnel x :
  Forall2 (fun p r => h !! p = Some r) ts rs ->
  exists rs', Forall2 (fun p r => <[tunnel := x]> h !! p = Some r) ts rs'.
Proof.
  induction 1 as [|p r ts rs Hp _ [rs' IH]].
  - exists []. constructor.
  - destruct (decide (p = tunnel)) as [->|Hne].
    + exists (x :: rs'). constructor; [apply lookup_insert_eq | exact IH].
    + exists (r :: rs'). constructor; [|exact IH].
      by rewrite lookup_insert_ne.
Qed.

(** C4.  The activate thread, [tunnel_activate], of a tunnel whose record
    stays allocated: [tunnel_try_activate] returns a result, and when the
    thread then finds the record still OPENING, it ends and leaves the
    record OPEN with the age TUNNEL_INIT_AGE = 16 and appended to the
    active set when the result is true, and DEAD with an age one less, but
    not below 0, when the result is false.  Nothing else of the record
    and no other record changes; the cache set is as it was, and the mutex
    is released. *)
Theorem tunnel_activate_opening (st : tunnels_state D)
    (sched : nat -> attempt) (wait : tunnels_state D -> tunnels_state D)
    (tunnel : tunnel_t) :
  tunnels_lock st = false ->
  (forall k, leaves tunnel (att_during_open (sched k)) /\
             leaves tunnel (att_during_sleep (sched k))) ->
  is_Some (heap st !! tunnel) ->
  exists result st1,
    tunnel_try_activate sched tunnel st = Done result st1 /\
    forall (t : tunnel_s D) (cache : list (tunnel_s D)),
      tunnels_lock (wait st1) = false ->
      tmp_writable (fs (wait st1)) = true ->
      records (wait st1) (tunnels (tunnels_cache (wait st1))) cache ->
      heap (wait st1) !! tunnel = Some t ->
      t_state t = TUNNEL_STATE_OPENING ->
      0 <= t_age t <= UINT8_MAX ->
      exists st',
        tunnel_activate sched wait tunnel st = Done tt st' /\
        tunnels_lock st' = false /\
        tunnels_cache st' = tunnels_cache (wait st1) /\
        (forall p, p <> tunnel -> heap st' !! p = heap (wait st1) !! p) /\
        if result then
          heap st' !! tunnel =
            Some (set_t_age 16 (set_t_state TUNNEL_STATE_OPEN t)) /\
          tunnels (tunnels_active st')
            = tunnels (tunnels_active (wait st1)) ++ [tunnel]
        else
          heap st' !! tunnel =
            Some (set_t_age (Z.max (t_age t - 1) 0)
                    (set_t_state TUNNEL_STATE_DEAD t)) /\
          tunnels_active st' = tunnels_active (wait st1).
Proof.
  intros Hlock Hfair Halloc.
  destruct (tunnel_try_activate_returns sched tunnel st Hlock Hfair Halloc)
    as (result & st1 & Htry).
  exists result, st1. split; [exact Htry|].
  intros t cache Hlock2 Hw Hcache Ht Hstate Hage.
  destruct (tunnel_activate_switch_run (wait st1) tunnel t result
              Hlock2 Ht Hstate Hage)
    as (st3 & Hswitch & Hlock3 & Hfs3 & Hcache3 & Hheap3 & Hactive3).
  destruct (records_overwritten _ _ _ tunnel (finalised result t) Hcache)
    as (cache' & Hcache').
  destruct (tunnel_file_write_frame st3 cache')
    as (st' & Hwrite & Hlock' & _ & _ & Hheap' & Hcache4 & Hactive' & _);
    [exact Hlock3 | by rewrite Hfs3 | |].
  { unfold records. rewrite Hheap3, Hcache3. exact Hcache'. }
  exists st'. split.
  { unfold tunnel_activate. unfold bind at 1. rewrite Htry.
    unfold bind at 1, modify. unfold bind at 1. rewrite Hswitch.
    exact Hwrite. }
  split; [exact Hlock'|]. split; [by rewrite Hcache4|].
  split.
  { intros p Hp. by rewrite Hheap', Hheap3, lookup_insert_ne. }
  rewrite Hheap', Hheap3, lookup_insert_eq, Hactive'.
  destruct result; split; try reflexivity; exact Hactive3.
Qed.

End Activation.

(** The tunnel cktp://a is OPENING.  Its activate thread runs with a
    driver that opens the handle 7: the tunnel ends OPEN, with the age 16,
    in the active set.  With a driver that never opens a tunnel it ends
    DEAD with the age 15, and the active set stays empty. *)
Lemma tunnel_activate_opening_witness :
  let st : tunnels_state Q := state_opening (cstr "cktp://a") in
  let t := {| t_tunnel := None; t_state := TUNNEL_STATE_OPENING;
              t_reconnect := false; t_id := 0; t_age := 16; t_weight := 1%Q;
              t_url := cstr "cktp://a" |} in
  heap st !! 0%nat = Some t /\
  (exists st',
     tunnel_try_activate (opens 7) 0 st = Done true st') /\
  (exists st',
     tunnel_activate (opens 7) alone 0 st = Done tt st' /\
     heap st' !! 0%nat =
       Some (set_t_age 16
               (set_t_state TUNNEL_STATE_OPEN (set_t_tunnel (Some 7%nat) t))) /\
     tunnels (tunnels_active st') = [0%nat]) /\
  (exists st',
     tunnel_try_activate never_opens 0 st = Done false st') /\
  (exists st',
     tunnel_activate never_opens alone 0 st = Done tt st' /\
     heap st' !! 0%nat =
       Some (set_t_age (Z.max (t_age t - 1) 0)
               (set_t_state TUNNEL_STATE_DEAD t)) /\
     tunnels_active st' = tunnels_active st).
Proof.
  intros st t.
  assert (Ht : heap st !! 0%nat = Some t) by reflexivity.
  pose (s1 := state_after (tunnel_try_activate (opens 7) 0) st).
  assert (Hs1 : tunnel_try_activate (opens 7) 0 st = Done true s1)
    by (vm_compute; reflexivity).
  pose (s2 := state_after (tunnel_try_activate never_opens 0) st).
  assert (Hs2 : tunnel_try_activate never_opens 0 st = Done false s2)
    by (vm_compute; reflexivity).
  split; [exact Ht|].
  split; [exists s1; exact Hs1|].
  split; [|split; [exists s2; exact Hs2|]].
  - destruct (tunnel_activate_opening st (opens 7) alone 0%nat)
      as (result & st1 & Htry & Hend).
    + reflexivity.
    + intros k. split; apply alone_leaves.
    + rewrite Ht. eexists. reflexivity.
    + rewrite Hs1 in Htry. injection Htry as <- <-.
      destruct (Hend (set_t_tunnel (Some 7%nat) t)
                  [set_t_tunnel (Some 7%nat) t])
        as (st' & Hrun & _ & _ & _ & Hheap & Hactive).
      * vm_compute. reflexivity.
      * vm_compute. reflexivity.
      * vm_compute. repeat constructor.
      * vm_compute. reflexivity.
      * reflexivity.
      * unfold UINT8_MAX. cbn. lia.
      * exists st'. split; [exact Hrun|]. split; [exact Hheap|].
        rewrite Hactive. vm_compute. reflexivity.
  - destruct (tunnel_activate_opening st never_opens alone 0%nat)
      as (result & st1 & Htry & Hend).
    + reflexivity.
    + intros k. split; apply alone_leaves.
    + rewrite Ht. eexists. reflexivity.
    + rewrite Hs2 in Htry. injection Htry as <- <-.
      destruct (Hend t [t])
        as (st' & Hrun & _ & _ & _ & Hheap & Hactive).
      * vm_compute. reflexivity.
      * vm_compute. reflexivity.
      * vm_compute. repeat constructor.
      * vm_compute. reflexivity.
      * reflexivity.
      * unfold UINT8_MAX. cbn. lia.
      * exists st'. split; [exact Hrun|]. split; [exact Hheap|].
        rewrite Hactive. vm_compute. reflexivity.
Defined.

(** ** Deleting a tunnel *)

Section Deleting.
Context {D : Type} {dbl : Double D} {ext : Extern}.
Local Open Scope prog_scope.

#[local] Arguments tunnel_file_write : simpl never.

(** [tunnel_delete] up to the switch on what the two sets hold: the mutex
    is free and the tunnels of both sets are allocated. *)
Lemma tunnel_delete_done (st : tunnels_state D) (url : cstring) :
  tunnels_lock st = false ->
  Forall (fun tunnel => is_Some (heap st !! tunnel))
    (tunnels (tunnels_active st)) ->
  Forall (fun tunnel => is_Some (heap st !! tunnel))
    (tunnels (tunnels_cache st)) ->
  tunnel_delete url st =
    match list_find (url_is st url) (tunnels (tunnels_active st)) with
    | Some (i, tunnel) =>
        ((t <- deref tunnel;;
          match t_state t with
          | TUNNEL_STATE_OPENING =>
              assign tunnel (set_t_state TUNNEL_STATE_CLOSING)
          | TUNNEL_STATE_CLOSING => ret tt
          | TUNNEL_STATE_OPEN =>
              cktp_close_tunnel (t_tunnel t);;
              assign tunnel (set_t_tunnel None);;
              assign tunnel (set_t_state TUNNEL_STATE_CLOSED)
          | _ => crash (Aborted "unexpected tunnel state")
          end;;
          emit (ev_log "deactivated tunnel" url));;
         thread_unlock;;
         tunnel_file_write)
          (with_active (set_remove (tunnels_active st) i) (with_lock true st))
    | None =>
        match list_find (url_is st url) (tunnels (tunnels_cache st)) with
        | Some (i, tunnel) =>
            ((tunnel_free (Some tunnel);;
              emit (ev_log "deleted tunnel" url));;
             thread_unlock;;
             tunnel_file_write)
              (with_cache (set_remove (tunnels_cache st) i)
                 (with_lock true st))
        | None =>
            (emit (ev_warning "unable to delete tunnel; tunnel does not exist" url);;
             thread_unlock;;
             tunnel_file_write) (with_lock true st)
        end
    end.
Proof.
  intros Hlock Hactive Hcache.
  unfold tunnel_delete. unfold bind at 1, thread_lock. rewrite Hlock.
  unfold bind at 1. unfold bind at 1.
  rewrite (tunnel_set_delete_done (with_lock true st) active_set url)
    by exact Hactive.
  cbn [the_set tunnels_active with_lock].
  change (list_find (url_is (with_lock true st) url))
    with (list_find (url_is st url)).
  destruct (list_find (url_is st url) (tunnels (tunnels_active st)))
    as [[i tunnel]|]; [reflexivity|].
  unfold bind at 1. unfold bind at 1.
  rewrite (tunnel_set_delete_done (with_lock true st) cache_set url)
    by exact Hcache.
  cbn [the_set tunnels_cache with_lock].
  change (list_find (url_is (with_lock true st) url))
    with (list_find (url_is st url)).
  destruct (list_find (url_is st url) (tunnels (tunnels_cache st)))
    as [[i tunnel]|]; reflexivity.
Qed.

(** Deleting a URL that no tunnel has: a warning, and nothing else changes
    before [tunnel_file_write] rewrites the cache file; the mutex is free
    again. *)
Theorem tunnel_delete_unknown (st : tunnels_state D) (url : cstring)
    (active cache : list (tunnel_s D)) :
  tunnels_lock st = false ->
  records st (tunnels (tunnels_active st)) active ->
  records st (tunnels (tunnels_cache st)) cache ->
  url ∉ t_url <$> active ->
  url ∉ t_url <$> cache ->
  tunnel_delete url st =
    tunnel_file_write
      (with_trace
         (trace st ++
          [ev_warning "unable to delete tunnel; tunnel does not exist" url])
         st).
Proof.
  intros Hlock Hactive Hcache Hna Hnc.
  rewrite tunnel_delete_done;
    [|done|by eapply records_allocated|by eapply records_allocated].
  rewrite (list_find_url_none _ _ _ _ Hactive Hna).
  rewrite (list_find_url_none _ _ _ _ Hcache Hnc).
  unfold_prog. f_equal. destruct st; cbn in *. by subst.
Qed.

(** Deleting an open tunnel deactivates it and does not delete it: the
    tunnel leaves the active set, its handle is closed and set to NULL,
    and its record stays in the cache, in the state CLOSED, as a tunnel
    the activator thread may open again. *)
Theorem tunnel_delete_active_open (st : tunnels_state D) (url : cstring)
    (active cache : list (tunnel_s D)) (i : nat) (t : tunnel_s D) :
  tunnels_lock st = false ->
  records st (tunnels (tunnels_active st)) active ->
  records st (tunnels (tunnels_cache st)) cache ->
  active !! i = Some t ->
  t_url t = url ->
  (forall j t', (j < i)%nat -> active !! j = Some t' -> t_url t' <> url) ->
  t_state t = TUNNEL_STATE_OPEN ->
  exists tunnel,
    tunnels (tunnels_active st) !! i = Some tunnel /\
    tunnel_delete url st =
      tunnel_file_write
        (with_trace
           (trace st ++ [ev_cktp_close_tunnel (t_tunnel t);
                         ev_log "deactivated tunnel" url])
           (with_heap
              (<[tunnel := set_t_state TUNNEL_STATE_CLOSED
                             (set_t_tunnel None t)]> (heap st))
              (with_active (set_remove (tunnels_active st) i) st))).
Proof.
  intros Hlock Hactive Hcache Hi Hurl Hfirst Hopen.
  destruct (list_find_url_first st _ _ url i t Hactive Hi Hurl Hfirst)
    as (tunnel & Htunnel & Hfind).
  exists tunnel. split; [done|].
  rewrite tunnel_delete_done;
    [|done|by eapply records_allocated|by eapply records_allocated].
  rewrite Hfind.
  destruct (Forall2_lookup_l _ _ _ _ _ Hactive Htunnel) as (t' & Ht' & Ht).
  assert (t' = t) as -> by congruence.
  unfold bind at 1, bind at 1, deref at 1. cbn [heap with_active with_lock].
  rewrite Ht, Hopen. unfold_prog. cbn. rewrite Ht. cbn.
  rewrite lookup_insert_eq. cbn.
  f_equal. destruct st; cbn in *. subst.
  by rewrite !insert_insert_eq, <- app_assoc.
Qed.

(** [tunnel_delete] of a tunnel that is in the cache only, up to the
    write of the cache file. *)
Lemma tunnel_delete_cached_run (st : tunnels_state D) (url : cstring)
    (active cache : list (tunnel_s D)) (i : nat) (t : tunnel_s D) :
  tunnels_lock st = false ->
  records st (tunnels (tunnels_active st)) active ->
  records st (tunnels (tunnels_cache st)) cache ->
  url ∉ t_url <$> active ->
  cache !! i = Some t ->
  t_url t = url ->
  (forall j t', (j < i)%nat -> cache !! j = Some t' -> t_url t' <> url) ->
  exists tunnel,
    tunnels (tunnels_cache st) !! i = Some tunnel /\
    tunnel_delete url st =
      tunnel_file_write
        (with_trace
           (trace st ++
            match t_state t with
            | TUNNEL_STATE_OPENING | TUNNEL_STATE_DELETING => []
            | _ => [ev_cktp_close_tunnel (t_tunnel t)]
            end ++ [ev_log "deleted tunnel" url])
           (with_heap
              match t_state t with
              | TUNNEL_STATE_OPENING =>
                  <[tunnel := set_t_state TUNNEL_STATE_DELETING t]> (heap st)
              | TUNNEL_STATE_DELETING => heap st
              | _ => delete tunnel (heap st)
              end
              (with_cache (set_remove (tunnels_cache st) i) st))).
Proof.
  intros Hlock Hactive Hcache Hna Hi Hurl Hfirst.
  destruct (list_find_url_first st _ _ url i t Hcache Hi Hurl Hfirst)
    as (tunnel & Htunnel & Hfind).
  exists tunnel. split; [done|].
  rewrite tunnel_delete_done;
    [|done|by eapply records_allocated|by eapply records_allocated].
  rewrite (list_find_url_none _ _ _ _ Hactive Hna), Hfind.
  destruct (Forall2_lookup_l _ _ _ _ _ Hcache Htunnel) as (t' & Ht' & Ht).
  assert (t' = t) as -> by congruence.
  unfold tunnel_free. unfold bind at 1, bind at 1, bind at 1, deref at 1.
  cbn [heap with_cache with_lock]. rewrite Ht.
  destruct (t_state t); unfold_prog; cbn; rewrite ?Ht;
    f_equal; destruct st; cbn in *; subst; by rewrite <- ?app_assoc.
Qed.

(** Deleting a tunnel that is in the cache only.  The tunnel leaves the
    cache and the cache file is written without it.  When its activate
    thread is running (state OPENING) the record is marked DELETING and
    left to that thread; when it was marked before, nothing more is done;
    else the handle is closed and the record is freed. *)
Theorem tunnel_delete_cached (st : tunnels_state D) (url : cstring)
    (active cache : list (tunnel_s D)) (i : nat) (t : tunnel_s D) :
  tunnels_lock st = false ->
  tmp_writable (fs st) = true ->
  records st (tunnels (tunnels_active st)) active ->
  records st (tunnels (tunnels_cache st)) cache ->
  NoDup (tunnels (tunnels_cache st)) ->
  url ∉ t_url <$> active ->
  cache !! i = Some t ->
  t_url t = url ->
  (forall j t', (j < i)%nat -> cache !! j = Some t' -> t_url t' <> url) ->
  exists tunnel st',
    tunnels (tunnels_cache st) !! i = Some tunnel /\
    tunnel_delete url st = Done tt st' /\
    tunnels_lock st' = false /\
    tunnels (tunnels_cache st') = delete i (tunnels (tunnels_cache st)) /\
    tunnels_active st' = tunnels_active st /\
    heap st' = match t_state t with
               | TUNNEL_STATE_OPENING =>
                   <[tunnel := set_t_state TUNNEL_STATE_DELETING t]> (heap st)
               | TUNNEL_STATE_DELETING => heap st
               | _ => delete tunnel (heap st)
               end /\
    close_calls (trace st')
      = close_calls (trace st) ++
        match t_state t with
        | TUNNEL_STATE_OPENING | TUNNEL_STATE_DELETING => []
        | _ => [t_tunnel t]
        end /\
    file_primary (fs st')
      = Some (header ++ concat (block <$> saved (delete i cache))).
Proof.
  intros Hlock Hw Hactive Hcache Hnodup Hna Hi Hurl Hfirst.
  destruct (tunnel_delete_cached_run st url active cache i t)
    as (tunnel & Htunnel & ->); [done..|].
  exists tunnel.
  set (sd := with_trace _ _).
  assert (Hnotin : tunnel ∉ delete i (tunnels (tunnels_cache st))).
  { intros Hin. apply list_elem_of_lookup in Hin as [k Hk].
    destruct (decide (k < i)%nat).
    - rewrite list_lookup_delete_lt in Hk by done.
      pose proof (NoDup_lookup _ _ _ _ Hnodup Hk Htunnel). lia.
    - rewrite list_lookup_delete_ge in Hk by lia.
      pose proof (NoDup_lookup _ _ _ _ Hnodup Hk Htunnel). lia. }
  assert (Hrest : Forall2 (fun p r => heap st !! p = Some r)
                    (delete i (tunnels (tunnels_cache st))) (delete i cache)).
  { rewrite !delete_take_drop.
    apply Forall2_app; [by apply Forall2_take | by apply Forall2_drop]. }
  destruct (tunnel_file_write_frame sd (delete i cache))
    as (st' & Hrun & Hlock' & _ & Hfile & Hheap & Hcache' & Hactive' & _ & _
        & _ & Hclose); [done|done| |].
  { unfold records, sd. cbn.
    destruct (t_state t);
      by (apply points_delete_notin || apply points_insert_notin || idtac). }
  exists st'. split; [done|]. split; [done|]. split; [done|].
  split; [by rewrite Hcache'|]. split; [by rewrite Hactive'|].
  split; [by rewrite Hheap|]. split; [|done].
  rewrite Hclose. unfold sd. cbn -[close_calls].
  rewrite !close_calls_app. destruct (t_state t); cbn; by rewrite ?app_nil_r.
Qed.

End Deleting.

(** ** The cache file and its backup *)

Section Files.
Context {D : Type} {dbl : Double D} {ext : Extern}.
Local Open Scope prog_scope.

(** [tunnel_file_write] keeps the previous cache file as the backup.  When
    the mutex is free, the temporary file can be opened and a cache file
    exists, the new cache file holds the header and the records of the
    cache whose age is not 0, the backup holds what the cache file held,
    no temporary file is left, no warning is logged, and nothing but the
    files has changed. *)
Theorem tunnel_file_write_backup (st : tunnels_state D) rs (old : cstring) :
  tunnels_lock st = false ->
  tmp_writable (fs st) = true ->
  records st (tunnels (tunnels_cache st)) rs ->
  file_primary (fs st) = Some old ->
  exists st',
    tunnel_file_write st = Done tt st' /\
    file_primary (fs st') = Some (header ++ concat (block <$> saved rs)) /\
    file_bak (fs st') = Some old /\
    file_tmp (fs st') = None /\
    with_fs (fs st) st' = st.
Proof.
  intros Hlock Hw Hrs Hold. eexists. split.
  - by apply tunnel_file_write_written.
  - unfold file_written. rewrite Hold. cbn. repeat split.
    destruct st; cbn in *. by subst.
Qed.


(** Without a cache file [tunnel_file_read] reads the backup.  When the
    backup is a file [tunnel_file_write] wrote for the pairs [es], one
    warning is logged and one record is appended to the cache for each of
    the pairs, in their order. *)
Theorem tunnel_file_read_backup (st : tunnels_state D)
    (es : list (cstring * Z)) :
  Forall comment_char PROGRAM_NAME_LONG ->
  Forall entry_ok es ->
  tunnels_lock st = false ->
  file_primary (fs st) = None ->
  file_bak (fs st) = Some (header ++ concat (block <$> es)) ->
  exists st',
    tunnel_file_read st = Done tt st' /\
    trace st' =
      trace st ++
      [ev_warning "unable to open tunnel cache file for reading; will use backup tunnel cache file"
         (file_name TUNNELS_FILE)] /\
    tunnels (tunnels_cache st')
      = tunnels (tunnels_cache st) ++ seq (brk st) (length es) /\
    entries_of st' (seq (brk st) (length es)) = Some <$> es /\
    (forall p, (p < brk st)%nat -> heap st' !! p = heap st !! p).
Proof.
  intros Hname Hes Hlock Hprimary Hbak.
  unfold tunnel_file_read. unfold bind at 1, get_state.
  cbn [file_content]. rewrite Hprimary.
  unfold bind at 1, emit, modify. cbn [fs with_trace]. rewrite Hbak.
  pose proof header_length as Hh. pose proof (block_length es) as Hb.
  rewrite length_app.
  destruct (length header) as [|[|[|n]]] eqn:Hlen; [lia..|].
  cbn [Nat.add].
  replace (S (S (S (S (n + length (concat (block <$> es)))))))
    with (S (S (S (S n + length (concat (block <$> es)))))) by lia.
  rewrite file_read_loop_header by done.
  set (st0 := with_trace _ st).
  destruct (file_read_loop_blocks TUNNELS_BAK_FILENAME es
              (S n + length (concat (block <$> es))) st0 Hes Hlock)
    as (st' & Hrun & Hlock' & Htrace' & _ & Hcache' & Hentries' & Hheap');
    [lia|].
  exists st'. done.
Qed.

End Files.

Section Malformed.
Context {D : Type} {dbl : Double D} {ext : Extern}.
Local Open Scope prog_scope.




End Malformed.

(** *** Sample runs of [tunnel_delete] and of the cache file *)

Definition record_a : tunnel_s Q :=
  {| t_tunnel := Some 1%nat; t_state := TUNNEL_STATE_OPEN;
     t_reconnect := false; t_id := 0; t_age := 16; t_weight := 1%Q;
     t_url := cstr "cktp://a" |}.

Definition record_b : tunnel_s Q :=
  {| t_tunnel := Some 2%nat; t_state := TUNNEL_STATE_OPEN;
     t_reconnect := false; t_id := 1; t_age := 16; t_weight := 1%Q;
     t_url := cstr "cktp://b" |}.

Definition record_c : tunnel_s Q :=
  {| t_tunnel := None; t_state := TUNNEL_STATE_OPENING;
     t_reconnect := false; t_id := 2; t_age := 16; t_weight := 1%Q;
     t_url := cstr "cktp://c" |}.

Lemma two_open_records :
  records two_open (tunnels (tunnels_active two_open)) [record_a; record_b] /\
  records two_open (tunnels (tunnels_cache two_open)) [record_a; record_b].
Proof. split; vm_compute; repeat constructor. Qed.

Lemma two_open_one_added_records :
  records two_open_one_added (tunnels (tunnels_active two_open_one_added))
    [record_a; record_b] /\
  records two_open_one_added (tunnels (tunnels_cache two_open_one_added))
    [record_a; record_b; record_c].
Proof. split; vm_compute; repeat constructor. Qed.

Ltac not_in_list :=
  let Hin := fresh "Hin" in
  intros Hin; apply (proj1 (list_elem_of_In _ _)) in Hin; cbn in Hin;
  repeat (destruct Hin as [Hin|Hin]; [discriminate Hin|]); exact Hin.

Ltac first_in_list :=
  let j := fresh "j" in let t' := fresh "t" in
  let Hj := fresh "Hj" in let Ht' := fresh "Ht" in
  intros j t' Hj Ht';
  repeat (destruct j as [|j];
          [injection Ht' as <-; discriminate|]);
  cbn in Hj; lia.

Lemma tunnel_delete_unknown_witness :
  tunnel_delete (cstr "cktp://z") two_open =
    Done tt (state_after (tunnel_delete (cstr "cktp://z")) two_open) /\
  tunnels (tunnels_cache (state_after (tunnel_delete (cstr "cktp://z")) two_open))
    = [0; 1]%nat.
Proof.
  split; [|vm_compute; reflexivity].
  rewrite (tunnel_delete_unknown two_open (cstr "cktp://z")
             [record_a; record_b] [record_a; record_b]).
  - vm_compute. reflexivity.
  - reflexivity.
  - apply two_open_records.
  - apply two_open_records.
  - not_in_list.
  - not_in_list.
Defined.

(** The open tunnel cktp://b is deleted: it leaves the active set and
    stays in the cache, CLOSED. *)
Lemma tunnel_delete_active_open_witness :
  let st' := state_after (tunnel_delete (cstr "cktp://b")) two_open in
  tunnel_delete (cstr "cktp://b") two_open = Done tt st' /\
  tunnels (tunnels_active st') = [0%nat] /\
  tunnels (tunnels_cache st') = [0; 1]%nat /\
  heap st' !! 1%nat
    = Some (set_t_state TUNNEL_STATE_CLOSED (set_t_tunnel None record_b)).
Proof.
  intros st'. split; [|vm_compute; done].
  destruct (tunnel_delete_active_open two_open (cstr "cktp://b")
              [record_a; record_b] [record_a; record_b] 1 record_b)
    as (tunnel & Htunnel & Hrun).
  - reflexivity.
  - apply two_open_records.
  - apply two_open_records.
  - reflexivity.
  - reflexivity.
  - first_in_list.
  - reflexivity.
  - assert (H1 : tunnels (tunnels_active two_open) !! 1%nat = Some 1%nat)
      by (vm_compute; reflexivity).
    rewrite H1 in Htunnel. injection Htunnel as <-.
    rewrite Hrun. vm_compute. reflexivity.
Defined.

(** The tunnel cktp://c is deleted while its activate thread runs: it
    leaves the cache and its record is marked DELETING. *)
Lemma tunnel_delete_cached_witness :
  exists st',
    tunnel_delete (cstr "cktp://c") two_open_one_added = Done tt st' /\
    tunnels (tunnels_cache st') = [0; 1]%nat /\
    heap st' !! 2%nat = Some (set_t_state TUNNEL_STATE_DELETING record_c) /\
    close_calls (trace st') = close_calls (trace two_open_one_added).
Proof.
  destruct (tunnel_delete_cached two_open_one_added (cstr "cktp://c")
              [record_a; record_b] [record_a; record_b; record_c] 2 record_c)
    as (tunnel & st' & Htunnel & Hrun & _ & Hcache & _ & Hheap & Hclose & _).
  - reflexivity.
  - reflexivity.
  - apply two_open_one_added_records.
  - apply two_open_one_added_records.
  - apply (bool_decide_unpack
             (NoDup (tunnels (tunnels_cache two_open_one_added)))).
    vm_compute. exact I.
  - not_in_list.
  - reflexivity.
  - reflexivity.
  - first_in_list.
  - assert (H2 : tunnels (tunnels_cache two_open_one_added) !! 2%nat
                 = Some 2%nat) by (vm_compute; reflexivity).
    rewrite H2 in Htunnel. injection Htunnel as <-.
    exists st'. split; [exact Hrun|].
    split; [rewrite Hcache; vm_compute; reflexivity|].
    split; [rewrite Hheap; apply lookup_insert_eq|].
    rewrite Hclose. apply app_nil_r.
Defined.

Lemma tunnel_file_write_backup_witness :
  exists st',
    tunnel_file_write sample_cache = Done tt st' /\
    file_primary (fs st')
      = Some (header ++ concat (block <$> saved sample_cache_records)) /\
    file_bak (fs st') = Some (sample_cache_file 3) /\
    file_tmp (fs st') = None /\
    with_fs (fs sample_cache) st' = sample_cache.
Proof.
  apply (tunnel_file_write_backup sample_cache sample_cache_records).
  - reflexivity.
  - reflexivity.
  - vm_compute. repeat constructor.
  - vm_compute. reflexivity.
Defined.

(** Two pairs, and a disk that holds them in the backup file only. *)
Definition sample_entries : list (cstring * Z) :=
  [(cstr "cktp://a", 16); (cstr "cktp://b", 3)].

Definition backup_only : tunnels_state Q :=
  initial_state
    {| file_primary := None;
       file_bak := Some (header ++ concat (block <$> sample_entries));
       file_tmp := None; tmp_writable := true |}.

Lemma sample_entries_ok : Forall entry_ok sample_entries.
Proof.
  repeat constructor; try discriminate; try (cbn; lia); try not_in_list.
Qed.

Lemma sample_name_ok : Forall comment_char PROGRAM_NAME_LONG.
Proof.
  repeat (constructor; [split; vm_compute; discriminate|]). constructor.
Qed.

Lemma tunnel_file_read_backup_witness :
  exists st',
    tunnel_file_read backup_only = Done tt st' /\
    trace st' =
      [ev_warning "unable to open tunnel cache file for reading; will use backup tunnel cache file"
         (cstr "tunnels.cache")] /\
    tunnels (tunnels_cache st') = [0; 1]%nat /\
    entries_of st' [0; 1]%nat = Some <$> sample_entries /\
    (forall p, (p < 0)%nat -> heap st' !! p = heap backup_only !! p).
Proof.
  exact (tunnel_file_read_backup backup_only sample_entries
           sample_name_ok sample_entries_ok eq_refl eq_refl eq_refl).
Defined.




(** ** A tunnel deleted while it is being opened *)

Section DeletedWhileOpening.
Context {D : Type} {dbl : Double D} {ext : Extern}.
Local Open Scope prog_scope.

#[local] Arguments tunnel_file_write : simpl never.

(** [tunnel_try_activate] does not enter its loop when the tunnel is not
    OPENING. *)
Lemma try_activate_loop_not_opening (st : tunnels_state D) retries sched k
    tunnel us t :
  heap st !! tunnel = Some t ->
  t_state t <> TUNNEL_STATE_OPENING ->
  try_activate_loop (S retries) sched k tunnel us st = Done true st.
Proof.
  intros Ht Hstate. cbn [try_activate_loop]. unfold bind, deref.
  rewrite Ht. by rewrite bool_decide_false.
Qed.

(** The activate thread of a tunnel in the state DELETING, up to the
    write of the cache file. *)
Lemma tunnel_activate_deleted_run (st : tunnels_state D)
    (sched : nat -> attempt (D := D)) (tunnel : tunnel_t) (t : tunnel_s D) :
  tunnels_lock st = false ->
  heap st !! tunnel = Some t ->
  t_state t = TUNNEL_STATE_DELETING ->
  tunnel_activate sched (fun st => st) tunnel st =
    tunnel_file_write
      (with_trace (trace st ++ [ev_cktp_close_tunnel (t_tunnel t)])
         (with_heap (delete tunnel (heap st))
            (with_rng (S (rng st)) st))).
Proof.
  intros Hlock Ht Hstate.
  unfold tunnel_activate, tunnel_try_activate, tunnel_activate_switch,
    tunnel_free.
  change (Z.to_nat MAX_RETRIES) with 3%nat.
  unfold bind at 1, bind at 1, thread_lock. rewrite Hlock.
  unfold bind at 1, random_uint32, bind at 1, thread_unlock, modify.
  rewrite (try_activate_loop_not_opening _ _ _ _ _ _ t)
    by (done || by rewrite Hstate).
  unfold_prog. cbn. rewrite Ht, Hstate. cbn. rewrite Ht. cbn.
  rewrite lookup_insert_eq. cbn.
  f_equal. destruct st; cbn in *. subst.
  by rewrite delete_insert_eq.
Qed.

(** [tunnel_add] of a valid URL that no tunnel of the cache has. *)
Lemma tunnel_add_absent (st : tunnels_state D) (url : cstring) rs :
  tunnels_lock st = false ->
  records st (tunnels (tunnels_cache st)) rs ->
  cktp_parse_url url = true ->
  url ∉ t_url <$> rs ->
  tunnel_add url st =
    tunnel_file_write
      (added url (brk st)
         (with_cache (set_append (tunnels_cache st) (brk st))
            (with_heap
               (<[brk st :=
                    {| t_tunnel := None; t_state := TUNNEL_STATE_OPENING;
                       t_reconnect := false; t_id := tunnel_create_id st;
                       t_age := TUNNEL_INIT_AGE; t_weight := d_1;
                       t_url := strncpy CKTP_MAX_URL_LENGTH url |}]>
                  (heap st))
               (with_create_id (uint16 (tunnel_create_id st + 1))
                  (with_brk (S (brk st)) st))))).
Proof.
  intros Hlock Hrs Hvalid Habsent.
  unfold tunnel_add. rewrite Hvalid. cbn [negb].
  unfold bind at 1, thread_lock. rewrite Hlock.
  unfold bind at 1, bind at 1.
  rewrite (tunnel_set_lookup_done (with_lock true st) cache_set url)
    by (by eapply records_allocated).
  cbn [the_set tunnels_cache with_lock].
  change (list_find (url_is (with_lock true st) url))
    with (list_find (url_is st url)).
  rewrite (list_find_url_none _ _ _ _ Hrs Habsent).
  cbn [Z.ltb Z.compare].
  unfold tunnel_create, tunnel_set_insert. unfold_prog.
  destruct st; cbn in *; subst.
  rewrite lookup_insert_eq. cbn.
  f_equal. unfold added; cbn.
  by rewrite insert_insert_eq, <- app_assoc.
Qed.


End DeletedWhileOpening.

Section AddDeleteActivate.
Context {D : Type} {dbl : Double D} {ext : Extern}.
Local Open Scope prog_scope.

#[local] Arguments tunnel_file_write : simpl never.

(** A tunnel is added and deleted before its activate thread runs; then
    the thread runs.  The driver is not asked to open the tunnel, the
    record is freed, the heap and the two sets are what they were before
    the tunnel was added, and the cache file is the one of the cache
    without the tunnel. *)
Theorem tunnel_add_delete_activate (st : tunnels_state D) (url : cstring)
    (sched : nat -> attempt (D := D)) (active cache : list (tunnel_s D)) :
  tunnels_lock st = false ->
  tmp_writable (fs st) = true ->
  records st (tunnels (tunnels_active st)) active ->
  records st (tunnels (tunnels_cache st)) cache ->
  cktp_parse_url url = true ->
  (length url <= CKTP_MAX_URL_LENGTH)%nat ->
  url ∉ t_url <$> active ->
  url ∉ t_url <$> cache ->
  heap st !! brk st = None ->
  exists st',
    (tunnel_add url;;
     tunnel_delete url;;
     tunnel_activate sched (fun st => st) (brk st)) st = Done tt st' /\
    tunnels_lock st' = false /\
    heap st' = heap st /\
    tunnels (tunnels_cache st') = tunnels (tunnels_cache st) /\
    tunnels (tunnels_active st') = tunnels (tunnels_active st) /\
    open_calls (trace st') = open_calls (trace st) /\
    file_primary (fs st') = Some (header ++ concat (block <$> saved cache)).
Proof.
  intros Hlock Hw Hactive Hcache Hvalid Hlen Hna Hnc Hfresh.
  pose (tnew := {| t_tunnel := None; t_state := TUNNEL_STATE_OPENING;
                   t_reconnect := false; t_id := tunnel_create_id st;
                   t_age := TUNNEL_INIT_AGE; t_weight := d_1;
                   t_url := url |} : tunnel_s D).
  pose proof (Forall2_length _ _ _ Hcache) as Hlencache.
  (* tunnel_add *)
  unfold bind at 1.
  rewrite (tunnel_add_absent st url cache) by done.
  unfold strncpy. rewrite take_ge by done. fold tnew.
  set (stA := added url (brk st) _).
  assert (HheapA : heap stA = <[brk st := tnew]> (heap st)) by reflexivity.
  assert (HcacheA : records stA (tunnels (tunnels_cache stA)) (cache ++ [tnew])).
  { unfold stA. cbn. apply Forall2_app.
    - by eapply (records_insert_fresh st).
    - repeat constructor. cbn. by rewrite lookup_insert_eq. }
  destruct (tunnel_file_write_frame stA (cache ++ [tnew]))
    as (st1 & -> & Hlock1 & Hw1 & _ & Hheap1 & Hcache1 & Hactive1 & Hrng1
        & Hbrk1 & Hopen1 & _); [done..|].
  (* tunnel_delete *)
  assert (Hrs1a : records st1 (tunnels (tunnels_active st1)) active).
  { rewrite Hactive1. eapply (records_insert_fresh st); [done..|].
    by rewrite Hheap1. }
  assert (Hrs1c : records st1 (tunnels (tunnels_cache st1)) (cache ++ [tnew])).
  { rewrite Hcache1. unfold records. rewrite Hheap1. exact HcacheA. }
  unfold bind at 1.
  destruct (tunnel_delete_cached_run st1 url active (cache ++ [tnew])
              (length cache) tnew)
    as (tunnel & Htunnel & ->); [done..| | | |].
  { by rewrite lookup_app_r, Nat.sub_diag by lia. }
  { reflexivity. }
  { intros j t' Hj Ht' Hu. apply Hnc.
    rewrite lookup_app_l in Ht' by done.
    apply list_elem_of_fmap. exists t'. split; [done|].
    apply list_elem_of_lookup. eauto. }
  assert (tunnel = brk st) as ->.
  { rewrite Hcache1 in Htunnel. unfold stA in Htunnel. cbn in Htunnel.
    rewrite lookup_app_r, Hlencache, Nat.sub_diag in Htunnel by lia.
    by injection Htunnel. }
  cbn [t_state tnew app].
  set (stD := with_trace _ _).
  assert (HheapD : heap stD
            = <[brk st := set_t_state TUNNEL_STATE_DELETING tnew]> (heap st)).
  { unfold stD. cbn. rewrite Hheap1, HheapA. apply insert_insert_eq. }
  assert (HtsD : tunnels (tunnels_cache stD) = tunnels (tunnels_cache st)).
  { unfold stD. cbn. rewrite Hcache1. unfold stA. cbn.
    rewrite <- Hlencache, delete_middle. apply app_nil_r. }
  destruct (tunnel_file_write_frame stD cache)
    as (st2 & -> & Hlock2 & Hw2 & _ & Hheap2 & Hcache2 & Hactive2 & Hrng2
        & Hbrk2 & Hopen2 & _); [done..| |].
  { rewrite HtsD.
    eapply (records_insert_fresh st); [exact Hcache|exact Hfresh|exact HheapD]. }
  (* tunnel_activate *)
  rewrite (tunnel_activate_deleted_run st2 sched (brk st)
             (set_t_state TUNNEL_STATE_DELETING tnew));
    [|done|by rewrite Hheap2, HheapD, lookup_insert_eq|done].
  set (stE := with_trace _ _).
  assert (HheapE : heap stE = heap st).
  { unfold stE. cbn. rewrite Hheap2, HheapD, delete_insert_eq.
    by apply delete_id. }
  destruct (tunnel_file_write_frame stE cache)
    as (st3 & -> & Hlock3 & Hw3 & Hfile3 & Hheap3 & Hcache3 & Hactive3 & _
        & _ & Hopen3 & _); [done..| |].
  { unfold records. rewrite HheapE. unfold stE. cbn.
    rewrite Hcache2, HtsD. exact Hcache. }
  exists st3. split; [done|]. split; [done|].
  split; [congruence|].
  split. { rewrite Hcache3. unfold stE. cbn. by rewrite Hcache2. }
  split. { rewrite Hactive3. unfold stE. cbn. rewrite Hactive2.
           unfold stD. cbn. by rewrite Hactive1. }
  split; [|done].
  rewrite Hopen3. unfold stE. cbn -[open_calls].
  rewrite open_calls_app, Hopen2. unfold stD. cbn -[open_calls].
  rewrite open_calls_app, Hopen1. unfold stA, added. cbn -[open_calls].
  rewrite open_calls_app. cbn. by rewrite !app_nil_r.
Qed.

End AddDeleteActivate.



Lemma tunnel_add_delete_activate_witness :
  exists st',
    (bind (tunnel_add (cstr "cktp://c"))
       (fun _ =>
          bind (tunnel_delete (cstr "cktp://c"))
            (fun _ => tunnel_activate (opens 3) (fun st => st) (brk two_open))))
      two_open = Done tt st' /\
    tunnels_lock st' = false /\
    heap st' = heap two_open /\
    tunnels (tunnels_cache st') = tunnels (tunnels_cache two_open) /\
    tunnels (tunnels_active st') = tunnels (tunnels_active two_open) /\
    open_calls (trace st') = open_calls (trace two_open) /\
    file_primary (fs st')
      = Some (header ++ concat (block <$> saved [record_a; record_b])).
Proof.
  apply (tunnel_add_delete_activate two_open (cstr "cktp://c") (opens 3)
           [record_a; record_b] [record_a; record_b]).
  - reflexivity.
  - reflexivity.
  - apply two_open_records.
  - apply two_open_records.
  - reflexivity.
  - cbn. lia.
  - not_in_list.
  - not_in_list.
  - vm_compute. reflexivity.
Defined.

(** ** Sending packets *)

(** The packets handed to the driver, with the handle, in order. *)
Definition sent_packets (tr : list event) : list (cktp_tunnel_t * list Z) :=
  omap (fun e => match e with
                 | ev_cktp_tunnel_packet h p => Some (h, p)
                 | _ => None
                 end) tr.

(** The total length field of the IP header of a packet. *)
Definition tot_len (p : list Z) : Z :=
  match p !! 2%nat, p !! 3%nat with
  | Some hi, Some lo => hi * 256 + lo
  | _, _ => 0
  end.

Lemma sent_packets_app (tr1 tr2 : list event) :
  sent_packets (tr1 ++ tr2) = sent_packets tr1 ++ sent_packets tr2.
Proof. apply omap_app. Qed.

Section Packets.
Context {D : Type} {dbl : Double D} {ext : Extern}.
Local Open Scope prog_scope.

Lemma ip_tot_len_done (st : tunnels_state D) (p : list Z) :
  (4 <= length p)%nat -> ip_tot_len p st = Done (tot_len p) st.
Proof.
  intros Hlen. unfold ip_tot_len, tot_len.
  destruct (lookup_lt_is_Some_2 p 2) as [hi ->]; [lia|].
  destruct (lookup_lt_is_Some_2 p 3) as [lo ->]; [lia|].
  reflexivity.
Qed.

(** The check of the sizes: it sends nothing, and tells whether every
    packet fits. *)
Lemma fit_loop_done (packets : list (list Z)) (mtu : Z) :
  Forall (fun p => (4 <= length p)%nat) packets ->
  forall (fit : bool) (st : tunnels_state D),
  exists tr,
    fit_loop packets mtu fit st
      = Done (fit && forallb (fun p => tot_len p <=? mtu) packets)
             (with_trace (trace st ++ tr) st) /\
    sent_packets tr = [] /\
    (fit && forallb (fun p => tot_len p <=? mtu) packets = true -> tr = []).
Proof.
  induction 1 as [|p packets Hp _ IH]; intros fit st.
  - exists []. cbn. rewrite andb_true_r, app_nil_r. unfold ret.
    by destruct st.
  - cbn [fit_loop forallb]. unfold bind at 1.
    rewrite ip_tot_len_done by done. unfold bind at 1.
    destruct (fit && (tot_len p <=? mtu)) eqn:Hfit; cbn [negb].
    + destruct (IH true st) as (tr & Hrun & Hsent & Hnil).
      exists tr. unfold ret at 1. rewrite Hrun.
      apply andb_prop in Hfit as [-> ->]. done.
    + unfold emit, modify.
      destruct (IH false (with_trace (trace st ++
                  [ev_log "unable tunnel packet; maximum allowed packet size"
                     (utoa (tot_len p) ++ cstr " " ++ utoa mtu)]) st))
        as (tr & Hrun & Hsent & _).
      exists (ev_log "unable tunnel packet; maximum allowed packet size"
                (utoa (tot_len p) ++ cstr " " ++ utoa mtu) :: tr).
      rewrite Hrun. cbn [andb].
      assert (Hres : fit && ((tot_len p <=? mtu)
                       && forallb (fun p => tot_len p <=? mtu) packets) = false).
      { rewrite andb_assoc, Hfit. reflexivity. }
      rewrite Hres. split; [|split; [exact Hsent|done]].
      f_equal. destruct st; cbn. by rewrite <- app_assoc.
Qed.

Lemma send_loop_done (h : cktp_tunnel_t) (packets : list (list Z)) :
  forall st : tunnels_state D,
  send_loop h packets st
    = Done tt (with_trace (trace st ++ (ev_cktp_tunnel_packet h <$> packets)) st).
Proof.
  induction packets as [|p packets IH]; intros st.
  - cbn. rewrite app_nil_r. unfold ret. by destruct st.
  - cbn [send_loop]. unfold bind, emit, modify. rewrite IH.
    f_equal. destruct st; cbn. by rewrite <- app_assoc.
Qed.

(** [tunnel_packets] sends every packet or none.  The selector has chosen
    a tunnel whose MTU is not 0.  When every packet fits the MTU, the
    packets are handed to the driver of that tunnel, in order, and nothing
    else is logged; when one packet does not fit, no packet is sent and
    the driver is asked once to report that fragmentation is required.
    In both cases the function returns true with the mutex released. *)
Theorem tunnel_packets_all_or_nothing (st st1 : tunnels_state D)
    (packet : list Z) (packets : list (list Z)) (hash repeat config_mtu : Z)
    (tunnel : tunnel_t) (t : tunnel_s D) :
  tunnels_lock st = false ->
  tunnel_get hash repeat (with_lock true st) = Done (Some tunnel) st1 ->
  heap st1 !! tunnel = Some t ->
  uint16 (cktp_tunnel_get_mtu (t_tunnel t) config_mtu) <> 0 ->
  Forall (fun p => (4 <= length p)%nat) packets ->
  let mtu := uint16 (cktp_tunnel_get_mtu (t_tunnel t) config_mtu) in
  exists st',
    tunnel_packets packet packets hash repeat config_mtu st = Done true st' /\
    tunnels_lock st' = false /\
    heap st' = heap st1 /\
    if forallb (fun p => tot_len p <=? mtu) packets
    then trace st' = trace st1 ++ (ev_cktp_tunnel_packet (t_tunnel t) <$> packets)
    else sent_packets (trace st') = sent_packets (trace st1) /\
         last (trace st')
           = Some (ev_cktp_fragmentation_required (t_tunnel t) mtu packet).
Proof.
  intros Hlock Hget Ht Hmtu Hpackets mtu.
  unfold tunnel_packets, bind at 1, thread_lock. rewrite Hlock.
  unfold bind at 1. rewrite Hget.
  unfold bind at 1, deref. rewrite Ht. fold mtu.
  destruct (Z.eqb_spec mtu 0) as [?|_]; [done|].
  unfold bind at 1.
  destruct (fit_loop_done packets mtu Hpackets true st1)
    as (tr & -> & Hsent & Hnil).
  cbn [andb] in *.
  destruct (forallb (fun p => tot_len p <=? mtu) packets); cbn [negb].
  - rewrite (Hnil eq_refl). unfold bind at 1.
    rewrite send_loop_done. unfold_prog. cbn.
    eexists. split; [reflexivity|]. cbn. by rewrite app_nil_r.
  - unfold_prog. cbn. eexists. split; [reflexivity|]. cbn.
    split; [done|]. split; [done|]. split.
    + rewrite !sent_packets_app, Hsent. cbn. by rewrite !app_nil_r.
    + by rewrite last_snoc.
Qed.

End Packets.

(** An IPv4 header whose total length is 2000, above the MTU 1500. *)
Definition big_packet : list Z :=
  [69; 0; 7; 208; 0; 0; 0; 0; 64; 17; 0; 0; 10; 0; 0; 1; 10; 0; 0; 2].

(** The state the selector leaves when it is called with the mutex held
    and one tunnel is open. *)
Definition one_open_selected : tunnels_state Q :=
  state_after (tunnel_get 0 0) (with_lock true one_open).

(** Two packets that fit are both sent; of a packet that fits and one
    that does not, none is sent. *)
Lemma tunnel_packets_all_or_nothing_witness :
  (exists st',
     tunnel_packets sample_packet [sample_packet; sample_packet] 0 0 1500
       one_open = Done true st' /\
     trace st' = trace one_open_selected ++
                 [ev_cktp_tunnel_packet (Some 1%nat) sample_packet;
                  ev_cktp_tunnel_packet (Some 1%nat) sample_packet]) /\
  (exists st',
     tunnel_packets sample_packet [sample_packet; big_packet] 0 0 1500
       one_open = Done true st' /\
     sent_packets (trace st') = sent_packets (trace one_open_selected) /\
     last (trace st')
       = Some (ev_cktp_fragmentation_required (Some 1%nat) 1500
                 sample_packet)).
Proof.
  assert (Hget : tunnel_get 0 0 (with_lock true one_open)
                 = Done (Some 0%nat) one_open_selected)
    by (vm_compute; reflexivity).
  assert (Ht : heap one_open_selected !! 0%nat = Some record_a)
    by (vm_compute; reflexivity).
  split.
  - destruct (tunnel_packets_all_or_nothing one_open one_open_selected
                sample_packet [sample_packet; sample_packet] 0 0 1500
                0%nat record_a eq_refl Hget Ht)
      as (st' & Hrun & _ & _ & Htrace).
    + discriminate.
    + repeat constructor; cbn; lia.
    + exists st'. split; [exact Hrun | exact Htrace].
  - destruct (tunnel_packets_all_or_nothing one_open one_open_selected
                sample_packet [sample_packet; big_packet] 0 0 1500
                0%nat record_a eq_refl Hget Ht)
      as (st' & Hrun & _ & _ & Htrace).
    + discriminate.
    + repeat constructor; cbn; lia.
    + exists st'. split; [exact Hrun | exact Htrace].
Defined.

(** ** The HTML pages *)

(** The line of a tunnel in a page: an [option] element whose value and
    text are the URL, as it is. *)
Definition option_line (url : cstring) : cstring :=
  cstr "<option value=" ++ [quote] ++ url ++ [quote] ++ cstr ">" ++ url
  ++ cstr "</option>" ++ nl.

Section PageTheorems.
Context {D : Type} {dbl : Double D} {ext : Extern}.
Local Open Scope prog_scope.

Lemma html_loop_done (st : tunnels_state D) ts rs :
  records st ts rs ->
  forall buff,
    html_loop ts buff st
      = Done (buff ++ concat (option_line <$> (t_url <$> rs))) st.
Proof.
  induction 1 as [|tunnel t ts rs Ht _ IH]; intros buff.
  - cbn. by rewrite app_nil_r.
  - cbn [html_loop]. unfold bind at 1, deref at 1. rewrite Ht.
    unfold bind at 1, deref at 1. rewrite Ht. rewrite IH.
    f_equal. unfold http_buffer_puts, option_line.
    cbn [fmap list_fmap concat].
    repeat (progress cbn [app] || rewrite <- app_assoc). reflexivity.
Qed.

(** A page lists the tunnels of its set, each once and in the order of
    the set, whatever their state: for each tunnel the line [option_line]
    of its URL, appended to what the buffer held.  [tunnel_html] returns
    true and leaves the state as it was, the mutex released. *)
Theorem tunnel_html_lists_the_set (st : tunnels_state D)
    (tunnel_set : tunnel_set_t) (buff : http_buffer_t)
    (rs : list (tunnel_s D)) :
  tunnels_lock st = false ->
  records st (tunnels (the_set tunnel_set st)) rs ->
  tunnel_html buff tunnel_set st
    = Done (true, buff ++ concat (option_line <$> (t_url <$> rs))) st /\
  tunnel_active_html buff st = tunnel_html buff active_set st /\
  tunnel_all_html buff st = tunnel_html buff cache_set st.
Proof.
  intros Hlock Hrs. split; [|done].
  unfold tunnel_html, bind at 1, thread_lock. rewrite Hlock.
  unfold bind at 1, get_set at 1. fold (the_set tunnel_set (with_lock true st)).
  assert (Hset : the_set tunnel_set (with_lock true st) = the_set tunnel_set st)
    by (by destruct tunnel_set).
  rewrite Hset. unfold bind at 1.
  rewrite (html_loop_done _ _ rs) by exact Hrs.
  unfold_prog. do 2 f_equal. destruct st; cbn in *. by subst.
Qed.

End PageTheorems.

Lemma tunnel_html_lists_the_set_witness :
  tunnel_html (cstr "<select>") cache_set two_open_one_added
    = Done (true,
            cstr "<select>"
            ++ option_line (cstr "cktp://a") ++ option_line (cstr "cktp://b")
            ++ option_line (cstr "cktp://c"))
        two_open_one_added.
Proof.
  destruct (tunnel_html_lists_the_set two_open_one_added cache_set
              (cstr "<select>") [record_a; record_b; record_c]) as [Hrun _].
  - reflexivity.
  - apply two_open_one_added_records.
  - rewrite Hrun. cbn [fmap list_fmap concat t_url record_a record_b record_c].
    rewrite app_nil_r. reflexivity.
Defined.

(** ** The reconnection manager *)

Section ReconnectManager.
Context {D : Type} {dbl : Double D} {ext : Extern}.
Local Open Scope prog_scope.

(** The tunnel has timed out at [now] and is not being reconnected. *)
Definition due (now : Z) (t : tunnel_s D) : bool :=
  negb (t_reconnect t) && cktp_tunnel_timeout (t_tunnel t) now.

(** The record after the scan. *)
Definition mark (now : Z) (t : tunnel_s D) : tunnel_s D :=
  if due now t then set_t_reconnect true t else t.

(** The thread the scan creates for a tunnel. *)
Definition reconnect_of (t : tunnel_s D) : event :=
  ev_thread_create (tunnel_reconnect_thread (t_url t)).

Lemma reconnect_manager_scan_done (now : Z) ts rs :
  forall st : tunnels_state D,
  records st ts rs ->
  NoDup ts ->
  exists h,
    reconnect_manager_scan ts now st
      = Done tt
          (with_trace (trace st ++ (reconnect_of <$> filter (fun t => due now t) rs))
             (with_heap h st)) /\
    Forall2 (fun tunnel t => h !! tunnel = Some t) ts (mark now <$> rs) /\
    (forall p, p ∉ ts -> h !! p = heap st !! p).
Proof.
  revert ts.
  induction rs as [|t rs IH]; intros ts st Hrs Hnodup;
    inversion Hrs as [|tunnel t' ts' rs' Ht Hrest]; subst.
  - exists (heap st). cbn. rewrite app_nil_r. split; [|done].
    unfold ret. by destruct st.
  - apply NoDup_cons in Hnodup as [Hnotin Hnodup].
    cbn [reconnect_manager_scan]. unfold bind at 1, deref at 1. rewrite Ht.
    unfold bind at 1. fold (due now t).
    destruct (due now t) eqn:Hdue.
    + rewrite filter_cons_True by (by rewrite Hdue).
      unfold_prog. rewrite Ht. cbn. rewrite lookup_insert_eq. cbn.
      set (st1 := with_trace _ _).
      assert (Hrs1 : records st1 ts' rs).
      { unfold records, st1. cbn. by apply points_insert_notin. }
      destruct (IH ts' st1 Hrs1 Hnodup) as (h & Hrun & Hh & Hout).
      exists h. rewrite Hrun. split; [|split].
      * f_equal. unfold st1. destruct st; cbn.
        by rewrite <- app_assoc.
      * cbn [fmap list_fmap]. constructor; [|exact Hh].
        rewrite Hout by done. unfold st1. cbn.
        rewrite lookup_insert_eq. unfold mark. by rewrite Hdue.
      * intros p Hp. rewrite Hout.
        -- unfold st1. cbn. rewrite lookup_insert_ne; [done|].
           intros ->. apply Hp. apply list_elem_of_here.
        -- intros Hin. apply Hp. by apply list_elem_of_further.
    + rewrite filter_cons_False by (rewrite Hdue; exact id).
      unfold ret at 1.
      destruct (IH ts' st Hrest Hnodup) as (h & Hrun & Hh & Hout).
      exists h. rewrite Hrun. split; [|split].
      * reflexivity.
      * cbn [fmap list_fmap]. constructor; [|exact Hh].
        rewrite Hout by done. unfold mark. by rewrite Hdue.
      * intros p Hp. apply Hout.
        intros Hin. apply Hp. by apply list_elem_of_further.
Qed.

(** A round of the reconnection manager, no other thread interfering.
    It sleeps for a second and a stagger, reads the clock, and creates one
    reconnect thread for every tunnel of the active set that has timed out
    and is not being reconnected, in the order of the set; it sets the
    flag [reconnect] of these tunnels and changes no other record.  A
    tunnel whose flag is set is not due at any later time: it gets no
    second thread. *)
Theorem reconnect_manager_round_once (st : tunnels_state D)
    (rs : list (tunnel_s D)) :
  tunnels_lock st = false ->
  records st (tunnels (tunnels_active st)) rs ->
  NoDup (tunnels (tunnels_active st)) ->
  let now := uint64 (gettime_at (clock st)) in
  let stagger := uint64 ((uint32 (random_draw (rng st)) mod 1000) * MILLISECONDS) in
  exists st',
    reconnect_manager_round (fun st => st) st = Done tt st' /\
    tunnels_lock st' = false /\
    tunnels_active st' = tunnels_active st /\
    tunnels_cache st' = tunnels_cache st /\
    trace st' =
      trace st ++ [ev_sleeptime (uint64 (1 * SECONDS + stagger))]
      ++ (reconnect_of <$> filter (fun t => due now t) rs) /\
    records st' (tunnels (tunnels_active st)) (mark now <$> rs) /\
    (forall p, p ∉ tunnels (tunnels_active st) ->
       heap st' !! p = heap st !! p) /\
    (forall t now', t ∈ rs -> due now t = true -> due now' (mark now t) = false).
Proof.
  intros Hlock Hrs Hnodup now stagger.
  unfold reconnect_manager_round.
  unfold bind at 1, thread_lock. rewrite Hlock.
  unfold bind at 1, random_uint32. unfold bind at 1, thread_unlock, modify.
  unfold bind at 1, emit, modify. unfold bind at 1. unfold bind at 1.
  cbn [tunnels_lock with_lock with_rng with_trace].
  unfold bind at 1, gettime. unfold bind at 1, get_set. unfold bind at 1.
  cbn [tunnels_active with_lock with_rng with_trace with_clock clock].
  set (st1 := with_clock _ _).
  destruct (reconnect_manager_scan_done now (tunnels (tunnels_active st)) rs
              st1) as (h & Hrun & Hh & Hout); [exact Hrs|exact Hnodup|].
  fold now. rewrite Hrun. eexists. split; [reflexivity|].
  cbn. fold stagger. rewrite <- app_assoc. repeat split; try done.
  intros t now' _ Hdue. unfold mark. rewrite Hdue. reflexivity.
Qed.

End ReconnectManager.

(** An environment in which the tunnel of handle 2 has timed out, at any
    time, and no other tunnel has. *)
Definition timed_out_extern : Extern := {|
  CKTP_MAX_URL_LENGTH := 1024;
  PROGRAM_NAME_LONG := cstr "ReQrypt";
  TUNNELS_FILENAME := cstr "tunnels.cache";
  WINDOWS := false;
  cktp_parse_url := sample_parse_url;
  cktp_tunnel_get_mtu := sample_get_mtu;
  cktp_tunnel_timeout := fun h _ => bool_decide (h = Some 2%nat);
  random_draw := fun n => Z.of_nat n * 2654435761 + 12345;
  gettime_at := fun n => Z.of_nat n * 1000000
|}.

(** Two tunnels are open and cktp://b has timed out: the round creates
    the reconnect thread of cktp://b and sets its flag. *)
Lemma reconnect_manager_round_once_witness :
  exists st',
    reconnect_manager_round (ext := timed_out_extern) (fun st => st) two_open
      = Done tt st' /\
    sent_packets (trace st') = [] /\
    last (trace st')
      = Some (ev_thread_create (tunnel_reconnect_thread (cstr "cktp://b"))) /\
    heap st' !! 1%nat = Some (set_t_reconnect true record_b).
Proof.
  destruct (reconnect_manager_round_once (ext := timed_out_extern) two_open
              [record_a; record_b])
    as (st' & Hrun & _ & _ & _ & Htrace & Hrecords & _).
  - reflexivity.
  - apply two_open_records.
  - apply (bool_decide_unpack (NoDup (tunnels (tunnels_active two_open)))).
    vm_compute. exact I.
  - exists st'. split; [exact Hrun|]. split; [|split].
    + rewrite Htrace. vm_compute. reflexivity.
    + rewrite Htrace. vm_compute. reflexivity.
    + apply (Forall2_lookup_lr _ _ _ 1%nat _ _ Hrecords);
        vm_compute; reflexivity.
Defined.

(** ** The reconnect thread *)

Section ReconnectThread.
Context {D : Type} {dbl : Double D} {ext : Extern}.
Local Open Scope prog_scope.

(** The record [tunnel_reconnect] creates for [url], once it is OPENING. *)
Definition reconnecting (st : tunnels_state D) (url : cstring) : tunnel_s D :=
  {| t_tunnel := None; t_state := TUNNEL_STATE_OPENING; t_reconnect := false;
     t_id := tunnel_create_id st; t_age := TUNNEL_INIT_AGE; t_weight := d_1;
     t_url := url |}.

(** The driver opens the tunnel at the first call. *)
Lemma try_activate_loop_opens (st : tunnels_state D) retries h k tunnel us t :
  heap st !! tunnel = Some t ->
  t_state t = TUNNEL_STATE_OPENING ->
  try_activate_loop (S retries) (opens h) k tunnel us st
  = Done true
      (with_trace (trace st ++ [ev_log "attempting to open tunnel" (t_url t);
                                ev_cktp_open_tunnel (t_url t)])
         (with_heap (<[tunnel := set_t_tunnel (Some h) t]> (heap st)) st)).
Proof.
  intros Ht Hstate. cbn [try_activate_loop]. unfold bind at 1, deref at 1.
  rewrite Ht, Hstate. rewrite bool_decide_true by done.
  unfold_prog. cbn. rewrite Ht. cbn.
  f_equal. destruct st; cbn. by rewrite <- app_assoc.
Qed.

Lemma try_activate_loop_unfold (retries : nat) (sched : nat -> attempt (D := D))
    k tunnel us :
  try_activate_loop (S retries) sched k tunnel us =
    (t <- deref tunnel;;
     if bool_decide (t_state t = TUNNEL_STATE_OPENING) then
       emit (ev_log "attempting to open tunnel" (t_url t));;
       emit (ev_cktp_open_tunnel (t_url t));;
       modify (att_during_open (sched k));;
       assign tunnel (set_t_tunnel (att_open (sched k)));;
       if bool_decide (att_open (sched k) <> None) then ret true
       else
         t <- deref tunnel;;
         if bool_decide (t_state t <> TUNNEL_STATE_OPENING) then ret true
         else if (retries =? 0)%nat then ret false
         else
           emit (ev_log "unable to open tunnel; retrying" (t_url t));;
           emit (ev_sleeptime us);;
           modify (att_during_sleep (sched k));;
           try_activate_loop retries sched (S k) tunnel (uint64 (us * 6))
     else ret true).
Proof. reflexivity. Qed.

#[local] Arguments try_activate_loop : simpl never.

(** The driver never opens the tunnel: after [S retries] calls the loop
    gives up. *)
Lemma try_activate_loop_never_opens (tunnel : tunnel_t) (t : tunnel_s D)
    (retries : nat) :
  t_state t = TUNNEL_STATE_OPENING ->
  t_tunnel t = None ->
  forall k us (st : tunnels_state D),
  heap st !! tunnel = Some t ->
  exists evs,
    try_activate_loop (S retries) never_opens k tunnel us st
    = Done false (with_trace (trace st ++ evs) st) /\
    open_calls evs = replicate (S retries) (t_url t).
Proof.
  intros Hstate Hnull.
  assert (Hsame : set_t_tunnel None t = t).
  { destruct t; cbn in *. by subst. }
  induction retries as [|retries IH]; intros k us st Ht;
    rewrite try_activate_loop_unfold;
    unfold bind at 1, deref at 1; rewrite Ht, Hstate;
    rewrite bool_decide_true by done;
    unfold_prog; cbn; rewrite Ht; cbn; rewrite lookup_insert_eq; cbn;
    rewrite Hsame, Hstate; rewrite bool_decide_false by (intros H; by apply H);
    rewrite insert_id by done; unfold alone.
  - exists [ev_log "attempting to open tunnel" (t_url t);
            ev_cktp_open_tunnel (t_url t)].
    split; [|reflexivity].
    f_equal. destruct st; cbn. by rewrite <- app_assoc.
  - match goal with
    | |- context [try_activate_loop _ _ ?k' _ ?us' ?st'] =>
        destruct (IH k' us' st') as (evs & Hrun & Hopens); [exact Ht|]
    end.
    rewrite Hrun.
    exists (ev_log "attempting to open tunnel" (t_url t)
            :: ev_cktp_open_tunnel (t_url t)
            :: ev_log "unable to open tunnel; retrying" (t_url t)
            :: ev_sleeptime us :: evs).
    split; [|unfold open_calls in Hopens |- *; cbn; rewrite Hopens;
             reflexivity].
    f_equal. destruct st; cbn. by rewrite <- !app_assoc.
Qed.

(** The state in which [tunnel_reconnect] goes on after
    [tunnel_try_activate], whose calls of the driver have left the events
    [evs] and the handle [h]. *)
Definition reconnect_tried (st : tunnels_state D) (url : cstring)
    (h : cktp_tunnel_t) (evs : list event) : tunnels_state D :=
  with_trace (trace st ++ evs)
    (with_heap (<[brk st := set_t_tunnel h (reconnecting st url)]> (heap st))
       (with_rng (S (rng st))
          (with_create_id (uint16 (tunnel_create_id st + 1))
             (with_brk (S (brk st)) st)))).

Lemma tunnel_reconnect_opens (st : tunnels_state D) (h : nat) (url : cstring) :
  tunnels_lock st = false ->
  (length url <= CKTP_MAX_URL_LENGTH)%nat ->
  tunnel_reconnect (opens h) (fun st => st) url st
  = tunnel_reconnect_success (brk st)
      (reconnect_tried st url (Some h)
         [ev_log "attempting to open tunnel" url; ev_cktp_open_tunnel url]).
Proof.
  intros Hlock Hlen.
  unfold tunnel_reconnect, tunnel_create, tunnel_try_activate.
  change (Z.to_nat MAX_RETRIES) with 3%nat.
  unfold strncpy. rewrite take_ge by done.
  unfold_prog. cbn. rewrite lookup_insert_eq. cbn. rewrite Hlock.
  erewrite try_activate_loop_opens;
    [|cbn; rewrite lookup_insert_eq; reflexivity|reflexivity].
  cbn. f_equal. unfold reconnect_tried, reconnecting.
  destruct st; cbn in *. subst. by rewrite !insert_insert_eq.
Qed.

Lemma tunnel_reconnect_never_opens (st : tunnels_state D) (url : cstring) :
  tunnels_lock st = false ->
  (length url <= CKTP_MAX_URL_LENGTH)%nat ->
  exists evs,
    tunnel_reconnect never_opens (fun st => st) url st
    = tunnel_reconnect_failure (brk st) (reconnect_tried st url None evs) /\
    open_calls evs = [url; url; url].
Proof.
  intros Hlock Hlen.
  unfold tunnel_reconnect, tunnel_create, tunnel_try_activate.
  change (Z.to_nat MAX_RETRIES) with 3%nat.
  unfold strncpy. rewrite take_ge by done.
  unfold_prog. cbn. rewrite lookup_insert_eq. cbn. rewrite Hlock.
  match goal with
  | |- context [try_activate_loop 3 never_opens ?k (brk st) ?us ?st'] =>
      destruct (try_activate_loop_never_opens (brk st) (reconnecting st url)
                  2 eq_refl eq_refl k us st') as (evs & Hrun & Hopens)
  end.
  { cbn. by rewrite lookup_insert_eq. }
  exists evs. rewrite Hrun. split; [|exact Hopens].
  cbn. f_equal. unfold reconnect_tried, reconnecting.
  destruct st; cbn in *. subst. by rewrite !insert_insert_eq.
Qed.

End ReconnectThread.

Section ReconnectTheorems.
Context {D : Type} {dbl : Double D} {ext : Extern}.
Local Open Scope prog_scope.

Lemma reconnect_tried_records (st : tunnels_state D) url h evs ts rs :
  records st ts rs ->
  heap st !! brk st = None ->
  records (with_lock true (reconnect_tried st url h evs)) ts rs.
Proof.
  intros Hrs Hfresh. eapply (records_insert_fresh st); [done..|reflexivity].
Qed.

(** A tunnel of the active set is reconnected and the driver opens the new
    connection.  The new record takes the place of the old one in the
    active set and in the cache; the handle of the old record is closed
    and the old record is freed.  The new record holds the new handle and
    is left in the state OPENING, in which [tunnel_reconnect] put it
    before the attempt: no statement of the function sets it to OPEN. *)
Theorem tunnel_reconnect_replaces (st : tunnels_state D) (h : nat)
    (url : cstring) (active cache : list (tunnel_s D)) (i j : nat)
    (t_old t_c : tunnel_s D) :
  tunnels_lock st = false ->
  (length url <= CKTP_MAX_URL_LENGTH)%nat ->
  heap st !! brk st = None ->
  records st (tunnels (tunnels_active st)) active ->
  records st (tunnels (tunnels_cache st)) cache ->
  active !! i = Some t_old ->
  t_url t_old = url ->
  (forall k t', (k < i)%nat -> active !! k = Some t' -> t_url t' <> url) ->
  t_state t_old = TUNNEL_STATE_OPEN ->
  cache !! j = Some t_c ->
  t_url t_c = url ->
  (forall k t', (k < j)%nat -> cache !! k = Some t' -> t_url t' <> url) ->
  exists old st',
    tunnels (tunnels_active st) !! i = Some old /\
    tunnel_reconnect (opens h) (fun st => st) url st = Done tt st' /\
    tunnels_lock st' = false /\
    tunnels (tunnels_active st')
      = <[i := brk st]> (tunnels (tunnels_active st)) /\
    tunnels (tunnels_cache st')
      = <[j := brk st]> (tunnels (tunnels_cache st)) /\
    heap st' = delete old
                 (<[brk st := set_t_tunnel (Some h) (reconnecting st url)]>
                    (heap st)) /\
    t_state <$> heap st' !! brk st = Some TUNNEL_STATE_OPENING /\
    trace st' =
      trace st ++
      [ev_log "attempting to open tunnel" url; ev_cktp_open_tunnel url;
       ev_cktp_close_tunnel (t_tunnel t_old);
       ev_log "successfully (re)opened tunnel" url].
Proof.
  intros Hlock Hlen Hfresh Hactive Hcache Hi Hurl Hfirst Hopen Hj Hurlc Hfirstc.
  rewrite tunnel_reconnect_opens by done.
  set (evs := [_; _]). set (so := reconnect_tried st url (Some h) evs).
  pose proof (reconnect_tried_records st url (Some h) evs _ _ Hactive Hfresh)
    as Hactive1.
  pose proof (reconnect_tried_records st url (Some h) evs _ _ Hcache Hfresh)
    as Hcache1.
  fold so in Hactive1, Hcache1.
  destruct (list_find_url_first _ _ _ url i t_old Hactive1 Hi Hurl Hfirst)
    as (old & Hold & Hfind).
  destruct (list_find_url_first _ _ _ url j t_c Hcache1 Hj Hurlc Hfirstc)
    as (oldc & Holdc & Hfindc).
  exists old. eexists. split; [exact Hold|].
  destruct (Forall2_lookup_l _ _ _ _ _ Hactive Hold) as (t' & Ht' & Hheapold).
  assert (t' = t_old) as -> by congruence.
  assert (Hne : old <> brk st) by congruence.
  unfold tunnel_reconnect_success.
  unfold bind at 1, thread_lock. cbn [tunnels_lock so reconnect_tried with_trace
    with_heap with_rng with_create_id with_brk]. rewrite Hlock.
  fold so.
  (* the active set *)
  unfold bind at 1.
  rewrite (tunnel_set_replace_done (with_lock true so) active_set (brk st)
             (set_t_tunnel (Some h) (reconnecting st url)));
    [|by eapply records_allocated|by (cbn; rewrite lookup_insert_eq)].
  cbn [t_url set_t_tunnel reconnecting the_set].
  change (tunnels_active (with_lock true so)) with (tunnels_active st).
  rewrite Hfind.
  (* the cache *)
  unfold bind at 1.
  match goal with
  | |- context [tunnel_set_replace cache_set (brk st) ?s] => set (sa := s)
  end.
  rewrite (tunnel_set_replace_done sa cache_set (brk st)
             (set_t_tunnel (Some h) (reconnecting st url)));
    [|by eapply records_allocated|by (cbn; rewrite lookup_insert_eq)].
  cbn [t_url set_t_tunnel reconnecting the_set].
  change (tunnels_cache sa) with (tunnels_cache st).
  change (list_find (url_is sa url)) with (list_find (url_is (with_lock true so) url)).
  rewrite Hfindc.
  (* the old record is freed *)
  unfold tunnel_free. unfold_prog. cbn.
  rewrite lookup_insert_ne by done. rewrite Hheapold, Hopen. cbn.
  rewrite lookup_delete_ne by done. rewrite lookup_insert_eq. cbn.
  split; [reflexivity|]. cbn.
  rewrite lookup_delete_ne by done. rewrite lookup_insert_eq. cbn.
  repeat split. unfold evs. by rewrite <- !app_assoc.
Qed.

(** A tunnel is reconnected, the driver opens the new connection, and no
    tunnel of either set has the URL any more.  The new record is passed
    to [tunnel_free] in the state OPENING, so that it is marked DELETING
    and neither freed nor closed: the connection just opened stays open
    and the record stays allocated, in neither set. *)
Theorem tunnel_reconnect_not_found (st : tunnels_state D) (h : nat)
    (url : cstring) (active cache : list (tunnel_s D)) :
  tunnels_lock st = false ->
  (length url <= CKTP_MAX_URL_LENGTH)%nat ->
  heap st !! brk st = None ->
  records st (tunnels (tunnels_active st)) active ->
  records st (tunnels (tunnels_cache st)) cache ->
  url ∉ t_url <$> active ->
  url ∉ t_url <$> cache ->
  exists st',
    tunnel_reconnect (opens h) (fun st => st) url st = Done tt st' /\
    tunnels_lock st' = false /\
    tunnels_active st' = tunnels_active st /\
    tunnels_cache st' = tunnels_cache st /\
    heap st' = <[brk st := set_t_state TUNNEL_STATE_DELETING
                             (set_t_tunnel (Some h) (reconnecting st url))]>
                 (heap st) /\
    trace st' =
      trace st ++
      [ev_log "attempting to open tunnel" url; ev_cktp_open_tunnel url].
Proof.
  intros Hlock Hlen Hfresh Hactive Hcache Hna Hnc.
  rewrite tunnel_reconnect_opens by done.
  set (evs := [_; _]). set (so := reconnect_tried st url (Some h) evs).
  pose proof (reconnect_tried_records st url (Some h) evs _ _ Hactive Hfresh)
    as Hactive1.
  pose proof (reconnect_tried_records st url (Some h) evs _ _ Hcache Hfresh)
    as Hcache1.
  fold so in Hactive1, Hcache1.
  pose proof (list_find_url_none _ _ _ url Hactive1 Hna) as Hfind.
  pose proof (list_find_url_none _ _ _ url Hcache1 Hnc) as Hfindc.
  unfold tunnel_reconnect_success.
  unfold bind at 1, thread_lock. cbn [tunnels_lock so reconnect_tried with_trace
    with_heap with_rng with_create_id with_brk]. rewrite Hlock.
  fold so.
  unfold bind at 1.
  rewrite (tunnel_set_replace_done (with_lock true so) active_set (brk st)
             (set_t_tunnel (Some h) (reconnecting st url)));
    [|by eapply records_allocated|by (cbn; rewrite lookup_insert_eq)].
  cbn [t_url set_t_tunnel reconnecting the_set].
  change (tunnels_active (with_lock true so)) with (tunnels_active st).
  rewrite Hfind.
  unfold bind at 1.
  rewrite (tunnel_set_replace_done (with_lock true so) cache_set (brk st)
             (set_t_tunnel (Some h) (reconnecting st url)));
    [|by eapply records_allocated|by (cbn; rewrite lookup_insert_eq)].
  cbn [t_url set_t_tunnel reconnecting the_set].
  change (tunnels_cache (with_lock true so)) with (tunnels_cache st).
  rewrite Hfindc.
  unfold tunnel_free. unfold_prog. cbn.
  rewrite lookup_insert_eq. cbn. rewrite lookup_insert_eq. cbn.
  eexists. split; [reflexivity|]. cbn.
  repeat split. by rewrite insert_insert_eq.
Qed.

(** A tunnel is reconnected and the driver does not open the new
    connection: after three calls [tunnel_try_activate] gives up.  Then
    [tunnel_reconnect] looks for the URL in the active set, passing the
    string it freed at its start: when the active set holds a tunnel, the
    comparison reads freed memory.  When the active set is empty nothing
    is compared, and the new record, still OPENING, is marked DELETING by
    [tunnel_free] and stays allocated. *)
Theorem tunnel_reconnect_gives_up (st : tunnels_state D) (url : cstring) :
  tunnels_lock st = false ->
  (length url <= CKTP_MAX_URL_LENGTH)%nat ->
  (forall tunnel ts t,
     tunnels (tunnels_active st) = tunnel :: ts ->
     heap st !! tunnel = Some t ->
     tunnel_reconnect never_opens (fun st => st) url st
       = Crash DanglingPointer) /\
  (tunnels (tunnels_active st) = [] ->
   exists st',
     tunnel_reconnect never_opens (fun st => st) url st = Done tt st' /\
     tunnels_lock st' = false /\
     heap st' = <[brk st := set_t_state TUNNEL_STATE_DELETING
                              (reconnecting st url)]> (heap st) /\
     open_calls (trace st') = open_calls (trace st) ++ [url; url; url]).
Proof.
  intros Hlock Hlen.
  destruct (tunnel_reconnect_never_opens st url Hlock Hlen)
    as (evs & -> & Hopens).
  unfold tunnel_reconnect_failure, tunnel_set_delete_freed.
  split.
  - intros tunnel ts t Hts Ht. unfold_prog. cbn.
    rewrite lookup_insert_eq. cbn. rewrite Hlock. cbn. rewrite Hts. cbn.
    destruct (decide (tunnel = brk st)) as [->|Hne].
    + rewrite lookup_insert_eq. reflexivity.
    + rewrite lookup_insert_ne by done. rewrite Ht. reflexivity.
  - intros Hts. unfold tunnel_free. unfold_prog. cbn.
    rewrite lookup_insert_eq. cbn. rewrite Hlock. cbn. rewrite Hts. cbn.
    rewrite lookup_insert_eq. cbn. rewrite lookup_insert_eq. cbn.
    eexists. split; [reflexivity|]. cbn.
    rewrite insert_insert_eq. repeat split.
    rewrite !open_calls_app, Hopens. cbn. by rewrite app_nil_r.
Qed.

End ReconnectTheorems.

(** The open tunnel cktp://b is reconnected and the driver gives the
    handle 7: the new record, at the address 2, replaces the old one, is
    OPENING, and the old record is freed. *)
Lemma tunnel_reconnect_replaces_witness :
  exists st',
    tunnel_reconnect (opens 7) (fun st => st) (cstr "cktp://b") two_open
      = Done tt st' /\
    tunnels (tunnels_active st') = [0; 2]%nat /\
    tunnels (tunnels_cache st') = [0; 2]%nat /\
    t_state <$> heap st' !! 2%nat = Some TUNNEL_STATE_OPENING /\
    heap st' !! 1%nat = None.
Proof.
  destruct (tunnel_reconnect_replaces two_open 7 (cstr "cktp://b")
              [record_a; record_b] [record_a; record_b] 1 1 record_b record_b)
    as (old & st' & Hold & Hrun & _ & Hactive & Hcache & Hheap & Hstate & _).
  - reflexivity.
  - cbn. lia.
  - vm_compute. reflexivity.
  - apply two_open_records.
  - apply two_open_records.
  - reflexivity.
  - reflexivity.
  - first_in_list.
  - reflexivity.
  - reflexivity.
  - reflexivity.
  - first_in_list.
  - assert (H1 : tunnels (tunnels_active two_open) !! 1%nat = Some 1%nat)
      by (vm_compute; reflexivity).
    rewrite H1 in Hold. injection Hold as <-.
    assert (Hbrk : brk two_open = 2%nat) by (vm_compute; reflexivity).
    rewrite Hbrk in Hactive, Hcache, Hheap, Hstate.
    exists st'. split; [exact Hrun|].
    split; [rewrite Hactive; vm_compute; reflexivity|].
    split; [rewrite Hcache; vm_compute; reflexivity|].
    split; [exact Hstate|].
    rewrite Hheap. apply lookup_delete_eq.
Defined.

(** No tunnel has the URL cktp://z: the record of the new connection is
    left allocated, DELETING, with the handle 7. *)
Lemma tunnel_reconnect_not_found_witness :
  exists st',
    tunnel_reconnect (opens 7) (fun st => st) (cstr "cktp://z") two_open
      = Done tt st' /\
    tunnels_active st' = tunnels_active two_open /\
    heap st' !! brk two_open
      = Some (set_t_state TUNNEL_STATE_DELETING
                (set_t_tunnel (Some 7%nat)
                   (reconnecting two_open (cstr "cktp://z")))) /\
    sent_packets (trace st') = sent_packets (trace two_open).
Proof.
  destruct (tunnel_reconnect_not_found two_open 7 (cstr "cktp://z")
              [record_a; record_b] [record_a; record_b])
    as (st' & Hrun & _ & Hactive & _ & Hheap & Htrace).
  - reflexivity.
  - cbn. lia.
  - vm_compute. reflexivity.
  - apply two_open_records.
  - apply two_open_records.
  - not_in_list.
  - not_in_list.
  - exists st'. split; [exact Hrun|]. split; [exact Hactive|].
    split; [rewrite Hheap; apply lookup_insert_eq|].
    rewrite Htrace, sent_packets_app. apply app_nil_r.
Defined.

(** The driver does not reopen cktp://b: with the two tunnels in the
    active set the freed URL is read; after [tunnel_init] alone the active
    set is empty and the record is left allocated. *)
Lemma tunnel_reconnect_gives_up_witness :
  tunnel_reconnect never_opens (fun st => st) (cstr "cktp://b") two_open
    = Crash DanglingPointer /\
  exists st',
    tunnel_reconnect never_opens (fun st => st) (cstr "cktp://b")
      (state_after tunnel_init (initial_state (D := Q) (no_files true)))
      = Done tt st' /\
    t_state <$> heap st' !! 0%nat = Some TUNNEL_STATE_DELETING /\
    open_calls (trace st')
      = [cstr "cktp://b"; cstr "cktp://b"; cstr "cktp://b"].
Proof.
  split.
  - destruct (tunnel_reconnect_gives_up two_open (cstr "cktp://b"))
      as [Hcrash _]; [reflexivity|cbn; lia|].
    apply (Hcrash 0%nat [1%nat] record_a); vm_compute; reflexivity.
  - destruct (tunnel_reconnect_gives_up
                (state_after tunnel_init (initial_state (D := Q) (no_files true)))
                (cstr "cktp://b"))
      as [_ Hdone]; [reflexivity|cbn; lia|].
    destruct (Hdone eq_refl) as (st' & Hrun & _ & Hheap & Hopens).
    exists st'. split; [exact Hrun|]. split.
    + rewrite Hheap. change (brk _) with 0%nat.
      rewrite lookup_insert_eq. reflexivity.
    + rewrite Hopens. vm_compute. reflexivity.
Defined.
